(** * Comparador de ativos: janelas móveis de rentabilidade

    Shallow embedding of [comparacao_ativos.py] and [renda_fixa_br.py]:
    the retrying market fetch, the USD→BRL normalizer, the percentage
    variation and rolling-window returns, the two superation detectors,
    the comparison up to its drawing, the paginated BCB rate fetch, the
    savings-account valuation, the cache on disk and the CDI valuation.

    Prices and rates are IEEE-754 binary64 numbers (Python [float],
    numpy [float64]); they are modelled by Rocq's primitive floats.
    A [datetime] at midnight is modelled by its day ordinal in [Z].
    A quote frame has single-level column labels or the two-level labels
    of yfinance; the program handles both. *)

From Stdlib Require Import ZArith List Bool String Ascii Lia Floats.
From Stdlib Require Import Sorting.Sorted.
From Equations Require Import Equations.
Import ListNotations.

Set Implicit Arguments.
Set Warnings "-inexact-float".

(* ===================================================================== *)
(** * Part I — definitions                                                *)
(* ===================================================================== *)

(** ** Python values: exceptions, results, indexing, strings *)
Module Py.

(** Instances of Python's [Exception] that the modelled code raises or
    receives from its collaborators.  [str_exn] is [str(e)]. *)
Inductive exn : Type :=
| ValueError (msg : string)
| ZeroDivisionError
| IndexError
| KeyError (key : string)
| ConnectionError (msg : string)
| TimeoutError (msg : string)
| TypeError (msg : string)
| RuntimeError (msg : string).

Definition str_exn (e : exn) : string :=
  match e with
  | ValueError m | ConnectionError m | TimeoutError m | TypeError m
  | RuntimeError m => m
  | ZeroDivisionError => "float division by zero"
  | IndexError => "single positional indexer is out-of-bounds"
  | KeyError k => k
  end.

(** Network and timeout conditions, as opposed to every other exception. *)
Definition is_network (e : exn) : bool :=
  match e with
  | ConnectionError _ | TimeoutError _ => true
  | _ => false
  end.

(** A computation either returns a value or raises. *)
Inductive result (A : Type) : Type :=
| Return (a : A)
| Raise (e : exn).
Arguments Return {A} a.
Arguments Raise {A} e.

Definition bind {A B} (m : result A) (k : A -> result B) : result B :=
  match m with
  | Return a => k a
  | Raise e => Raise e
  end.

(** [try: m  except Exception as e: h e] *)
Definition try_except {A} (m : result A) (h : exn -> result A) : result A :=
  match m with
  | Return a => Return a
  | Raise e => h e
  end.

(** [l[i]] / [.iloc[i]]: a negative position counts from the end; a
    position out of range raises [IndexError] ([None] here). *)
Definition iloc {A} (l : list A) (i : Z) : option A :=
  let n := Z.of_nat (List.length l) in
  if (0 <=? i)%Z then nth_error l (Z.to_nat i)
  else if (- n <=? i)%Z then nth_error l (Z.to_nat (n + i))
  else None.

(** [range(n)] *)
Definition range (n : Z) : list Z := map Z.of_nat (seq 0 (Z.to_nat n)).

(** [enumerate(l)] *)
Definition enumerate {A} (l : list A) : list (Z * A) :=
  combine (range (Z.of_nat (List.length l))) l.

(** [s.startswith(p)] *)
Fixpoint startswith (p s : string) : bool :=
  match p, s with
  | EmptyString, _ => true
  | String a p', String b s' => Ascii.eqb a b && startswith p' s'
  | String _ _, EmptyString => false
  end.

(** [p in s] for strings *)
Fixpoint contains (p s : string) : bool :=
  startswith p s ||
  match s with
  | EmptyString => false
  | String _ s' => contains p s'
  end.

(** [s.lower()], on the ASCII letters *)
Definition lower_ascii (c : ascii) : ascii :=
  let n := nat_of_ascii c in
  if (65 <=? n)%nat && (n <=? 90)%nat then ascii_of_nat (n + 32) else c.

Fixpoint lower (s : string) : string :=
  match s with
  | EmptyString => EmptyString
  | String c s' => String (lower_ascii c) (lower s')
  end.


(** [s.replace(old, new)] for a non-empty [old]: every occurrence from
    the left, without overlap; [saltar] counts the characters of the
    occurrence just replaced that are still to be passed over. *)
Fixpoint replace_desde (old new : string) (saltar : nat) (s : string) : string :=
  match s with
  | EmptyString => EmptyString
  | String c s' =>
      match saltar with
      | S k => replace_desde old new k s'
      | O =>
          if startswith old s
          then new ++ replace_desde old new (String.length old - 1) s'
          else String c (replace_desde old new 0 s')
      end
  end.

Definition replace (old new s : string) : string := replace_desde old new 0 s.

End Py.

Module PyNotations.
Notation "x <- m ;; k" := (Py.bind m (fun x => k))
  (at level 61, m at next level, right associativity).
Notation "' pat <- m ;; k" := (Py.bind m (fun x => match x with pat => k end))
  (at level 61, pat pattern, m at next level, right associativity).
End PyNotations.

(** ** The part of pandas the program uses *)
Module Pandas.
Import Py.

Definition date := Z.

(** A [Series] with a date index: its (label, value) pairs in order. *)
Definition Series := list (date * float).

(** The column labels of a frame: a single-level index of strings, or the
    two-level index that yfinance builds, of [(field, ticker)] pairs. *)
Inductive Colunas : Type :=
| Planas (cols : list (string * list float))
| DoisNiveis (cols : list ((string * string) * list float)).

Record DataFrame : Type := mkDataFrame {
  df_index : list date;
  df_columns : Colunas
}.

(** A label as the iteration over [df.columns] yields it: a string, or
    a tuple. *)
Inductive Rotulo : Type :=
| RPlano (nome : string)
| RDuplo (nome ticker : string).

Definition rotulos (cols : Colunas) : list Rotulo :=
  match cols with
  | Planas cs => map (fun kv => RPlano (fst kv)) cs
  | DoisNiveis cs => map (fun kv => RDuplo (fst (fst kv)) (snd (fst kv))) cs
  end.

(** The values of the columns that the key [c] selects: those labelled
    [c], or, on two levels, those whose first level is [c]. *)
Definition valores_de (c : string) (cols : Colunas) : list (list float) :=
  match cols with
  | Planas cs => map snd (filter (fun kv => String.eqb c (fst kv)) cs)
  | DoisNiveis cs => map snd (filter (fun kv => String.eqb c (fst (fst kv))) cs)
  end.

(** What [df[c]] is: a Series when [c] labels one column of a
    single-level frame; otherwise the sub-frame of the selected columns,
    the first of them and the others. *)
Inductive Selecao : Type :=
| UmaSerie (v : list float)
| UmQuadro (v : list float) (outras : list (list float)).

(** [df[c]], for a key with [c in df.columns]; [None] when the frame
    has no such key. *)
Definition getitem (df : DataFrame) (c : string) : option Selecao :=
  match valores_de c (df_columns df) with
  | [] => None
  | v :: outras =>
      match df_columns df, outras with
      | Planas _, [] => Some (UmaSerie v)
      | _, _ => Some (UmQuadro v outras)
      end
  end.

(** [x.iloc[:, 0] if isinstance(x, pd.DataFrame) else x] *)
Definition primeira_coluna (x : Selecao) : list float :=
  match x with
  | UmaSerie v => v
  | UmQuadro v _ => v
  end.

Definition n_colunas (cols : Colunas) : nat :=
  match cols with
  | Planas cs => List.length cs
  | DoisNiveis cs => List.length cs
  end.

(** [df.empty]: some axis has length zero. *)
Definition empty (df : DataFrame) : bool :=
  (List.length (df_index df) =? 0)%nat || (n_colunas (df_columns df) =? 0)%nat.

(** [pd.DataFrame()] *)
Definition empty_frame : DataFrame := mkDataFrame [] (Planas []).

Fixpoint lookup (d : date) (s : Series) : option float :=
  match s with
  | [] => None
  | (d', v) :: r => if (d =? d')%Z then Some v else lookup d r
  end.

(** *** Aligning two Series in one frame *)

Fixpoint list_eqb (l1 l2 : list date) : bool :=
  match l1, l2 with
  | [], [] => true
  | a :: r1, b :: r2 => (a =? b)%Z && list_eqb r1 r2
  | _, _ => false
  end.

(** Insertion of a label in an ascending list without repetition. *)
Fixpoint insere (d : date) (l : list date) : list date :=
  match l with
  | [] => [d]
  | x :: r =>
      if (d <? x)%Z then d :: l
      else if (d =? x)%Z then l
      else x :: insere d r
  end.

(** [Index.union]: the sorted union of the labels, except that equal
    indexes, or an empty one, give the other index as it is. *)
Definition union_indexes (i1 i2 : list date) : list date :=
  if list_eqb i1 i2 then i1
  else match i1, i2 with
       | _, [] => i1
       | [], _ => i2
       | _, _ => fold_right insere [] (i1 ++ i2)
       end.

(** A row of the two-column frame [{'ativo1': ..., 'ativo2': ...}]. *)
Record Linha : Type := mkLinha {
  l_data : date;
  l_ativo1 : float;
  l_ativo2 : float
}.

Definition valor_em (s : Series) (d : date) : float :=
  match lookup d s with Some v => v | None => nan end.

(** [pd.DataFrame({'ativo1': s1, 'ativo2': s2})]: the rows over the union
    of the two indexes, NaN where a Series has no value at the label
    (the labels of each Series are taken to be unique). *)
Definition frame_de_dois (s1 s2 : Series) : list Linha :=
  map (fun d => mkLinha d (valor_em s1 d) (valor_em s2 d))
      (union_indexes (map fst s1) (map fst s2)).

(** [.dropna()] on that frame. *)
Definition dropna (f : list Linha) : list Linha :=
  filter (fun l => negb (is_nan (l_ativo1 l) || is_nan (l_ativo2 l))) f.

(** *** Reindexing, filling and column updates *)

Fixpoint membro (d : date) (l : list date) : bool :=
  match l with
  | [] => false
  | x :: r => (d =? x)%Z || membro d r
  end.

(** [index.is_unique] *)
Fixpoint is_unique (l : list date) : bool :=
  match l with
  | [] => true
  | x :: r => negb (membro x r) && is_unique r
  end.

(** [s.reindex(alvo)]: the values of [s] at the labels of [alvo], NaN
    where [s] has none; an index equal to the target is kept as it is,
    otherwise duplicate labels in [s] raise. *)
Definition reindex (s : Series) (alvo : list date) : result (list float) :=
  if list_eqb (map fst s) alvo then Return (map snd s)
  else if is_unique (map fst s) then Return (map (valor_em s) alvo)
  else Raise (ValueError "cannot reindex on an axis with duplicate labels").

(** [.ffill()]: a NaN takes the last value before it that is not NaN. *)
Fixpoint ffill_desde (ultimo : float) (xs : list float) : list float :=
  match xs with
  | [] => []
  | x :: r =>
      if is_nan x then ultimo :: ffill_desde ultimo r
      else x :: ffill_desde x r
  end.

Definition ffill (xs : list float) : list float := ffill_desde nan xs.

(** [.bfill()]: a NaN takes the first value after it that is not NaN. *)
Fixpoint bfill (xs : list float) : list float :=
  match xs with
  | [] => []
  | x :: r =>
      let r' := bfill r in
      if is_nan x then hd nan r' :: r' else x :: r'
  end.

(** Element-wise product of two columns on the same index. *)
Fixpoint mul_colunas (xs ys : list float) : list float :=
  match xs, ys with
  | x :: xs', y :: ys' => (x * y)%float :: mul_colunas xs' ys'
  | _, _ => []
  end.

(** [df[c] = v] for a one-dimensional [v] and a key [c] that the frame
    has: every column that [c] selects takes [v]. *)
Definition setitem (df : DataFrame) (c : string) (v : list float) : DataFrame :=
  mkDataFrame (df_index df)
    match df_columns df with
    | Planas cs =>
        Planas (map (fun kv => if String.eqb c (fst kv) then (fst kv, v) else kv) cs)
    | DoisNiveis cs =>
        DoisNiveis
          (map (fun kv => if String.eqb c (fst (fst kv)) then (fst kv, v) else kv) cs)
    end.

(** [df[c] = df[c] * k] for a string [c] that labels columns of a
    single-level frame: each of them is multiplied by [k]. *)
Definition multiplica_coluna (df : DataFrame) (c : string) (k : float) : DataFrame :=
  mkDataFrame (df_index df)
    match df_columns df with
    | Planas cs =>
        Planas (map (fun kv =>
                       if String.eqb c (fst kv)
                       then (fst kv, map (fun x => (x * k)%float) (snd kv))
                       else kv) cs)
    | DoisNiveis cs => DoisNiveis cs
    end.

End Pandas.

(** ** comparacao_ativos.py *)
Module ComparacaoAtivos.
Import Py Pandas PyNotations.
Local Open Scope float_scope.

(** The close column as both functions below take it: [dados['Close']],
    its first column when that is a frame (multi-level columns); [None]
    when the frame has no ['Close']. *)
Definition serie_close (dados : DataFrame) : option Series :=
  match getitem dados "Close" with
  | Some coluna_close =>
      Some (combine (df_index dados) (primeira_coluna coluna_close))
  | None => None
  end.

(** *** [calcular_variacao_percentual] *)

(** [((coluna_close - preco_inicial) / preco_inicial) * 100]: Series
    arithmetic with a scalar, element by element in binary64 (a zero
    divisor gives an infinity or a NaN, it does not raise). *)
Definition calcular_variacao_percentual (dados : DataFrame) : result Series :=
  match serie_close dados with
  | Some coluna_close =>
      match iloc coluna_close 0 with
      | None => Raise IndexError
      | Some (_, preco_inicial) =>
          let variacao :=
            map (fun '(d, c) => (d, ((c - preco_inicial) / preco_inicial) * 100))
                coluna_close in
          Return variacao
      end
  | None => Raise (ValueError "DataFrame não contém coluna 'Close'")
  end.

(** *** [calcular_retorno_janela] *)

(** The body of [for i in range(len(coluna_close) - dias_janela)]: the
    prices are Python floats there, so dividing by a zero
    [preco_inicial] raises [ZeroDivisionError]. *)
Fixpoint laco_retornos (coluna_close : Series) (dias_janela : Z)
         (indices : list Z) (retornos : Series) : result Series :=
  match indices with
  | [] => Return retornos
  | i :: resto =>
      match iloc coluna_close i with
      | None => Raise IndexError
      | Some (_, preco_inicial) =>
          match iloc coluna_close (i + dias_janela) with
          | None => Raise IndexError
          | Some (data, preco_final) =>
              if is_zero preco_inicial then Raise ZeroDivisionError
              else
                let retorno := ((preco_final - preco_inicial) / preco_inicial) * 100 in
                laco_retornos coluna_close dias_janela resto
                              (retornos ++ [(data, retorno)])
          end
      end
  end.

Definition calcular_retorno_janela (dados : DataFrame) (janela_meses : Z)
  : result Series :=
  match serie_close dados with
  | Some coluna_close =>
      let dias_janela := (janela_meses * 21)%Z in
      laco_retornos coluna_close dias_janela
        (range (Z.of_nat (List.length coluna_close) - dias_janela)) []
  | None => Raise (ValueError "DataFrame não contém coluna 'Close'")
  end.

(** *** [encontrar_janelas_superacao] *)

(** An emitted window: [(data_inicio, data_fim, ret1, ret2)]. *)
Record Janela : Type := mkJanela {
  j_inicio : date;
  j_fim : date;
  j_ret1 : float;
  j_ret2 : float
}.

(** The loop's variables. *)
Record EstadoJanelas : Type := mkEstadoJanelas {
  em_superacao : bool;
  inicio_idx : option Z;
  janelas : list Janela
}.

Definition linha_em (f : list Linha) (i : Z) : result Linha :=
  match iloc f i with
  | Some l => Return l
  | None => Raise IndexError
  end.

(** [ativo2 > ativo1] at every row, with the row's date. *)
Definition superacao_de (f : list Linha) : list (date * bool) :=
  map (fun l => (l_data l, (l_ativo1 l <? l_ativo2 l))) f.

(** One iteration of [for i, (data, valor) in enumerate(superacao.items())]. *)
Definition passo_janelas (retornos_alinhados : list Linha) (st : EstadoJanelas)
           (i : Z) (data : date) (valor : bool) : result EstadoJanelas :=
  if valor && negb (em_superacao st) then
    Return (mkEstadoJanelas true (Some i) (janelas st))
  else if negb valor && em_superacao st then
    match inicio_idx st with
    | Some ini =>
        l_ini <- linha_em retornos_alinhados ini ;;
        l_ant <- linha_em retornos_alinhados (i - 1) ;;
        let data_inicio := l_data l_ini in
        let data_fim := data in
        let ret1 := l_ativo1 l_ant in
        let ret2 := l_ativo2 l_ant in
        Return (mkEstadoJanelas false None
                  (janelas st ++ [mkJanela data_inicio data_fim ret1 ret2]))
    | None => Return (mkEstadoJanelas false None (janelas st))
    end
  else Return st.

Fixpoint laco_janelas (retornos_alinhados : list Linha)
         (itens : list (Z * (date * bool))) (st : EstadoJanelas)
  : result EstadoJanelas :=
  match itens with
  | [] => Return st
  | (i, (data, valor)) :: resto =>
      st' <- passo_janelas retornos_alinhados st i data valor ;;
      laco_janelas retornos_alinhados resto st'
  end.

(** The detector on the aligned frame (after [dropna]). *)
Definition janelas_do_alinhado (retornos_alinhados : list Linha) (janela_meses : Z)
  : result (list Janela) :=
  match retornos_alinhados with
  | [] => Return []
  | _ =>
      let superacao := superacao_de retornos_alinhados in
      let dias_janela := (janela_meses * 21)%Z in
      st <- laco_janelas retornos_alinhados (enumerate superacao)
              (mkEstadoJanelas false None []) ;;
      match em_superacao st, inicio_idx st with
      | true, Some ini =>
          l_ini <- linha_em retornos_alinhados ini ;;
          l_fim <- linha_em retornos_alinhados (-1) ;;
          Return (janelas st ++
                  [mkJanela (l_data l_ini) (l_data l_fim)
                            (l_ativo1 l_fim) (l_ativo2 l_fim)])
      | _, _ => Return (janelas st)
      end
  end.

Definition encontrar_janelas_superacao (retornos1 retornos2 : Series)
           (janela_meses : Z) : result (list Janela) :=
  janelas_do_alinhado (dropna (frame_de_dois retornos1 retornos2)) janela_meses.

(** *** [encontrar_periodos_superacao] *)

(** An emitted period: [(inicio, fim, dias)]. *)
Record Periodo : Type := mkPeriodo {
  p_inicio : date;
  p_fim : date;
  p_dias : Z
}.

Record EstadoPeriodos : Type := mkEstadoPeriodos {
  inicio : option date;
  periodos : list Periodo
}.

Definition passo_periodos (df_comparacao : list Linha) (st : EstadoPeriodos)
           (i : Z) (data : date) (valor : bool) : result EstadoPeriodos :=
  match valor, inicio st with
  | true, None => Return (mkEstadoPeriodos (Some data) (periodos st))
  | false, Some ini =>
      l_fim <- linha_em df_comparacao (i - 1) ;;
      let fim := l_data l_fim in
      let dias := (fim - ini + 1)%Z in
      Return (mkEstadoPeriodos None (periodos st ++ [mkPeriodo ini fim dias]))
  | _, _ => Return st
  end.

Fixpoint laco_periodos (df_comparacao : list Linha)
         (itens : list (Z * (date * bool))) (st : EstadoPeriodos)
  : result EstadoPeriodos :=
  match itens with
  | [] => Return st
  | (i, (data, valor)) :: resto =>
      st' <- passo_periodos df_comparacao st i data valor ;;
      laco_periodos df_comparacao resto st'
  end.

Definition periodos_do_alinhado (df_comparacao : list Linha)
  : result (list Periodo) :=
  let ativo2_melhor := superacao_de df_comparacao in
  st <- laco_periodos df_comparacao (enumerate ativo2_melhor)
          (mkEstadoPeriodos None []) ;;
  match inicio st with
  | Some ini =>
      l_fim <- linha_em df_comparacao (-1) ;;
      let fim := l_data l_fim in
      Return (periodos st ++ [mkPeriodo ini fim (fim - ini + 1)%Z])
  | None => Return (periodos st)
  end.

Definition encontrar_periodos_superacao (var_ativo1 var_ativo2 : Series)
  : result (list Periodo) :=
  periodos_do_alinhado (dropna (frame_de_dois var_ativo1 var_ativo2)).

(** [total_dias = sum(p[2] for p in periodos)], in [plotar_comparacao] *)
Definition total_dias (periodos : list Periodo) : Z :=
  fold_left (fun soma p => (soma + p_dias p)%Z) periodos 0%Z.

(** *** [obter_dados_ativo] *)

(** What one call of [yf.download] does: it returns a frame (possibly an
    empty one) or raises. *)
Inductive resposta : Type :=
| RespDados (dados : DataFrame)
| RespErro (e : exn).

(** The effects of the fetch that can be observed from outside. *)
Inductive evento : Type :=
| EvDownload (ticker : string)
| EvSleep (segundos : Z).

(** The world threaded through the fetch: how many downloads were made
    (the feed answers its [n]-th call with [yf n]) and the effects so far. *)
Record Mundo : Type := mkMundo {
  chamadas : nat;
  rastro : list evento
}.

Definition apos_download (ticker : string) (w : Mundo) : Mundo :=
  mkMundo (S (chamadas w)) (rastro w ++ [EvDownload ticker]).

Definition apos_sleep (segundos : Z) (w : Mundo) : Mundo :=
  mkMundo (chamadas w) (rastro w ++ [EvSleep segundos]).

(** How the [for tentativa in range(tentativas)] loop is left. *)
Inductive saida_laco : Type :=
| Retornou (dados : DataFrame)
| Esgotou (ultimo_erro : option string).

Fixpoint laco_tentativas (yf : nat -> resposta) (ticker : string)
         (tentativas : Z) (indices : list Z) (ultimo_erro : option string)
         (w : Mundo) : saida_laco * Mundo :=
  match indices with
  | [] => (Esgotou ultimo_erro, w)
  | tentativa :: resto =>
      let w1 := apos_download ticker w in
      match yf (chamadas w) with
      | RespDados dados =>
          if negb (empty dados) then (Retornou dados, w1)
          else laco_tentativas yf ticker tentativas resto ultimo_erro w1
      | RespErro e =>
          let ultimo_erro := Some (str_exn e) in
          if (tentativa <? tentativas - 1)%Z then
            laco_tentativas yf ticker tentativas resto ultimo_erro
                            (apos_sleep 2 w1)
          else (Esgotou ultimo_erro, w1)
      end
  end.

Definition nl : string := String (ascii_of_nat 10) EmptyString.

Definition msg_sem_dados (ticker : string) : string :=
  "Ticker '" ++ ticker ++ "' não encontrado ou sem dados disponíveis".

Definition msg_nao_encontrado (ticker : string) : string :=
  "❌ Ticker '" ++ ticker ++ "' não encontrado no Yahoo Finance." ++ nl ++
  "   Possíveis causas:" ++ nl ++
  "   • O ticker foi removido ou renomeado" ++ nl ++
  "   • Use '^BVSP' (com acento circunflexo) para Ibovespa" ++ nl ++
  "   • Para ações BR, adicione .SA (ex: PETR4.SA)" ++ nl ++
  "   • Tente novamente em alguns minutos (pode ser instabilidade temporária)".

Definition msg_conexao (ticker : string) : string :=
  "❌ Erro de conexão ao buscar '" ++ ticker ++ "'." ++ nl ++
  "   • Verifique sua conexão com a internet" ++ nl ++
  "   • O Yahoo Finance pode estar temporariamente indisponível" ++ nl ++
  "   • Tente novamente em alguns minutos".

(** The outer handler: the message of the [ValueError] it raises, chosen
    by substrings of [erro_msg = str(e)]. *)
Definition mensagem_final (ticker erro_msg : string) : string :=
  if contains "404" erro_msg || contains "Not Found" erro_msg
     || contains "delisted" erro_msg
  then msg_nao_encontrado ticker
  else if contains "ConnectionError" erro_msg
          || contains "Failed to connect" erro_msg
          || contains "timeout" (lower erro_msg)
  then msg_conexao ticker
  else "❌ Erro ao obter dados para '" ++ ticker ++ "': " ++ erro_msg.

(** [renda_fixa] is [obter_ativo_renda_fixa] when the fixed-income module
    could be imported ([RENDA_FIXA_DISPONIVEL]), [None] otherwise. *)
Definition obter_dados_ativo
           (renda_fixa : option (string -> date -> date -> result DataFrame))
           (yf : nat -> resposta)
           (ticker : string) (data_inicio data_fim : date) (w : Mundo)
  : result DataFrame * Mundo :=
  if startswith "RF-" ticker then
    match renda_fixa with
    | None =>
        (Raise (ValueError
           ("Módulo de renda fixa não está disponível. " ++
            "Certifique-se de que o arquivo renda_fixa_br.py está no mesmo diretório.")),
         w)
    | Some obter_ativo_renda_fixa =>
        (obter_ativo_renda_fixa ticker data_inicio data_fim, w)
    end
  else
    let tentativas := 3%Z in
    match laco_tentativas yf ticker tentativas (range tentativas) None w with
    | (Retornou dados, w') => (Return dados, w')
    | (Esgotou _, w') =>
        (* raise ValueError(...), caught by the outer handler *)
        let erro_msg := str_exn (ValueError (msg_sem_dados ticker)) in
        (Raise (ValueError (mensagem_final ticker erro_msg)), w')
    end.

(** *** [converter_usd_para_brl] *)

(** The exchange-rate source: what the download of the requested period
    does, and what the download of the most recent day does. *)
Record FonteCambio : Type := mkFonteCambio {
  cambio_periodo : resposta;
  cambio_recente : resposta
}.

Definition download (r : resposta) : result DataFrame :=
  match r with
  | RespDados dados => Return dados
  | RespErro e => Raise e
  end.

(** [df[c]] as a statement: a missing key raises [KeyError]. *)
Definition coluna (df : DataFrame) (c : string) : result Selecao :=
  match getitem df c with
  | Some x => Return x
  | None => Raise (KeyError c)
  end.

(** [float(x.iloc[-1])]: the last value of a Series; of a sub-frame, its
    last row, which converts to a float only when it has one element. *)
Definition ultimo_float (x : Selecao) : result float :=
  match x with
  | UmaSerie v =>
      match iloc v (-1) with
      | Some taxa => Return taxa
      | None => Raise IndexError
      end
  | UmQuadro v outras =>
      match iloc v (-1), outras with
      | Some taxa, [] => Return taxa
      | Some _, _ :: _ => Raise (TypeError "cannot convert the series to float")
      | None, _ => Raise IndexError
      end
  end.

Definition colunas_preco : list string :=
  ["Open"; "High"; "Low"; "Close"; "Adj Close"]%string.

Definition e_preco (c : string) : bool :=
  existsb (String.eqb c) colunas_preco.

(** The fallback branch, [for col in dados_brl.columns]: a label that is
    one of the five price names has its column multiplied by the fixed
    rate; a tuple label is none of these strings. *)
Definition escala_fixa (taxa_fixa : float) (dados_usd : DataFrame) : DataFrame :=
  fold_left
    (fun dados_brl col =>
       match col with
       | RPlano nome =>
           if e_preco nome then multiplica_coluna dados_brl nome taxa_fixa
           else dados_brl
       | RDuplo _ _ => dados_brl
       end)
    (rotulos (df_columns dados_usd)) dados_usd.

(** The main branch, [for col in colunas_preco]: a price name the frame
    has takes its column (the first one of a sub-frame) times the rate
    aligned to the frame's dates. *)
Definition escala_alinhada (taxa_cambio_alinhada : list float) (dados_usd : DataFrame)
  : DataFrame :=
  fold_left
    (fun dados_brl col =>
       match getitem dados_brl col with
       | Some x =>
           setitem dados_brl col
                   (mul_colunas (primeira_coluna x) taxa_cambio_alinhada)
       | None => dados_brl
       end)
    colunas_preco dados_usd.

(** The body of the [try] block. *)
Definition corpo_converter (fonte : FonteCambio) (dados_usd : DataFrame)
  : result DataFrame :=
  cambio <- download (cambio_periodo fonte) ;;
  if empty cambio then
    cambio_atual <- download (cambio_recente fonte) ;;
    if negb (empty cambio_atual) then
      fechamento <- coluna cambio_atual "Close" ;;
      taxa_fixa <- ultimo_float fechamento ;;
      Return (escala_fixa taxa_fixa dados_usd)
    else Raise (ValueError "Não foi possível obter taxas de câmbio")
  else
    fechamento <- coluna cambio "Close" ;;
    let taxa_cambio := combine (df_index cambio) (primeira_coluna fechamento) in
    reindexada <- reindex taxa_cambio (df_index dados_usd) ;;
    let taxa_cambio_alinhada := bfill (ffill reindexada) in
    Return (escala_alinhada taxa_cambio_alinhada dados_usd).

(** [try: ... except Exception: return dados_usd] *)
Definition converter_usd_para_brl (fonte : FonteCambio) (dados_usd : DataFrame)
           (data_inicio data_fim : date) : result DataFrame :=
  try_except (corpo_converter fonte dados_usd) (fun _ => Return dados_usd).

(** *** [plotar_comparacao], up to the drawing *)




End ComparacaoAtivos.

(** ** renda_fixa_br.py *)
Module RendaFixaBR.
Import Py Pandas PyNotations.
Local Open Scope float_scope.

(** *** [_buscar_serie_bcb] *)

(** One record [{"data": ..., "valor": ...}] of the BCB answer, with its
    well-formed date parsed ([pd.to_datetime]) and the value parsed by
    [pd.to_numeric(errors='coerce')]: NaN for a value that is no number.
    The answers modelled are those whose records carry these two fields
    and no other, the date in the form [%d/%m/%Y].  A list with a record
    of another shape is no value of [corpo]: the processing would take
    its [else] branch (a field missing in all records) or its [except]
    branch (a date that does not parse), both giving the empty frame, or
    [dropna] would drop more rows (a field that is null in some record). *)
Definition registro : Type := (date * float)%type.

(** The body of an HTTP answer, as [response.json()] reads it. *)
Inductive corpo : Type :=
| JsonLista (dados : list registro)
| JsonErro
| JsonOutro
| NaoJson.

(** What one [requests.get] followed by [raise_for_status] does. *)
Inductive http : Type :=
| HttpOk (c : corpo)
| HttpRequestException
| HttpOutraExcecao.

(** The rate source: series code, first day, last day, certificate
    verification on or off. *)
Definition FonteBCB : Type := Z -> date -> date -> bool -> http.

(** The records one slice adds to [todos_dados]: those of a non-empty
    JSON list; an error answer, a body that is no JSON, or an exception
    add nothing. *)
Definition registros_do_corpo (c : corpo) : list registro :=
  match c with
  | JsonLista dados => dados
  | JsonErro | JsonOutro | NaoJson => []
  end.

Definition buscar_fatia (fonte : FonteBCB) (serie_codigo : Z)
           (data_atual fim_fatia : date) : list registro :=
  match fonte serie_codigo data_atual fim_fatia true with
  | HttpOk c => registros_do_corpo c
  | HttpRequestException =>
      (* second try, without certificate verification *)
      match fonte serie_codigo data_atual fim_fatia false with
      | HttpOk c => registros_do_corpo c
      | HttpRequestException | HttpOutraExcecao => []
      end
  | HttpOutraExcecao => []
  end.

Definition janela_anos : Z := 5%Z.

(** [while data_atual < data_fim: ...] *)
Equations? laco_fatias (fonte : FonteBCB) (serie_codigo : Z)
           (data_atual data_fim : date) (todos_dados : list registro)
  : list registro by wf (Z.to_nat (data_fim - data_atual)) lt :=
laco_fatias fonte serie_codigo data_atual data_fim todos_dados
  with Z_lt_dec data_atual data_fim := {
  | left _ =>
      let fim_fatia := Z.min (data_atual + 365 * janela_anos)%Z data_fim in
      laco_fatias fonte serie_codigo (fim_fatia + 1)%Z data_fim
                  (todos_dados ++ buscar_fatia fonte serie_codigo data_atual fim_fatia)
  | right _ => todos_dados
}.
Proof. unfold janela_anos. lia. Qed.

(** [df.sort_index()], taken to keep the order of equal dates. *)
Fixpoint insere_registro (r : registro) (l : list registro) : list registro :=
  match l with
  | [] => [r]
  | x :: t =>
      if (fst r <=? fst x)%Z then r :: l else x :: insere_registro r t
  end.

Definition sort_index (l : list registro) : list registro :=
  fold_right insere_registro [] l.

(** [df[~df.index.duplicated(keep='first')]] *)
Fixpoint sem_duplicadas (vistas : list date) (l : list registro) : list registro :=
  match l with
  | [] => []
  | (d, v) :: t =>
      if membro d vistas then sem_duplicadas vistas t
      else (d, v) :: sem_duplicadas (d :: vistas) t
  end.

(** The processing of the accumulated records, on its main path (both
    columns present, no exception): rows without a value dropped, sorted
    by date, first occurrence of each date kept.  With records of the
    shape [registro], the only missing entry [dropna] can meet is a
    [valor] that [pd.to_numeric] turned into NaN.  The empty list stands
    for the empty frame. *)
Definition consolidar (todos_dados : list registro) : Series :=
  match todos_dados with
  | [] => []
  | _ =>
      let df := filter (fun r => negb (is_nan (snd r))) todos_dados in
      let df := sort_index df in
      sem_duplicadas [] df
  end.

Definition buscar_serie_bcb (fonte : FonteBCB) (serie_codigo : Z)
           (data_inicio data_fim : date) : Series :=
  consolidar (laco_fatias fonte serie_codigo data_inicio data_fim []).

(** *** [obter_poupanca] *)

Definition serie_SELIC : Z := 432%Z.
Definition serie_TR : Z := 226%Z.

(** A row of the merged table: date, [selic], [tr]. *)
Record LinhaPoupanca : Type := mkLinhaPoupanca {
  lp_data : date;
  lp_selic : float;
  lp_tr : float
}.

Definition fillna0 (x : float) : float := if is_nan x then 0 else x.

(** The left merge of [selic] with [tr] on the date, NaN filled with 0,
    restricted to the requested days. *)
Definition tabela_poupanca (selic tr : Series) (data_inicio data_fim : date)
  : list LinhaPoupanca :=
  let tr := match tr with
            | [] => map (fun '(d, _) => (d, 0)) selic
            | _ => tr
            end in
  let df := map (fun '(d, s) => mkLinhaPoupanca d s (valor_em tr d)) selic in
  let df := map (fun l => mkLinhaPoupanca (lp_data l) (fillna0 (lp_selic l))
                                          (fillna0 (lp_tr l))) df in
  filter (fun l => (data_inicio <=? lp_data l)%Z && (lp_data l <=? data_fim)%Z) df.

(** numpy's running product: [out[0] = y[0]], [out[i] = out[i-1] * y[i]]. *)
Fixpoint acumula (acc : float) (ys : list float) : list float :=
  match ys with
  | [] => []
  | y :: r => (acc * y) :: acumula (acc * y) r
  end.

Fixpoint mascara (xs ps : list float) : list float :=
  match xs, ps with
  | x :: xs', p :: ps' => (if is_nan x then nan else p) :: mascara xs' ps'
  | _, _ => []
  end.

(** [Series.cumprod()]: a NaN counts as 1 in the product and stays NaN
    in the result. *)
Definition cumprod (xs : list float) : list float :=
  let ys := map (fun x => if is_nan x then 1 else x) xs in
  let produtos := match ys with
                  | [] => []
                  | y :: r => y :: acumula y r
                  end in
  mascara xs produtos.

Fixpoint soma_colunas (xs ys : list float) : list float :=
  match xs, ys with
  | x :: xs', y :: ys' => (x + y) :: soma_colunas xs' ys'
  | _, _ => []
  end.

Definition valor_inicial : float := 100000.

(** The valuation column computed from the merged table. *)
Definition valor_investimento (df : list LinhaPoupanca) : list float :=
  let rendimento_mensal :=
    map (fun x => if 8.5 <? x then 0.5 else x * 0.7 / 12) (map lp_selic df) in
  let rendimento_total :=
    soma_colunas rendimento_mensal (map (fun t => t / 12) (map lp_tr df)) in
  let taxa_diaria := map (fun x => x / 30) rendimento_total in
  let fator_acumulado := cumprod (map (fun x => 1 + x / 100) taxa_diaria) in
  map (fun f => valor_inicial * f) fator_acumulado.

Definition corpo_poupanca (fonte : FonteBCB) (data_inicio data_fim : date)
  : result DataFrame :=
  let selic := buscar_serie_bcb fonte serie_SELIC data_inicio data_fim in
  match selic with
  | [] => Raise (ValueError "Não foi possível obter dados da SELIC")
  | _ =>
      let tr := buscar_serie_bcb fonte serie_TR data_inicio data_fim in
      let df := tabela_poupanca selic tr data_inicio data_fim in
      match df with
      | [] => Raise (ValueError "Nenhum dado disponível para o período solicitado")
      | _ =>
          let v := valor_investimento df in
          Return (mkDataFrame (map lp_data df)
                    (Planas
                       [("Open"%string, v); ("High"%string, v); ("Low"%string, v);
                        ("Close"%string, v);
                        ("Volume"%string, map (fun _ => 0) df);
                        ("Adj Close"%string, v)]))
      end
  end.

Definition obter_poupanca (fonte : FonteBCB) (data_inicio data_fim : date)
  : result DataFrame :=
  try_except (corpo_poupanca fonte data_inicio data_fim)
    (fun e => Raise (ValueError
       ("Não foi possível calcular rendimento da poupança: " ++ str_exn e))).

(** *** The cache: [_salvar_cache], [_carregar_cache], [_cache_valido] *)

(** An instant of the wall clock, as [datetime.now()] reads it, in
    microseconds; [isoformat] and [fromisoformat] keep it as it is. *)
Definition instante : Type := Z.

Definition microssegundos_por_dia : Z := 86400000000%Z.

(** [(a - b).days]: the whole days of the difference, rounded down. *)
Definition dias_de (a b : instante) : Z := ((a - b) / microssegundos_por_dia)%Z.

(** A Python [dict] with string keys, and the files of a directory by
    name: an assignment replaces the value of a key that is there and
    adds a key that is not. *)
Fixpoint dict_get {V} (k : string) (d : list (string * V)) : option V :=
  match d with
  | [] => None
  | (k', v) :: r => if String.eqb k k' then Some v else dict_get k r
  end.

Fixpoint dict_set {V} (k : string) (v : V) (d : list (string * V))
  : list (string * V) :=
  match d with
  | [] => [(k, v)]
  | (k', v') :: r =>
      if String.eqb k k' then (k, v) :: r else (k', v') :: dict_set k v r
  end.

(** The cache directory: the files [<nome>.csv], each holding the rate
    series that [to_csv] wrote, and [ultima_atualizacao.json], absent or
    a dictionary from names to instants.  These are the contents that
    [_salvar_cache] leaves, for any names and series; a file that
    [json.load], [datetime.fromisoformat] or [pd.read_csv] would refuse,
    or a [.csv] with other columns, is no value of [Disco], and the
    exceptions such a file would raise are not modelled. *)
Record Disco : Type := mkDisco {
  arquivos_csv : list (string * Series);
  ultima_atualizacao_file : option (list (string * instante))
}.

Section Cache.

(** What [pd.read_csv(..., index_col=0, parse_dates=True)] reads back
    from the text that [to_csv] wrote for a series. *)
Variable ler_csv : Series -> Series.

(** [x ** y] on binary64 numbers, as numpy computes it. *)
Variable potencia : float -> float -> float.

(** [agora] is what [datetime.now()] returns in this call. *)
Definition salvar_cache (agora : instante) (nome : string) (df : Series)
           (disco : Disco) : Disco :=
  let timestamps := match ultima_atualizacao_file disco with
                    | Some lidos => lidos
                    | None => []
                    end in
  mkDisco (dict_set nome df (arquivos_csv disco))
          (Some (dict_set nome agora timestamps)).

Definition carregar_cache (nome : string) (disco : Disco) : option Series :=
  match dict_get nome (arquivos_csv disco) with
  | Some escrito => Some (ler_csv escrito)
  | None => None
  end.

Definition cache_valido (agora : instante) (nome : string) (max_dias : Z)
           (disco : Disco) : bool :=
  match ultima_atualizacao_file disco with
  | None => false
  | Some timestamps =>
      match dict_get nome timestamps with
      | None => false
      | Some ultima_atualizacao =>
          let idade := dias_de agora ultima_atualizacao in
          (idade <? max_dias)%Z
      end
  end.

(** *** [obter_cdi] *)

Definition serie_CDI : Z := 12%Z.

(** [dados_cache[mask]] for
    [mask = (index >= data_inicio) & (index <= data_fim)] *)
Definition filtrar_periodo (dados_cache : Series) (data_inicio data_fim : date)
  : Series :=
  filter (fun r => (data_inicio <=? fst r)%Z && (fst r <=? data_fim)%Z) dados_cache.

(** The valuation column: the yearly rate turned into a daily one over
    252 business days, compounded from 100000. *)
Definition valor_investimento_cdi (df_filtrado : Series) : list float :=
  let taxa_diaria :=
    map (fun x => potencia (1 + x / 100) (1 / 252) - 1) (map snd df_filtrado) in
  let fator_acumulado := cumprod (map (fun t => 1 + t) taxa_diaria) in
  map (fun f => valor_inicial * f) fator_acumulado.

(** The part of the function after the cache has been consulted. *)
Definition quadro_cdi (dados_cache : Series) (data_inicio data_fim : date)
  : result DataFrame :=
  match dados_cache with
  | [] => Raise (ValueError "Não foi possível obter dados do CDI")
  | _ =>
      let df_filtrado := filtrar_periodo dados_cache data_inicio data_fim in
      let v := valor_investimento_cdi df_filtrado in
      let df_yf :=
        mkDataFrame (map fst df_filtrado)
          (Planas
             [("Open"%string, v); ("High"%string, v); ("Low"%string, v);
              ("Close"%string, v);
              ("Volume"%string, map (fun _ => 0) df_filtrado);
              ("Adj Close"%string, v)]) in
      (* the statistics read [fator_acumulado.iloc[-1]] *)
      match df_filtrado with
      | [] => Raise IndexError
      | _ => Return df_yf
      end
  end.

(** [agora_validacao] is the clock as [_cache_valido] reads it,
    [agora_gravacao] as [_salvar_cache] reads it, when it is called.
    [data_inicio] and [data_fim] are datetimes at midnight.  The test
    [index[-1].date() < data_fim.date()] compares days for any
    [datetime]; the loop of [_buscar_serie_bcb] and the mask compare the
    datetimes themselves, so that with a time of day in [data_fim] the
    fetch from [ultimo + 1] and the filter can differ from what is
    computed here.  When the cache reaches the day of [data_fim] the
    first test is false and no fetch is made, at any time of day. *)
Definition obter_cdi (fonte : FonteBCB) (agora_validacao agora_gravacao : instante)
           (data_inicio data_fim : date) (disco : Disco)
  : result DataFrame * Disco :=
  let valido := cache_valido agora_validacao "cdi" 7 disco in
  let dados_cache := if valido then carregar_cache "cdi" disco else None in
  match dados_cache, valido with
  | Some dados_cache, true =>
      match iloc (map fst dados_cache) (-1) with
      | None => (Raise IndexError, disco)
      | Some ultimo =>
          if (ultimo <? data_fim)%Z then
            let novos_dados :=
              buscar_serie_bcb fonte serie_CDI (ultimo + 1)%Z data_fim in
            match novos_dados with
            | [] => (quadro_cdi dados_cache data_inicio data_fim, disco)
            | _ =>
                let dados_cache := (dados_cache ++ novos_dados)%list in
                (quadro_cdi dados_cache data_inicio data_fim,
                 salvar_cache agora_gravacao "cdi" dados_cache disco)
            end
          else (quadro_cdi dados_cache data_inicio data_fim, disco)
      end
  | _, _ =>
      let dados_cache := buscar_serie_bcb fonte serie_CDI data_inicio data_fim in
      match dados_cache with
      | [] => (quadro_cdi dados_cache data_inicio data_fim, disco)
      | _ =>
          (quadro_cdi dados_cache data_inicio data_fim,
           salvar_cache agora_gravacao "cdi" dados_cache disco)
      end
  end.

End Cache.

End RendaFixaBR.

(* ===================================================================== *)
(** * Part II — properties                                                *)
(* ===================================================================== *)

Module PyFacts.
Import Py.

Lemma iloc_nonneg {A} (l : list A) (i : Z) :
  (0 <= i)%Z -> iloc l i = nth_error l (Z.to_nat i).
Proof.
  intros Hi. unfold iloc.
  destruct (0 <=? i)%Z eqn:E; [reflexivity | apply Z.leb_gt in E; lia].
Qed.

Lemma iloc_of_nat {A} (l : list A) (k : nat) :
  iloc l (Z.of_nat k) = nth_error l k.
Proof. rewrite iloc_nonneg by lia. now rewrite Nat2Z.id. Qed.

Lemma iloc_last {A} (l : list A) (x : A) : iloc (l ++ [x]) (-1) = Some x.
Proof.
  unfold iloc. cbn [Z.leb Z.compare].
  rewrite length_app; cbn [List.length].
  destruct (- Z.of_nat (List.length l + 1) <=? -1)%Z eqn:E;
    [| apply Z.leb_gt in E; lia].
  replace (Z.to_nat (Z.of_nat (List.length l + 1) + -1)) with (List.length l) by lia.
  rewrite nth_error_app2 by lia. now rewrite Nat.sub_diag.
Qed.

Lemma range_length (n : Z) : List.length (range n) = Z.to_nat n.
Proof. unfold range. now rewrite length_map, length_seq. Qed.

End PyFacts.

(** ** Binary64 facts used by the performance engine *)
Module FloatFacts.
Local Open Scope float_scope.

Lemma Prim2SF_zero : Prim2SF 0 = S754_zero false.
Proof. reflexivity. Qed.

Lemma Prim2SF_infinity : Prim2SF infinity = S754_infinity false.
Proof. reflexivity. Qed.

Lemma Prim2SF_100 : Prim2SF 100 = S754_finite false 7036874417766400 (-46).
Proof. vm_compute. reflexivity. Qed.

(** A finite number minus itself is [+0]. *)
Lemma SFsub_diag s m e :
  SFsub prec emax (S754_finite s m e) (S754_finite s m e) = S754_zero false.
Proof.
  unfold SFsub.
  replace (IntDef.Z.min e e) with e
    by (change (IntDef.Z.min e e) with (Z.min e e); now rewrite Z.min_id).
  cbv zeta. unfold shl_align.
  replace (e - e)%Z with 0%Z by lia. cbn [fst].
  now rewrite Z.sub_diag.
Qed.

(** [(x - x) / x * 100] compares equal to zero for every finite,
    non-zero [x] (it is [+0] or [-0] by the sign of [x]). *)
Lemma variacao_da_base (x : float) :
  is_finite x = true -> is_zero x = false ->
  ((((x - x) / x) * 100) =? 0) = true.
Proof.
  unfold is_finite, is_nan, is_infinity, is_zero.
  rewrite !eqb_spec, mul_spec, div_spec, sub_spec, abs_spec.
  rewrite Prim2SF_zero, Prim2SF_infinity, Prim2SF_100.
  destruct (Prim2SF x) as [s | s | | s m e].
  - cbn. discriminate.
  - destruct s; cbn; discriminate.
  - cbn. discriminate.
  - intros _ _. unfold SF64sub, SF64div, SF64mul. rewrite SFsub_diag.
    cbn. reflexivity.
Qed.

End FloatFacts.

(** ** Percentage variation and rolling returns *)
Module RetornosSpec.
Import Py Pandas ComparacaoAtivos PyFacts.
Local Open Scope float_scope.

Definition dados_base_zero : DataFrame :=
  mkDataFrame [0%Z] (Planas [("Close"%string, [0])]).

Definition dados_exemplo : DataFrame :=
  mkDataFrame [1; 2; 3; 4]%Z (Planas [("Close"%string, [100; 110; 90; 80])]).

(** The same prices as yfinance delivers them, on two-level columns. *)
Definition dados_exemplo_2n : DataFrame :=
  mkDataFrame [1; 2; 3; 4]%Z
    (DoisNiveis [(("Close", "PETR4.SA")%string, [100; 110; 90; 80]);
                 (("Volume", "PETR4.SA")%string, [7; 8; 9; 10])]).

Example variacao_exemplo_2n :
  calcular_variacao_percentual dados_exemplo_2n
  = calcular_variacao_percentual dados_exemplo.
Proof. vm_compute. reflexivity. Qed.

Example variacao_exemplo :
  calcular_variacao_percentual dados_exemplo
  = Return [(1%Z, 0); (2%Z, 10); (3%Z, -10); (4%Z, -20)].
Proof. vm_compute. reflexivity. Qed.

(** C7, as stated, fails: with a first close of zero the variation at
    index 0 is [0/0 * 100], a NaN, which is not 0. *)
Lemma variacao_base_zero_nan :
  calcular_variacao_percentual dados_base_zero = Return [(0%Z, nan)]
  /\ (nan =? 0) = false.
Proof. split; vm_compute; reflexivity. Qed.

(** C7 (amended): for a series with at least one point and a close
    column the result is [value[t] = (close[t] - close[0]) / close[0] * 100]
    at every index, on the dates of the series; when the first close is
    finite and non-zero, the value at index 0 is zero. *)
Theorem variacao_percentual_spec (dados : DataFrame) (coluna_close : Series) :
  serie_close dados = Some coluna_close ->
  coluna_close <> [] ->
  exists variacao d0 c0,
    calcular_variacao_percentual dados = Return variacao
    /\ nth_error coluna_close 0 = Some (d0, c0)
    /\ List.length variacao = List.length coluna_close
    /\ (forall t d c, nth_error coluna_close t = Some (d, c) ->
          nth_error variacao t = Some (d, ((c - c0) / c0) * 100))
    /\ (is_finite c0 = true -> is_zero c0 = false ->
          exists v0, nth_error variacao 0 = Some (d0, v0) /\ (v0 =? 0) = true).
Proof.
  intros Hclose Hne. unfold calcular_variacao_percentual. rewrite Hclose.
  destruct coluna_close as [| [d0 c0] resto]; [congruence |].
  rewrite iloc_nonneg by lia. cbn [Z.to_nat nth_error].
  eexists; exists d0, c0. split; [reflexivity |].
  split; [reflexivity |]. split; [now rewrite length_map |]. split.
  - intros t d c Ht.
    erewrite nth_error_map, Ht. reflexivity.
  - intros Hfin Hnz. eexists. cbn [map nth_error]. split; [reflexivity |].
    now apply FloatFacts.variacao_da_base.
Qed.

Lemma variacao_percentual_spec_witness :
  exists variacao d0 c0,
    calcular_variacao_percentual dados_exemplo = Return variacao
    /\ nth_error [(1%Z, 100); (2%Z, 110); (3%Z, 90); (4%Z, 80)] 0 = Some (d0, c0)
    /\ List.length variacao = 4%nat
    /\ (forall t d c,
          nth_error [(1%Z, 100); (2%Z, 110); (3%Z, 90); (4%Z, 80)] t = Some (d, c) ->
          nth_error variacao t = Some (d, ((c - c0) / c0) * 100))
    /\ (is_finite c0 = true -> is_zero c0 = false ->
          exists v0, nth_error variacao 0 = Some (d0, v0) /\ (v0 =? 0) = true).
Proof.
  apply (@variacao_percentual_spec dados_exemplo
           [(1%Z, 100); (2%Z, 110); (3%Z, 90); (4%Z, 80)]).
  - reflexivity.
  - discriminate.
Defined.

(** *** Rolling returns *)

(** The loop over the positions [a, a+1, ..., a+k-1], all of them and
    their window ends in range, none with a zero close. *)
Lemma laco_retornos_ok (coluna_close : Series) (w : nat) :
  forall (k a : nat) (acc : Series),
    ((0 < k)%nat -> (a + k + w <= List.length coluna_close)%nat) ->
    (forall i d c, (a <= i < a + k)%nat ->
       nth_error coluna_close i = Some (d, c) -> is_zero c = false) ->
    exists r,
      laco_retornos coluna_close (Z.of_nat w) (map Z.of_nat (seq a k)) acc
      = Return (acc ++ r)
      /\ List.length r = k
      /\ (forall j, (j < k)%nat ->
            exists di ci d cf,
              nth_error coluna_close (a + j) = Some (di, ci)
              /\ nth_error coluna_close (a + j + w) = Some (d, cf)
              /\ nth_error r j = Some (d, ((cf - ci) / ci) * 100)).
Proof.
  induction k as [| k IH]; intros a acc Hlen Hnz.
  - exists []. cbn. rewrite app_nil_r. repeat split; intros; lia.
  - cbn [seq map laco_retornos].
    specialize (Hlen (Nat.lt_0_succ k)).
    destruct (nth_error coluna_close a) as [[di ci] |] eqn:Ha.
    2:{ apply nth_error_None in Ha. lia. }
    destruct (nth_error coluna_close (a + w)) as [[d cf] |] eqn:Haw.
    2:{ apply nth_error_None in Haw. lia. }
    rewrite iloc_of_nat, Ha.
    replace (Z.of_nat a + Z.of_nat w)%Z with (Z.of_nat (a + w)) by lia.
    rewrite iloc_of_nat, Haw.
    rewrite (Hnz a di ci) by (auto; lia).
    destruct (IH (S a) (acc ++ [(d, ((cf - ci) / ci) * 100)])) as (r & Hr & Hlr & Hent).
    { lia. }
    { intros i d' c' Hi. apply Hnz. lia. }
    exists ((d, ((cf - ci) / ci) * 100) :: r).
    split; [rewrite Hr, <- app_assoc; reflexivity |].
    split; [cbn; lia |].
    intros [| j] Hj.
    + exists di, ci, d, cf. rewrite !Nat.add_0_r. auto.
    + destruct (Hent j) as (di' & ci' & d' & cf' & H1 & H2 & H3); [lia |].
      exists di', ci', d', cf'.
      replace (a + S j)%nat with (S a + j)%nat by lia. auto.
Qed.

(** The loop stops with [ZeroDivisionError] at the first zero close. *)
Lemma laco_retornos_zero (coluna_close : Series) (w : nat) :
  forall (k a : nat) (acc : Series),
    (a + k + w <= List.length coluna_close)%nat ->
    (exists i d c, (a <= i < a + k)%nat
       /\ nth_error coluna_close i = Some (d, c) /\ is_zero c = true) ->
    laco_retornos coluna_close (Z.of_nat w) (map Z.of_nat (seq a k)) acc
    = Raise ZeroDivisionError.
Proof.
  induction k as [| k IH]; intros a acc Hlen (i & d & c & Hi & Hnth & Hz).
  - lia.
  - cbn [seq map laco_retornos].
    destruct (nth_error coluna_close a) as [[di ci] |] eqn:Ha.
    2:{ apply nth_error_None in Ha. lia. }
    destruct (nth_error coluna_close (a + w)) as [[d' cf] |] eqn:Haw.
    2:{ apply nth_error_None in Haw. lia. }
    rewrite iloc_of_nat, Ha.
    replace (Z.of_nat a + Z.of_nat w)%Z with (Z.of_nat (a + w)) by lia.
    rewrite iloc_of_nat, Haw.
    destruct (is_zero ci) eqn:Hci; [reflexivity |].
    apply IH; [lia |].
    exists i, d, c. repeat split; auto; try lia.
    destruct (Nat.eq_dec i a) as [-> |]; [congruence | lia].
Qed.

Definition dados_22 : DataFrame :=
  mkDataFrame (map Z.of_nat (seq 0 22))
              (Planas [("Close"%string, 0 :: repeat 1 21)]).

Definition dados_23 : DataFrame :=
  mkDataFrame (map Z.of_nat (seq 0 23))
              (Planas [("Close"%string, 100 :: 50 :: repeat 110 21)]).

Example retorno_exemplo :
  calcular_retorno_janela dados_23 1 = Return [(21%Z, 10); (22%Z, 120)].
Proof. vm_compute. reflexivity. Qed.

(** C6, as stated, fails: a series of 22 points with a first close of
    zero and a one-month window gives no result of length [22 - 21 = 1]
    but a [ZeroDivisionError]. *)
Lemma retorno_janela_close_zero :
  serie_close dados_22 = Some (combine (map Z.of_nat (seq 0 22)) (0 :: repeat 1 21))
  /\ calcular_retorno_janela dados_22 1 = Raise ZeroDivisionError.
Proof. split; vm_compute; reflexivity. Qed.

(** C6 (amended): for a series with a close column whose closes at the
    positions below [len - width] are all non-zero, and a window of
    [m >= 0] months ([width = m * 21]), the result has length
    [max(0, len - width)], entry [i] is
    [(close[i+width] - close[i]) / close[i] * 100] keyed by the date at
    position [i + width]; a series shorter than the width gives the
    empty result, not an error. *)
Theorem retorno_janela_spec (dados : DataFrame) (coluna_close : Series) (m : Z) :
  serie_close dados = Some coluna_close ->
  (0 <= m)%Z ->
  (forall i d c, (Z.of_nat i < Z.of_nat (List.length coluna_close) - m * 21)%Z ->
     nth_error coluna_close i = Some (d, c) -> is_zero c = false) ->
  exists retornos,
    calcular_retorno_janela dados m = Return retornos
    /\ Z.of_nat (List.length retornos)
       = Z.max 0 (Z.of_nat (List.length coluna_close) - m * 21)
    /\ (forall i, (Z.of_nat i < Z.of_nat (List.length coluna_close) - m * 21)%Z ->
          exists di ci d cf,
            nth_error coluna_close i = Some (di, ci)
            /\ nth_error coluna_close (i + Z.to_nat (m * 21)) = Some (d, cf)
            /\ nth_error retornos i = Some (d, ((cf - ci) / ci) * 100))
    /\ ((Z.of_nat (List.length coluna_close) <= m * 21)%Z -> retornos = []).
Proof.
  intros Hclose Hm Hnz. unfold calcular_retorno_janela. rewrite Hclose.
  set (n := List.length coluna_close) in *.
  set (w := Z.to_nat (m * 21)).
  assert (Hw : (m * 21)%Z = Z.of_nat w) by (unfold w; lia).
  unfold range. rewrite Hw in *.
  destruct (@laco_retornos_ok coluna_close w (Z.to_nat (Z.of_nat n - Z.of_nat w)) 0 [])
    as (r & Hr & Hlen & Hent).
  { fold n. lia. }
  { intros i d c Hi. apply Hnz. lia. }
  exists r. cbn [app] in Hr. split; [exact Hr |].
  split; [lia |]. split.
  - intros i Hi. destruct (Hent i) as (di & ci & d & cf & H1 & H2 & H3); [lia |].
    exists di, ci, d, cf. auto.
  - intros Hshort. destruct r; [reflexivity | cbn in Hlen; lia].
Qed.

Lemma retorno_janela_spec_witness :
  exists retornos,
    calcular_retorno_janela dados_23 1 = Return retornos
    /\ Z.of_nat (List.length retornos)
       = Z.max 0 (Z.of_nat (List.length
                    (combine (map Z.of_nat (seq 0 23)) (100 :: 50 :: repeat 110 21)))
                  - 1 * 21)
    /\ (forall i,
          (Z.of_nat i < Z.of_nat (List.length
                    (combine (map Z.of_nat (seq 0 23)) (100 :: 50 :: repeat 110 21)))
                  - 1 * 21)%Z ->
          exists di ci d cf,
            nth_error (combine (map Z.of_nat (seq 0 23)) (100 :: 50 :: repeat 110 21)) i
              = Some (di, ci)
            /\ nth_error (combine (map Z.of_nat (seq 0 23)) (100 :: 50 :: repeat 110 21))
                 (i + Z.to_nat (1 * 21)) = Some (d, cf)
            /\ nth_error retornos i = Some (d, ((cf - ci) / ci) * 100))
    /\ ((Z.of_nat (List.length
                    (combine (map Z.of_nat (seq 0 23)) (100 :: 50 :: repeat 110 21)))
          <= 1 * 21)%Z -> retornos = []).
Proof.
  apply (@retorno_janela_spec dados_23
           (combine (map Z.of_nat (seq 0 23)) (100 :: 50 :: repeat 110 21)) 1).
  - reflexivity.
  - lia.
  - intros i d c Hi Hnth.
    assert (Hlt : (i < 2)%nat) by (cbn in Hi; lia).
    destruct i as [| [| i]]; [| | lia];
      cbn in Hnth; injection Hnth as _ <-; reflexivity.
Defined.

End RetornosSpec.


Module DetectoresSpec.
Import Py Pandas ComparacaoAtivos PyFacts.
Local Open Scope float_scope.

Definition var_a : Series := [(1%Z, 0); (2%Z, 10); (3%Z, -10); (4%Z, -20)].
Definition var_b : Series := [(1%Z, 0); (2%Z, 5); (3%Z, -5); (4%Z, 30)].

Example periodos_cenario :
  encontrar_periodos_superacao var_a var_b = Return [mkPeriodo 3%Z 4%Z 2%Z].
Proof. vm_compute. reflexivity. Qed.

Example janelas_cenario :
  encontrar_janelas_superacao var_a var_b 6 = Return [mkJanela 3%Z 4%Z (-20) 30].
Proof. vm_compute. reflexivity. Qed.

(** *** Vocabulary: positions in the aligned frame *)

(** The predicate [B > A] at a row. *)
Definition sup (l : Linha) : bool := (l_ativo1 l <? l_ativo2 l).

(** [B > A] holds at every row from position [p] to position [q]. *)
Definition todas_sup (al : list Linha) (p q : nat) : Prop :=
  forall k l, (p <= k <= q)%nat -> nth_error al k = Some l -> sup l = true.

(** The row at position [k] carries the date [d]. *)
Definition data_em (al : list Linha) (k : nat) (d : date) : Prop :=
  exists l, nth_error al k = Some l /\ l_data l = d.

(** Dates strictly increasing along the frame. *)
Definition crescente (al : list Linha) : Prop :=
  forall i k li lk, (i < k)%nat ->
    nth_error al i = Some li -> nth_error al k = Some lk ->
    (l_data li < l_data lk)%Z.

(** A chain of intervals laid out left to right between positions [b]
    (included) and [c] (excluded): each starts at or after the position
    that follows the end of the one before. *)
Section Cadeia.
Variable J : Type.
Variable em_pos : J -> nat -> nat -> Prop.

Inductive cadeia : nat -> nat -> list J -> Prop :=
| cadeia_nil : forall b c, cadeia b c []
| cadeia_cons : forall b c j js p e,
    (b <= p)%nat -> (p <= e)%nat -> (e < c)%nat ->
    em_pos j p e -> cadeia (S e) c js -> cadeia b c (j :: js).

Lemma cadeia_snoc b c c' js j p e :
  cadeia b c js -> (b <= p)%nat -> (c <= p)%nat -> (p <= e)%nat -> (e < c')%nat ->
  em_pos j p e -> cadeia b c' (js ++ [j]).
Proof.
  intros H. revert p e c' j.
  induction H as [b c | b c j0 js p0 e0 Hb Hpe Hec Hpos Hjs IH];
    intros p e c' j Hbp Hcp Hple Hec' Hj; cbn.
  - apply cadeia_cons with (p := p) (e := e); auto. constructor.
  - apply cadeia_cons with (p := p0) (e := e0); auto; [lia |].
    apply IH with (p := p) (e := e); auto; lia.
Qed.

Lemma cadeia_inicio b c js :
  cadeia b c js -> Forall (fun y => exists p e, (b <= p)%nat /\ em_pos y p e) js.
Proof.
  induction 1 as [| b c j js p e Hb Hpe Hec Hpos Hjs IH]; constructor.
  - eauto.
  - eapply Forall_impl; [| exact IH].
    cbn. intros y (p' & e' & Hp' & Hy). exists p', e'. split; [lia | auto].
Qed.

Lemma cadeia_todos b c js :
  cadeia b c js -> Forall (fun y => exists p e, em_pos y p e) js.
Proof.
  intros H. apply cadeia_inicio in H.
  eapply Forall_impl; [| exact H]. cbn. intros y (p & e & _ & Hy). eauto.
Qed.

Variable al : list Linha.
Variables ini fim : J -> date.
Hypothesis em_pos_datas :
  forall j p e, em_pos j p e ->
    (p <= e)%nat /\ data_em al p (ini j) /\ data_em al e (fim j).
Hypothesis al_crescente : crescente al.

Lemma datas_monotonas i k di dk :
  (i <= k)%nat -> data_em al i di -> data_em al k dk -> (di <= dk)%Z.
Proof.
  intros Hik (li & Hi & <-) (lk & Hk & <-).
  destruct (Nat.eq_dec i k) as [-> | Hne].
  - rewrite Hi in Hk. injection Hk as <-. lia.
  - apply Z.lt_le_incl. apply (al_crescente (i := i) (k := k)); auto. lia.
Qed.

Lemma datas_estritas i k di dk :
  (i < k)%nat -> data_em al i di -> data_em al k dk -> (di < dk)%Z.
Proof.
  intros Hik (li & Hi & <-) (lk & Hk & <-).
  now apply (al_crescente (i := i) (k := k)).
Qed.

(** Along a chain over increasing dates: every interval starts no later
    than it ends, and ends strictly before any later one starts. *)
Lemma cadeia_ordem b c js :
  cadeia b c js ->
  Forall (fun j => (ini j <= fim j)%Z) js
  /\ ForallOrdPairs (fun x y => (fim x < ini y)%Z) js.
Proof.
  induction 1 as [| b c j js p e Hb Hpe Hec Hpos Hjs [IH1 IH2]].
  - split; constructor.
  - destruct (em_pos_datas Hpos) as (_ & Hini & Hfim).
    split; constructor; auto.
    + exact (datas_monotonas Hpe Hini Hfim).
    + apply cadeia_inicio in Hjs.
      eapply Forall_impl; [| exact Hjs].
      cbn. intros y (p' & e' & Hp' & Hy).
      destruct (em_pos_datas Hy) as (_ & Hini' & _).
      apply (datas_estritas (i := e) (k := p')); auto.
Qed.

End Cadeia.

Lemma ordem_inicios {J} (ini fim : J -> date) (js : list J) :
  Forall (fun j => (ini j <= fim j)%Z) js ->
  ForallOrdPairs (fun x y => (fim x < ini y)%Z) js ->
  ForallOrdPairs (fun x y => (ini x <= ini y)%Z) js.
Proof.
  intros Hle Hord. induction Hord as [| a l Ha Hl IH].
  - constructor.
  - inversion Hle as [| ? ? Hala Hlel]; subst. constructor; auto.
    eapply Forall_impl; [| exact Ha]. cbn. intros y Hy. lia.
Qed.

Lemma cadeia_alarga {J} (em_pos : J -> nat -> nat -> Prop) b c c' js :
  cadeia em_pos b c js -> (c <= c')%nat -> cadeia em_pos b c' js.
Proof.
  induction 1 as [| b c j js p e Hb Hpe Hec Hpos Hjs IH]; intros Hc.
  - constructor.
  - apply cadeia_cons with (p := p) (e := e); auto. lia.
Qed.

(** *** The aligned frame of two date-sorted Series is date-sorted *)

Lemma insere_In d x l : In x (insere d l) -> x = d \/ In x l.
Proof.
  induction l as [| y r IH]; cbn.
  - intros [<- | []]. now left.
  - destruct (d <? y)%Z; [| destruct (d =? y)%Z]; cbn.
    + intros [<- | H]; auto.
    + auto.
    + intros [<- | H]; auto. destruct (IH H); auto.
Qed.

Lemma insere_ordenada d l :
  StronglySorted Z.lt l -> StronglySorted Z.lt (insere d l).
Proof.
  induction 1 as [| y r Hr IH Hy]; cbn.
  - repeat constructor.
  - destruct (d <? y)%Z eqn:Elt; [| destruct (d =? y)%Z eqn:Eeq].
    + apply Z.ltb_lt in Elt. constructor; [now constructor |].
      constructor; auto. eapply Forall_impl; [| exact Hy]. cbn. intros; lia.
    + now constructor.
    + apply Z.ltb_ge in Elt. apply Z.eqb_neq in Eeq.
      constructor; auto. apply Forall_forall. intros x Hx.
      destruct (insere_In _ _ _ Hx) as [-> | Hin]; [lia |].
      rewrite Forall_forall in Hy. auto.
Qed.

Lemma uniao_ordenada l : StronglySorted Z.lt (fold_right insere [] l).
Proof.
  induction l; cbn; [constructor | now apply insere_ordenada].
Qed.

Lemma union_indexes_ordenada i1 i2 :
  StronglySorted Z.lt i1 -> StronglySorted Z.lt i2 ->
  StronglySorted Z.lt (union_indexes i1 i2).
Proof.
  intros H1 H2. unfold union_indexes.
  destruct (list_eqb i1 i2); auto.
  destruct i1, i2; auto. apply uniao_ordenada.
Qed.

Lemma datas_frame_de_dois s1 s2 :
  map l_data (frame_de_dois s1 s2) = union_indexes (map fst s1) (map fst s2).
Proof.
  unfold frame_de_dois. rewrite map_map. cbn. apply map_id.
Qed.

Lemma datas_dropna f :
  StronglySorted Z.lt (map l_data f) -> StronglySorted Z.lt (map l_data (dropna f)).
Proof.
  unfold dropna. induction f as [| l f IH]; cbn; intros H; [constructor |].
  inversion H as [| ? ? Hf Hl]; subst.
  destruct (negb _); cbn; auto.
  constructor; auto.
  rewrite Forall_forall in *. intros x Hx. apply Hl.
  apply in_map_iff in Hx as (y & <- & Hy). apply filter_In in Hy as [Hy _].
  now apply in_map.
Qed.

Lemma ordenada_crescente al :
  StronglySorted Z.lt (map l_data al) -> crescente al.
Proof.
  induction al as [| l al IH]; cbn; intros H i k li lk Hik Hi Hk.
  - destruct i; discriminate.
  - inversion H as [| ? ? Hal Hl]; subst.
    destruct k as [| k]; [lia |]. cbn in Hk.
    destruct i as [| i]; cbn in Hi.
    + injection Hi as <-. rewrite Forall_forall in Hl. apply Hl.
      apply in_map. eapply nth_error_In; eauto.
    + apply (IH Hal i k); auto. lia.
Qed.

Lemma alinhado_crescente (s1 s2 : Series) :
  StronglySorted Z.lt (map fst s1) -> StronglySorted Z.lt (map fst s2) ->
  crescente (dropna (frame_de_dois s1 s2)).
Proof.
  intros H1 H2. apply ordenada_crescente, datas_dropna.
  rewrite datas_frame_de_dois. now apply union_indexes_ordenada.
Qed.

(** *** The scan of the windowed detector *)

(** The window [j] starts at position [p], its last row inside the run is
    at position [q], and its end date is the date at position [e]: the
    row after the run when a row without superation closed it, the last
    row of the frame when the run was still open there. *)
Definition janela_em (al : list Linha) (j : Janela) (p q e : nat) : Prop :=
  data_em al p (j_inicio j)
  /\ data_em al e (j_fim j)
  /\ (exists l, nth_error al q = Some l
        /\ j_ret1 j = l_ativo1 l /\ j_ret2 j = l_ativo2 l)
  /\ (p <= q)%nat
  /\ todas_sup al p q
  /\ ((e = S q /\ exists l, nth_error al e = Some l /\ sup l = false)
      \/ (e = q /\ S q = List.length al)).

Definition pos_janela (al : list Linha) (j : Janela) (p e : nat) : Prop :=
  exists q, janela_em al j p q e.

Lemma pos_janela_datas al j p e :
  pos_janela al j p e ->
  (p <= e)%nat /\ data_em al p (j_inicio j) /\ data_em al e (j_fim j).
Proof.
  intros (q & Hi & Hf & _ & Hpq & _ & He). repeat split; auto.
  destruct He as [[-> _] | [-> _]]; lia.
Qed.

Definition itens_de (k : nat) (suf : list Linha) : list (Z * (date * bool)) :=
  combine (map Z.of_nat (seq k (List.length suf))) (superacao_de suf).

Lemma enumerate_superacao al : enumerate (superacao_de al) = itens_de 0 al.
Proof.
  unfold enumerate, range, itens_de, superacao_de.
  now rewrite length_map, Nat2Z.id.
Qed.

Lemma itens_de_cons k l suf :
  itens_de k (l :: suf) = (Z.of_nat k, (l_data l, sup l)) :: itens_de (S k) suf.
Proof. reflexivity. Qed.

(** After [k] rows, [b] is the predicate at the last row read. *)
Definition ultimo_sup (al : list Linha) (k : nat) (b : bool) : Prop :=
  match k with
  | O => b = false
  | S k' => exists l, nth_error al k' = Some l /\ sup l = b
  end.

Definition inv_janelas (al : list Linha) (k : nat) (st : EstadoJanelas) : Prop :=
  ultimo_sup al k (em_superacao st)
  /\ exists c, cadeia (pos_janela al) 0 c (janelas st)
     /\ if em_superacao st
        then exists p, inicio_idx st = Some (Z.of_nat p)
                       /\ (c <= p < k)%nat /\ todas_sup al p (k - 1)
        else inicio_idx st = None /\ (c <= k)%nat.

Lemma linha_em_nat al k l :
  nth_error al k = Some l -> linha_em al (Z.of_nat k) = Return l.
Proof. intros H. unfold linha_em. now rewrite iloc_of_nat, H. Qed.

Lemma nth_error_existe {A} (l : list A) k :
  (k < List.length l)%nat -> exists x, nth_error l k = Some x.
Proof.
  intros H. destruct (nth_error l k) eqn:E; eauto.
  apply nth_error_None in E. lia.
Qed.

Lemma passo_janelas_inv al k l st :
  nth_error al k = Some l -> inv_janelas al k st ->
  exists st', passo_janelas al st (Z.of_nat k) (l_data l) (sup l) = Return st'
              /\ inv_janelas al (S k) st'.
Proof.
  intros Hk (Hult & c & Hcad & Hst). unfold passo_janelas.
  assert (Hlen : (k < List.length al)%nat)
    by (apply nth_error_Some; congruence).
  destruct (sup l) eqn:Hs, (em_superacao st) eqn:Hem; cbn [andb negb].
  - (* inside a run, still superating *)
    exists st. split; [reflexivity |]. unfold inv_janelas. rewrite Hem.
    split; [cbn; eauto |]. exists c. split; [exact Hcad |].
    destruct Hst as (p & Hini & Hc & Hts). exists p. repeat split; auto; try lia.
    intros k0 l0 Hk0 Hl0. destruct (Nat.eq_dec k0 k) as [-> | Hne].
    + congruence.
    + apply (Hts k0); auto. lia.
  - (* a run starts *)
    eexists. split; [reflexivity |]. unfold inv_janelas. cbn.
    split; [eauto |]. exists c. split; [exact Hcad |].
    destruct Hst as (_ & Hc). exists k. repeat split; auto; try lia.
    intros k0 l0 Hk0 Hl0. assert (k0 = k) as -> by lia. congruence.
  - (* the run ends at this row *)
    destruct Hst as (p & Hini & Hc & Hts). rewrite Hini.
    destruct (@nth_error_existe _ al p) as (lp & Hp); [lia |].
    destruct (@nth_error_existe _ al (k - 1)) as (lq & Hq); [lia |].
    rewrite (linha_em_nat _ _ Hp). cbn [bind].
    replace (Z.of_nat k - 1)%Z with (Z.of_nat (k - 1)) by lia.
    rewrite (linha_em_nat _ _ Hq). cbn [bind].
    eexists. split; [reflexivity |]. unfold inv_janelas. cbn.
    split; [eauto |]. exists (S k). split; [| split; [reflexivity | lia]].
    apply cadeia_snoc with (c := c) (p := p) (e := k); auto; try lia.
    exists (k - 1)%nat. unfold janela_em, data_em. cbn.
    repeat split; eauto; try lia.
    left. split; [lia | eauto].
  - (* outside any run *)
    exists st. split; [reflexivity |]. unfold inv_janelas. rewrite Hem.
    split; [cbn; eauto |]. exists c. split; [exact Hcad |].
    destruct Hst as (Hini & Hc). split; auto.
Qed.

Lemma laco_janelas_inv al :
  forall suf k st,
    (forall i l, nth_error suf i = Some l -> nth_error al (k + i) = Some l) ->
    inv_janelas al k st ->
    exists st', laco_janelas al (itens_de k suf) st = Return st'
                /\ inv_janelas al (k + List.length suf) st'.
Proof.
  induction suf as [| l suf IH]; intros k st Hsuf Hinv.
  - exists st. split; [reflexivity |]. now rewrite Nat.add_0_r.
  - rewrite itens_de_cons. cbn [laco_janelas].
    assert (Hk : nth_error al k = Some l)
      by (rewrite <- (Nat.add_0_r k); now apply Hsuf).
    destruct (passo_janelas_inv Hk Hinv) as (st1 & Hst1 & Hinv1).
    rewrite Hst1. cbn [bind].
    destruct (IH (S k) st1) as (st' & Hst' & Hinv'); auto.
    + intros i l' Hi. replace (S k + i)%nat with (k + S i)%nat by lia.
      now apply Hsuf.
    + exists st'. split; auto. cbn [List.length].
      now replace (k + S (List.length suf))%nat with (S k + List.length suf)%nat by lia.
Qed.

Lemma iloc_menos1 {A} (l : list A) :
  l <> [] -> iloc l (-1) = nth_error l (List.length l - 1).
Proof.
  intros Hne. unfold iloc. cbn [Z.leb Z.compare].
  assert (0 < List.length l)%nat by (destruct l; [congruence | cbn; lia]).
  destruct (- Z.of_nat (List.length l) <=? -1)%Z eqn:E;
    [| apply Z.leb_gt in E; lia].
  f_equal. lia.
Qed.

Lemma janelas_do_alinhado_nao_vazio (al : list Linha) (m : Z) :
  al <> [] ->
  janelas_do_alinhado al m
  = bind (laco_janelas al (enumerate (superacao_de al)) (mkEstadoJanelas false None []))
      (fun st =>
         match em_superacao st, inicio_idx st with
         | true, Some ini =>
             bind (linha_em al ini) (fun l_ini =>
             bind (linha_em al (-1)) (fun l_fim =>
             Return (janelas st ++
                     [mkJanela (l_data l_ini) (l_data l_fim)
                               (l_ativo1 l_fim) (l_ativo2 l_fim)])))
         | _, _ => Return (janelas st)
         end).
Proof. destruct al; [congruence | reflexivity]. Qed.

(** The windowed detector returns, on every aligned frame, a chain of
    windows over the whole frame; when the last row superates, the last
    window ends at the last date. *)
Lemma janelas_do_alinhado_cadeia (al : list Linha) (m : Z) :
  exists js,
    janelas_do_alinhado al m = Return js
    /\ cadeia (pos_janela al) 0 (List.length al) js
    /\ (forall l, nth_error al (List.length al - 1) = Some l -> sup l = true ->
          exists js' j, js = js' ++ [j] /\ j_fim j = l_data l).
Proof.
  destruct al as [| l0 al'] eqn:Hal.
  { exists []. repeat split; [constructor | intros l Hl; discriminate]. }
  rewrite <- Hal. assert (Hne : al <> []) by (subst; discriminate).
  rewrite (janelas_do_alinhado_nao_vazio m Hne).
  rewrite enumerate_superacao.
  destruct (@laco_janelas_inv al al 0%nat (mkEstadoJanelas false None []))
    as (st & Hst & Hult & c & Hcad & Hfin).
  { intros i l Hi. exact Hi. }
  { split; [reflexivity |]. exists 0%nat. cbn. repeat split; auto. constructor. }
  rewrite Hst. cbn [bind]. cbn [Nat.add] in *.
  assert (Hpos : (0 < List.length al)%nat) by (subst; cbn; lia).
  destruct (@nth_error_existe _ al (List.length al - 1)) as (lf & Hlf); [lia |].
  assert (Hsupf : sup lf = em_superacao st).
  { unfold ultimo_sup in Hult.
    destruct (List.length al) as [| n'] eqn:Hn; [lia |].
    destruct Hult as (l & Hl & Hs).
    replace (S n' - 1)%nat with n' in Hlf by lia. congruence. }
  destruct (em_superacao st) eqn:Hem.
  - destruct Hfin as (p & Hini & Hc & Hts). rewrite Hini.
    destruct (@nth_error_existe _ al p) as (lp & Hp); [lia |].
    rewrite (linha_em_nat _ _ Hp). cbn [bind].
    unfold linha_em at 1. rewrite (iloc_menos1 Hne), Hlf. cbn [bind].
    eexists. split; [reflexivity |]. split.
    + apply cadeia_snoc with (c := c) (p := p) (e := (List.length al - 1)%nat);
        auto; try lia.
      exists (List.length al - 1)%nat. unfold janela_em, data_em. cbn.
      repeat split; eauto; try lia.
    + intros l Hl _. injection Hl as <-.
      eexists _, _. split; reflexivity.
  - destruct Hfin as (Hini & Hc).
    exists (janelas st). split; [reflexivity |]. split.
    + now apply cadeia_alarga with (c := c).
    + intros l Hl Hs. congruence.
Qed.

(** *** The scan of the point detector *)

(** The period [pd] runs from position [p] to position [e], its last row
    inside the run. *)
Definition pos_periodo (al : list Linha) (pd : Periodo) (p e : nat) : Prop :=
  data_em al p (p_inicio pd)
  /\ data_em al e (p_fim pd)
  /\ p_dias pd = (p_fim pd - p_inicio pd + 1)%Z
  /\ (p <= e)%nat
  /\ todas_sup al p e
  /\ ((exists l, nth_error al (S e) = Some l /\ sup l = false)
      \/ S e = List.length al).

Lemma pos_periodo_datas al pd p e :
  pos_periodo al pd p e ->
  (p <= e)%nat /\ data_em al p (p_inicio pd) /\ data_em al e (p_fim pd).
Proof. intros (Hi & Hf & _ & Hpe & _). auto. Qed.

Definition inv_periodos (al : list Linha) (k : nat) (st : EstadoPeriodos) : Prop :=
  exists c, cadeia (pos_periodo al) 0 c (periodos st)
    /\ match inicio st with
       | Some ini =>
           ultimo_sup al k true
           /\ exists p, data_em al p ini /\ (c <= p < k)%nat /\ todas_sup al p (k - 1)
       | None => ultimo_sup al k false /\ (c <= k)%nat
       end.

Lemma passo_periodos_inv al k l st :
  nth_error al k = Some l -> inv_periodos al k st ->
  exists st', passo_periodos al st (Z.of_nat k) (l_data l) (sup l) = Return st'
              /\ inv_periodos al (S k) st'.
Proof.
  intros Hk (c & Hcad & Hst). unfold passo_periodos.
  assert (Hlen : (k < List.length al)%nat)
    by (apply nth_error_Some; congruence).
  destruct (sup l) eqn:Hs, (inicio st) as [ini |] eqn:Hini.
  - exists st. split; [reflexivity |]. unfold inv_periodos. rewrite Hini.
    exists c. split; [exact Hcad |].
    destruct Hst as (_ & p & Hp & Hc & Hts). split; [cbn; eauto |].
    exists p. repeat split; auto; try lia.
    intros k0 l0 Hk0 Hl0. destruct (Nat.eq_dec k0 k) as [-> | Hne].
    + congruence.
    + apply (Hts k0); auto. lia.
  - eexists. split; [reflexivity |]. unfold inv_periodos. cbn.
    exists c. split; [exact Hcad |]. destruct Hst as (_ & Hc).
    split; [eauto |]. exists k. unfold data_em. repeat split; eauto; try lia.
    intros k0 l0 Hk0 Hl0. assert (k0 = k) as -> by lia. congruence.
  - destruct Hst as (_ & p & Hp & Hc & Hts).
    destruct (@nth_error_existe _ al (k - 1)) as (lq & Hq); [lia |].
    replace (Z.of_nat k - 1)%Z with (Z.of_nat (k - 1)) by lia.
    rewrite (linha_em_nat _ _ Hq). cbn [bind].
    eexists. split; [reflexivity |]. unfold inv_periodos. cbn.
    exists (S k). split; [| split; [eauto | lia]].
    apply cadeia_snoc with (c := c) (p := p) (e := (k - 1)%nat); auto; try lia.
    unfold pos_periodo, data_em. cbn [p_inicio p_fim p_dias].
    repeat split; eauto; try lia.
    left. replace (S (k - 1)) with k by lia. eauto.
  - exists st. split; [reflexivity |]. unfold inv_periodos. rewrite Hini.
    exists c. split; [exact Hcad |]. destruct Hst as (_ & Hc).
    split; [cbn; eauto | lia].
Qed.

Lemma laco_periodos_inv al :
  forall suf k st,
    (forall i l, nth_error suf i = Some l -> nth_error al (k + i) = Some l) ->
    inv_periodos al k st ->
    exists st', laco_periodos al (itens_de k suf) st = Return st'
                /\ inv_periodos al (k + List.length suf) st'.
Proof.
  induction suf as [| l suf IH]; intros k st Hsuf Hinv.
  - exists st. split; [reflexivity |]. now rewrite Nat.add_0_r.
  - rewrite itens_de_cons. cbn [laco_periodos].
    assert (Hk : nth_error al k = Some l)
      by (rewrite <- (Nat.add_0_r k); now apply Hsuf).
    destruct (passo_periodos_inv Hk Hinv) as (st1 & Hst1 & Hinv1).
    rewrite Hst1. cbn [bind].
    destruct (IH (S k) st1) as (st' & Hst' & Hinv'); auto.
    + intros i l' Hi. replace (S k + i)%nat with (k + S i)%nat by lia.
      now apply Hsuf.
    + exists st'. split; auto. cbn [List.length].
      now replace (k + S (List.length suf))%nat with (S k + List.length suf)%nat by lia.
Qed.

Lemma periodos_do_alinhado_cadeia (al : list Linha) :
  exists ps,
    periodos_do_alinhado al = Return ps
    /\ cadeia (pos_periodo al) 0 (List.length al) ps
    /\ (forall l, nth_error al (List.length al - 1) = Some l -> sup l = true ->
          exists ps' pd, ps = ps' ++ [pd] /\ p_fim pd = l_data l)
    /\ (al = [] -> ps = []).
Proof.
  unfold periodos_do_alinhado. cbv zeta. rewrite enumerate_superacao.
  destruct (@laco_periodos_inv al al 0%nat (mkEstadoPeriodos None []))
    as (st & Hst & c & Hcad & Hfin).
  { intros i l Hi. exact Hi. }
  { exists 0%nat. cbn. repeat split; auto. constructor. }
  rewrite Hst. cbn [bind]. cbn [Nat.add] in *.
  destruct (inicio st) as [ini |] eqn:Hini.
  - destruct Hfin as (Hult & p & Hp & Hc & Hts).
    assert (Hne : al <> []) by (destruct al; [cbn in Hc; lia | discriminate]).
    destruct (@nth_error_existe _ al (List.length al - 1)) as (lf & Hlf); [lia |].
    unfold linha_em. rewrite (iloc_menos1 Hne), Hlf. cbn [bind].
    eexists. split; [reflexivity |]. split; [| split].
    + apply cadeia_snoc with (c := c) (p := p) (e := (List.length al - 1)%nat);
        auto; try lia.
      unfold pos_periodo, data_em. cbn [p_inicio p_fim p_dias].
      repeat split; eauto; try lia.
    + intros l Hl _. injection Hl as <-.
      eexists _, _. split; reflexivity.
    + congruence.
  - destruct Hfin as (Hult & Hc).
    exists (periodos st). split; [reflexivity |]. split; [| split].
    + now apply cadeia_alarga with (c := c).
    + intros l Hl Hs. unfold ultimo_sup in Hult.
      destruct (List.length al) as [| n'] eqn:Hn.
      * destruct al; [discriminate | cbn in Hn; lia].
      * destruct Hult as (l' & Hl' & Hs').
        replace (S n' - 1)%nat with n' in Hl by lia. congruence.
    + intros ->. cbn in Hst. injection Hst as <-. reflexivity.
Qed.

(** *** Where a window starts *)

(** Position [p] is the first row of a run: the frame starts there, or
    [B > A] is false at the row before. *)
Definition primeira_da_corrida (al : list Linha) (p : nat) : Prop :=
  p = 0%nat \/ exists l, nth_error al (p - 1) = Some l /\ sup l = false.

(** The window [j] reports the run that starts at position [p]. *)
Definition janela_de_corrida (al : list Linha) (j : Janela) : Prop :=
  exists p q e, janela_em al j p q e /\ primeira_da_corrida al p.

(** Every window emitted so far starts at the first row of its run, and
    so does the run that is open. *)
Definition inv_inicios (al : list Linha) (st : EstadoJanelas) : Prop :=
  Forall (janela_de_corrida al) (janelas st)
  /\ (em_superacao st = true ->
      exists p, inicio_idx st = Some (Z.of_nat p) /\ primeira_da_corrida al p).

Lemma passo_janelas_inicios al k l st st' :
  nth_error al k = Some l ->
  inv_janelas al k st -> inv_inicios al st ->
  passo_janelas al st (Z.of_nat k) (l_data l) (sup l) = Return st' ->
  inv_inicios al st'.
Proof.
  intros Hk (Hult & c & Hcad & Hst) (Hjs & Hab). unfold passo_janelas.
  assert (Hlen : (k < List.length al)%nat)
    by (apply nth_error_Some; congruence).
  destruct (sup l) eqn:Hs, (em_superacao st) eqn:Hem; cbn [andb negb].
  - intros [= <-]. split; [exact Hjs |]. now rewrite Hem.
  - intros [= <-]. split; [exact Hjs |]. cbn [em_superacao inicio_idx].
    intros _. exists k. split; [reflexivity |].
    unfold ultimo_sup in Hult. destruct k as [| k'].
    + now left.
    + right. destruct Hult as (l' & Hl' & Hs').
      exists l'. replace (S k' - 1)%nat with k' by lia. auto.
  - destruct Hst as (p & Hini & Hc & Hts). rewrite Hini.
    destruct (Hab eq_refl) as (p' & Hini' & Hprim).
    assert (p' = p) as -> by (rewrite Hini in Hini'; injection Hini'; lia).
    destruct (@nth_error_existe _ al p) as (lp & Hp); [lia |].
    destruct (@nth_error_existe _ al (k - 1)) as (lq & Hq); [lia |].
    rewrite (linha_em_nat _ _ Hp). cbn [bind].
    replace (Z.of_nat k - 1)%Z with (Z.of_nat (k - 1)) by lia.
    rewrite (linha_em_nat _ _ Hq). cbn [bind].
    intros [= <-]. split; [| discriminate]. cbn [janelas].
    apply Forall_app. split; [exact Hjs |]. constructor; [| constructor].
    exists p, (k - 1)%nat, k. split; [| exact Hprim].
    unfold janela_em, data_em. cbn [j_inicio j_fim j_ret1 j_ret2].
    repeat (split; [eauto; lia |]).
    left. split; [lia | eauto].
  - intros [= <-]. split; [exact Hjs |]. now rewrite Hem.
Qed.

Lemma laco_janelas_inicios al :
  forall suf k st st',
    (forall i l, nth_error suf i = Some l -> nth_error al (k + i) = Some l) ->
    inv_janelas al k st -> inv_inicios al st ->
    laco_janelas al (itens_de k suf) st = Return st' ->
    inv_janelas al (k + List.length suf) st' /\ inv_inicios al st'.
Proof.
  induction suf as [| l suf IH]; intros k st st' Hsuf Hinv Hini.
  - cbn. intros [= <-]. now rewrite Nat.add_0_r.
  - rewrite itens_de_cons. cbn [laco_janelas].
    assert (Hk : nth_error al k = Some l)
      by (rewrite <- (Nat.add_0_r k); now apply Hsuf).
    destruct (passo_janelas_inv Hk Hinv) as (st1 & Hst1 & Hinv1).
    pose proof (passo_janelas_inicios Hk Hinv Hini Hst1) as Hini1.
    rewrite Hst1. cbn [bind]. intros Hlaco. cbn [List.length].
    replace (k + S (List.length suf))%nat with (S k + List.length suf)%nat by lia.
    apply IH with (st := st1); auto.
    intros i l' Hi. replace (S k + i)%nat with (k + S i)%nat by lia.
    now apply Hsuf.
Qed.

(** Every window the detector returns starts at the first row of a run. *)
Lemma janelas_do_alinhado_corridas (al : list Linha) (m : Z) (js : list Janela) :
  janelas_do_alinhado al m = Return js -> Forall (janela_de_corrida al) js.
Proof.
  destruct al as [| l0 al'] eqn:Hal.
  { cbn. intros [= <-]. constructor. }
  rewrite <- Hal. assert (Hne : al <> []) by (subst; discriminate).
  rewrite (janelas_do_alinhado_nao_vazio m Hne), enumerate_superacao.
  destruct (laco_janelas al (itens_de 0 al) (mkEstadoJanelas false None []))
    as [st | e] eqn:Hlaco; cbn [bind]; [| discriminate].
  destruct (@laco_janelas_inicios al al 0%nat (mkEstadoJanelas false None []) st)
    as [(Hult & c & Hcad & Hfin) (Hjs & Hab)]; auto.
  { split; [reflexivity |]. exists 0%nat. cbn. repeat split; auto. constructor. }
  { split; [constructor | discriminate]. }
  cbn [Nat.add] in *.
  assert (Hpos : (0 < List.length al)%nat) by (subst; cbn; lia).
  destruct (@nth_error_existe _ al (List.length al - 1)) as (lf & Hlf); [lia |].
  destruct (em_superacao st) eqn:Hem.
  - destruct Hfin as (p & Hini & Hc & Hts). rewrite Hini.
    destruct (Hab eq_refl) as (p' & Hini' & Hprim).
    assert (p' = p) as -> by (rewrite Hini in Hini'; injection Hini'; lia).
    destruct (@nth_error_existe _ al p) as (lp & Hp); [lia |].
    rewrite (linha_em_nat _ _ Hp). cbn [bind].
    unfold linha_em at 1. rewrite (iloc_menos1 Hne), Hlf. cbn [bind].
    intros [= <-]. apply Forall_app. split; [exact Hjs |].
    constructor; [| constructor].
    exists p, (List.length al - 1)%nat, (List.length al - 1)%nat.
    split; [| exact Hprim].
    unfold janela_em, data_em. cbn [j_inicio j_fim j_ret1 j_ret2].
    repeat (split; [eauto; lia |]).
    right. split; [reflexivity | lia].
  - destruct (inicio_idx st); intros [= <-]; exact Hjs.
Qed.

(** *** Claims on the detectors *)

Definition ret_a : Series := [(1%Z, 0); (2%Z, 0); (3%Z, 0)].
Definition ret_b : Series := [(1%Z, 1); (2%Z, 1); (3%Z, -1)].

(** C1, as stated, fails: on these returns the only window is
    [(1, 3, 0, 1)]; its values are those of the row dated 2, the last one
    inside the run, but its end date 3 is the date of the row that ended
    the run, where [B > A] is false. *)
Lemma janela_fim_fora_da_corrida :
  encontrar_janelas_superacao ret_a ret_b 1 = Return [mkJanela 1%Z 3%Z 0 1]
  /\ dropna (frame_de_dois ret_a ret_b)
     = [mkLinha 1%Z 0 1; mkLinha 2%Z 0 1; mkLinha 3%Z 0 (-1)]
  /\ sup (mkLinha 2%Z 0 1) = true
  /\ sup (mkLinha 3%Z 0 (-1)) = false.
Proof. repeat split; vm_compute; reflexivity. Qed.

(** C1 (amended): every window the windowed detector emits starts at the
    date of the first row of a run of [B > A] (position [p]: the frame
    starts there, or [B > A] is false at the row before), carries the
    values of the last row inside that run (position [q], not the row that
    ended it), and [B > A] holds at every row from [p] to [q]; its end
    date is the date of the row right after the run, where [B > A] is
    false, when such a row closed the run, and the date of the last row of
    the frame, itself inside the run, when the run was still open there. *)
Theorem janelas_fronteiras (retornos1 retornos2 : Series) (janela_meses : Z) :
  exists js,
    encontrar_janelas_superacao retornos1 retornos2 janela_meses = Return js
    /\ Forall (fun j =>
         exists p q e,
           janela_em (dropna (frame_de_dois retornos1 retornos2)) j p q e
           /\ primeira_da_corrida (dropna (frame_de_dois retornos1 retornos2)) p)
         js.
Proof.
  unfold encontrar_janelas_superacao.
  destruct (janelas_do_alinhado_cadeia
              (dropna (frame_de_dois retornos1 retornos2)) janela_meses)
    as (js & Hjs & _).
  exists js. split; [exact Hjs |].
  exact (@janelas_do_alinhado_corridas _ janela_meses js Hjs).
Qed.

(** C9: for two series with strictly increasing dates, both detectors
    return intervals that never overlap (each ends strictly before the
    next one starts, and starts no later than it ends), listed by
    non-decreasing start date; when the last aligned row superates, the
    last interval ends at the last aligned date; an empty aligned join
    gives the empty list. *)
Theorem detectores_intervalos (s1 s2 : Series) (janela_meses : Z) :
  StronglySorted Z.lt (map fst s1) ->
  StronglySorted Z.lt (map fst s2) ->
  exists js ps,
    encontrar_janelas_superacao s1 s2 janela_meses = Return js
    /\ encontrar_periodos_superacao s1 s2 = Return ps
    /\ Forall (fun x => (j_inicio x <= j_fim x)%Z) js
    /\ ForallOrdPairs (fun x y => (j_fim x < j_inicio y)%Z) js
    /\ ForallOrdPairs (fun x y => (j_inicio x <= j_inicio y)%Z) js
    /\ Forall (fun x => (p_inicio x <= p_fim x)%Z) ps
    /\ ForallOrdPairs (fun x y => (p_fim x < p_inicio y)%Z) ps
    /\ ForallOrdPairs (fun x y => (p_inicio x <= p_inicio y)%Z) ps
    /\ (forall l,
          nth_error (dropna (frame_de_dois s1 s2))
                    (List.length (dropna (frame_de_dois s1 s2)) - 1) = Some l ->
          sup l = true ->
          (exists js' j, js = js' ++ [j] /\ j_fim j = l_data l)
          /\ (exists ps' pd, ps = ps' ++ [pd] /\ p_fim pd = l_data l))
    /\ (dropna (frame_de_dois s1 s2) = [] -> js = [] /\ ps = []).
Proof.
  intros H1 H2.
  pose proof (@alinhado_crescente s1 s2 H1 H2) as Hcres.
  unfold encontrar_janelas_superacao, encontrar_periodos_superacao.
  set (al := dropna (frame_de_dois s1 s2)) in *.
  destruct (janelas_do_alinhado_cadeia al janela_meses) as (js & Hjs & Hcj & Hlj).
  destruct (periodos_do_alinhado_cadeia al) as (ps & Hps & Hcp & Hlp & Hep).
  exists js, ps.
  destruct (@cadeia_ordem _ _ al j_inicio j_fim (@pos_janela_datas al) Hcres _ _ _ Hcj)
    as [Hj1 Hj2].
  destruct (@cadeia_ordem _ _ al p_inicio p_fim (@pos_periodo_datas al) Hcres _ _ _ Hcp)
    as [Hp1 Hp2].
  repeat (split; [assumption |]).
  split; [now apply ordem_inicios with (fim := j_fim) |].
  repeat (split; [assumption |]).
  split; [now apply ordem_inicios with (fim := p_fim) |].
  split.
  - intros l Hl Hs. split; [now apply Hlj | now apply Hlp].
  - intros Hal. split; [| now apply Hep].
    rewrite Hal in Hjs. cbn in Hjs. now injection Hjs as <-.
Qed.

Lemma detectores_intervalos_witness :
  exists js ps,
    encontrar_janelas_superacao var_a var_b 6 = Return js
    /\ encontrar_periodos_superacao var_a var_b = Return ps
    /\ Forall (fun x => (j_inicio x <= j_fim x)%Z) js
    /\ ForallOrdPairs (fun x y => (j_fim x < j_inicio y)%Z) js
    /\ ForallOrdPairs (fun x y => (j_inicio x <= j_inicio y)%Z) js
    /\ Forall (fun x => (p_inicio x <= p_fim x)%Z) ps
    /\ ForallOrdPairs (fun x y => (p_fim x < p_inicio y)%Z) ps
    /\ ForallOrdPairs (fun x y => (p_inicio x <= p_inicio y)%Z) ps
    /\ (forall l,
          nth_error (dropna (frame_de_dois var_a var_b))
                    (List.length (dropna (frame_de_dois var_a var_b)) - 1) = Some l ->
          sup l = true ->
          (exists js' j, js = js' ++ [j] /\ j_fim j = l_data l)
          /\ (exists ps' pd, ps = ps' ++ [pd] /\ p_fim pd = l_data l))
    /\ (dropna (frame_de_dois var_a var_b) = [] -> js = [] /\ ps = []).
Proof.
  apply (@detectores_intervalos var_a var_b 6);
    cbn; repeat (constructor; try reflexivity).
Defined.

(** C10: the windowed detector returns the same list of windows whatever
    the window size passed to it. *)
Theorem janelas_independem_da_janela (retornos1 retornos2 : Series) (m m' : Z) :
  encontrar_janelas_superacao retornos1 retornos2 m
  = encontrar_janelas_superacao retornos1 retornos2 m'.
Proof.
  unfold encontrar_janelas_superacao, janelas_do_alinhado.
  destruct (dropna (frame_de_dois retornos1 retornos2)); reflexivity.
Qed.

End DetectoresSpec.

(** ** The retrying market fetch *)
Module FetcherSpec.
Import Py Pandas ComparacaoAtivos.
Local Open Scope float_scope.

Definition quadro_exemplo : DataFrame :=
  mkDataFrame [1%Z; 2%Z] (Planas [("Close"%string, [10; 11])]).

Definition mundo_inicial : Mundo := mkMundo 0 [].

(** The feed answers the first call with an empty frame, the second with data. *)
Definition yf_vazio_depois_dados (n : nat) : resposta :=
  match n with
  | O => RespDados empty_frame
  | _ => RespDados quadro_exemplo
  end.

(** The feed raises a [KeyError] at the first call and answers the second. *)
Definition yf_erro_depois_dados (n : nat) : resposta :=
  match n with
  | O => RespErro (KeyError "Close")
  | _ => RespDados quadro_exemplo
  end.

Definition yf_sempre_vazio (n : nat) : resposta := RespDados empty_frame.

Definition yf_sempre_erro (n : nat) : resposta :=
  RespErro (ConnectionError "Failed to connect").

(** C4, as stated, fails: after an empty but successful first response
    the fetch downloads again, and here returns the data of the second
    attempt instead of failing. *)
Lemma vazio_e_tentado_de_novo :
  empty empty_frame = true
  /\ obter_dados_ativo None yf_vazio_depois_dados "AAPL" 0%Z 10%Z mundo_inicial
     = (Return quadro_exemplo,
        mkMundo 2 [EvDownload "AAPL"; EvDownload "AAPL"]).
Proof. split; vm_compute; reflexivity. Qed.

(** C5, as stated, fails: a [KeyError], which is no network or timeout
    condition, is not propagated; the fetch sleeps 2 seconds, downloads
    again and returns the data. *)
Lemma erro_qualquer_e_tentado_de_novo :
  is_network (KeyError "Close") = false
  /\ obter_dados_ativo None yf_erro_depois_dados "AAPL" 0%Z 10%Z mundo_inicial
     = (Return quadro_exemplo,
        mkMundo 2 [EvDownload "AAPL"; EvSleep 2; EvDownload "AAPL"]).
Proof. split; vm_compute; reflexivity. Qed.

(** Whatever the feed does, the loop only adds to the effects so far, and
    leaves with a non-empty frame or exhausted. *)
Lemma laco_tentativas_rastro yf ticker tentativas :
  forall indices ultimo w,
    exists extra,
      rastro (snd (laco_tentativas yf ticker tentativas indices ultimo w))
      = rastro w ++ extra.
Proof.
  induction indices as [| t resto IH]; intros ultimo w; cbn [laco_tentativas].
  - exists []. now rewrite app_nil_r.
  - destruct (yf (chamadas w)) as [dados | e].
    + destruct (negb (empty dados)).
      * exists [EvDownload ticker]. reflexivity.
      * destruct (IH ultimo (apos_download ticker w)) as (extra & ->).
        exists (EvDownload ticker :: extra). cbn. now rewrite <- app_assoc.
    + destruct (t <? tentativas - 1)%Z.
      * destruct (IH (Some (str_exn e)) (apos_sleep 2 (apos_download ticker w)))
          as (extra & ->).
        exists (EvDownload ticker :: EvSleep 2 :: extra). cbn.
        now rewrite <- !app_assoc.
      * exists [EvDownload ticker]. reflexivity.
Qed.

Lemma laco_tentativas_saida yf ticker tentativas :
  forall indices ultimo w,
    (exists d, fst (laco_tentativas yf ticker tentativas indices ultimo w) = Retornou d
               /\ empty d = false)
    \/ (exists u, fst (laco_tentativas yf ticker tentativas indices ultimo w) = Esgotou u).
Proof.
  induction indices as [| t resto IH]; intros ultimo w; cbn [laco_tentativas].
  - right. exists ultimo. reflexivity.
  - destruct (yf (chamadas w)) as [dados | e].
    + destruct (empty dados) eqn:E; cbn [negb]; [apply IH |].
      left. exists dados. split; [reflexivity | exact E].
    + destruct (t <? tentativas - 1)%Z; [apply IH |].
      right. eexists. reflexivity.
Qed.

(** The outcome of a market fetch: data, or the [ValueError] of the outer
    handler, whose message depends on the ticker alone. *)
Lemma obter_dados_ativo_saida rf yf ticker di df w :
  startswith "RF-" ticker = false ->
  (exists d, fst (obter_dados_ativo rf yf ticker di df w) = Return d
             /\ empty d = false)
  \/ fst (obter_dados_ativo rf yf ticker di df w)
     = Raise (ValueError (mensagem_final ticker (msg_sem_dados ticker))).
Proof.
  intros Hrf. unfold obter_dados_ativo. rewrite Hrf. cbv zeta.
  destruct (laco_tentativas_saida yf ticker 3 (range 3) None w)
    as [(d & Hd & He) | (u & Hu)];
    destruct (laco_tentativas yf ticker 3 (range 3) None w) as [s w'];
    cbn [fst] in *; subst s; cbn [fst]; eauto.
Qed.

Lemma obter_dados_ativo_mundo rf yf ticker di df w :
  startswith "RF-" ticker = false ->
  snd (obter_dados_ativo rf yf ticker di df w)
  = snd (laco_tentativas yf ticker 3 [0; 1; 2]%Z None w).
Proof.
  intros Hrf. unfold obter_dados_ativo. rewrite Hrf. cbv zeta.
  change (range 3) with [0; 1; 2]%Z.
  now destruct (laco_tentativas yf ticker 3 [0; 1; 2]%Z None w) as [[d | u] w'].
Qed.

Lemma laco_tentativas_cons yf ticker tentativas t resto ultimo w :
  laco_tentativas yf ticker tentativas (t :: resto) ultimo w
  = match yf (chamadas w) with
    | RespDados dados =>
        if negb (empty dados) then (Retornou dados, apos_download ticker w)
        else laco_tentativas yf ticker tentativas resto ultimo
                             (apos_download ticker w)
    | RespErro e =>
        if (t <? tentativas - 1)%Z then
          laco_tentativas yf ticker tentativas resto (Some (str_exn e))
                          (apos_sleep 2 (apos_download ticker w))
        else (Esgotou (Some (str_exn e)), apos_download ticker w)
    end.
Proof. reflexivity. Qed.

(** Every iteration starts with a download. *)
Lemma laco_comeca_com_download yf ticker tentativas t resto ultimo w :
  exists extra,
    rastro (snd (laco_tentativas yf ticker tentativas (t :: resto) ultimo w))
    = rastro w ++ EvDownload ticker :: extra.
Proof.
  cbn [laco_tentativas].
  destruct (yf (chamadas w)) as [dados | e].
  - destruct (negb (empty dados)).
    + exists []. reflexivity.
    + destruct (laco_tentativas_rastro yf ticker tentativas resto ultimo
                  (apos_download ticker w)) as (extra & ->).
      exists extra. cbn. now rewrite <- app_assoc.
  - destruct (t <? tentativas - 1)%Z.
    + destruct (laco_tentativas_rastro yf ticker tentativas resto
                  (Some (str_exn e)) (apos_sleep 2 (apos_download ticker w)))
        as (extra & ->).
      exists (EvSleep 2 :: extra). cbn. now rewrite <- !app_assoc.
    + exists []. reflexivity.
Qed.

Ltac normaliza_rastro :=
  unfold apos_download, apos_sleep;
  cbn [negb laco_tentativas str_exn rastro chamadas Nat.add fst snd];
  repeat rewrite <- app_assoc; cbn [app]; reflexivity.

(** *** Every attempt, whatever came before it *)

(** The answer is a frame with data. *)
Definition com_dados (r : resposta) : bool :=
  match r with
  | RespDados dados => negb (empty dados)
  | RespErro _ => false
  end.

(** The downloads among some events. *)
Definition downloads_de (r : list evento) : nat :=
  List.length (filter (fun ev => match ev with
                                 | EvDownload _ => true
                                 | EvSleep _ => false
                                 end) r).

Lemma obter_dados_ativo_forma rf yf ticker di df w :
  startswith "RF-" ticker = false ->
  obter_dados_ativo rf yf ticker di df w
  = match laco_tentativas yf ticker 3 [0; 1; 2]%Z None w with
    | (Retornou dados, w') => (Return dados, w')
    | (Esgotou _, w') =>
        (Raise (ValueError (mensagem_final ticker (msg_sem_dados ticker))), w')
    end.
Proof. intros Hrf. unfold obter_dados_ativo. now rewrite Hrf. Qed.

(** When none of the first [k] answers has data, the loop reaches its
    attempt number [k] after [k] downloads. *)
Lemma chega_a_tentativa yf ticker w (k : nat) :
  (k < 3)%nat ->
  (forall j, (j < k)%nat -> com_dados (yf (chamadas w + j)%nat) = false) ->
  exists antes u,
    laco_tentativas yf ticker 3 [0; 1; 2]%Z None w
    = laco_tentativas yf ticker 3 (skipn k [0; 1; 2]%Z) u
        (mkMundo (chamadas w + k) (rastro w ++ antes))
    /\ downloads_de antes = k.
Proof.
  intros Hk Hant.
  assert (Hpasso : forall t resto u w0,
             (t < 2)%Z -> com_dados (yf (chamadas w0)) = false ->
             exists ev u',
               laco_tentativas yf ticker 3 (t :: resto) u w0
               = laco_tentativas yf ticker 3 resto u'
                   (mkMundo (S (chamadas w0)) (rastro w0 ++ ev))
               /\ downloads_de ev = 1%nat).
  { intros t resto u w0 Ht Hsem. rewrite laco_tentativas_cons.
    destruct (yf (chamadas w0)) as [d | e]; cbn [com_dados] in Hsem.
    - rewrite Hsem. exists [EvDownload ticker], u. split; reflexivity.
    - assert (E : (t <? 3 - 1)%Z = true) by (apply Z.ltb_lt; lia). rewrite E.
      exists [EvDownload ticker; EvSleep 2], (Some (str_exn e)).
      split; [| reflexivity]. unfold apos_sleep, apos_download.
      cbn [chamadas rastro]. now rewrite <- app_assoc. }
  destruct k as [| [| [| k]]]; [| | | lia].
  - exists [], None. split; [| reflexivity].
    rewrite Nat.add_0_r, app_nil_r. now destruct w.
  - destruct (Hpasso 0%Z [1; 2]%Z None w) as (ev & u & Heq & Hev); [lia | |].
    { rewrite <- (Nat.add_0_r (chamadas w)). apply Hant. lia. }
    exists ev, u. rewrite Heq, Nat.add_1_r. split; [reflexivity | exact Hev].
  - destruct (Hpasso 0%Z [1; 2]%Z None w) as (ev & u & Heq & Hev); [lia | |].
    { rewrite <- (Nat.add_0_r (chamadas w)). apply Hant. lia. }
    destruct (Hpasso 1%Z [2%Z] u (mkMundo (S (chamadas w)) (rastro w ++ ev)))
      as (ev' & u' & Heq' & Hev'); [lia | |].
    { cbn [chamadas]. rewrite <- Nat.add_1_r. apply Hant. lia. }
    exists (ev ++ ev'), u'. rewrite Heq, Heq'. cbn [chamadas rastro skipn].
    rewrite <- app_assoc.
    replace (chamadas w + 2)%nat with (S (S (chamadas w))) by lia.
    split; [reflexivity |].
    unfold downloads_de in *. rewrite filter_app, length_app. lia.
Qed.

(** What attempt number [k] does, once reached: it downloads; an answer
    with data ends the fetch; an empty answer is followed at once by the
    next download, and an exception by a sleep of 2 seconds and the next
    download, unless the attempt was the third, which ends the fetch
    with the [ValueError]. *)
Lemma cada_tentativa rf yf ticker di df w (k : nat) :
  startswith "RF-" ticker = false ->
  (k < 3)%nat ->
  (forall j, (j < k)%nat -> com_dados (yf (chamadas w + j)%nat) = false) ->
  exists antes depois,
    rastro (snd (obter_dados_ativo rf yf ticker di df w))
    = rastro w ++ antes ++ EvDownload ticker :: depois
    /\ downloads_de antes = k
    /\ match yf (chamadas w + k)%nat with
       | RespDados dados =>
           if empty dados then
             if (k <? 2)%nat
             then exists resto, depois = EvDownload ticker :: resto
             else depois = []
                  /\ fst (obter_dados_ativo rf yf ticker di df w)
                     = Raise (ValueError
                                (mensagem_final ticker (msg_sem_dados ticker)))
           else depois = []
                /\ fst (obter_dados_ativo rf yf ticker di df w) = Return dados
       | RespErro _ =>
           if (k <? 2)%nat
           then exists resto, depois = EvSleep 2 :: EvDownload ticker :: resto
           else depois = []
                /\ fst (obter_dados_ativo rf yf ticker di df w)
                   = Raise (ValueError
                              (mensagem_final ticker (msg_sem_dados ticker)))
       end.
Proof.
  intros Hrf Hk Hant.
  destruct (@chega_a_tentativa yf ticker w k Hk Hant) as (antes & u & Heq & Hantes).
  rewrite (@obter_dados_ativo_forma rf yf ticker di df w Hrf), Heq.
  exists antes.
  set (wk := mkMundo (chamadas w + k) (rastro w ++ antes)).
  assert (Hskip : exists resto, skipn k [0; 1; 2]%Z = Z.of_nat k :: resto
                                /\ ((k <? 2)%nat = true ->
                                    exists t resto', resto = t :: resto')
                                /\ ((k <? 2)%nat = false -> resto = [])).
  { destruct k as [| [| [| k]]]; [| | | lia]; cbn; eexists; split;
      try reflexivity; split; intros; try discriminate; eauto. }
  destruct Hskip as (resto & -> & Hmais & Hfim).
  rewrite laco_tentativas_cons. change (chamadas wk) with (chamadas w + k)%nat.
  destruct (yf (chamadas w + k)%nat) as [d | e].
  - destruct (empty d) eqn:Ed; cbn [negb].
    + destruct (k <? 2)%nat eqn:Ek.
      * destruct (Hmais eq_refl) as (t & resto' & ->).
        destruct (laco_comeca_com_download yf ticker 3 t resto' u
                    (apos_download ticker wk)) as (extra & Hextra).
        exists (EvDownload ticker :: extra).
        split; [| split; [exact Hantes | eauto]].
        destruct (laco_tentativas yf ticker 3 (t :: resto') u
                    (apos_download ticker wk)) as [[d' | u'] w'];
          cbn [snd] in *; rewrite Hextra; unfold wk; cbn [rastro apos_download];
          now rewrite <- !app_assoc.
      * rewrite (Hfim eq_refl). cbn [laco_tentativas fst snd].
        exists []. split; [| split; [exact Hantes | split; reflexivity]].
        unfold wk. cbn [rastro apos_download]. now rewrite <- app_assoc.
    + exists []. cbn [fst snd].
      split; [| split; [exact Hantes | split; reflexivity]].
      unfold wk. cbn [rastro apos_download]. now rewrite <- app_assoc.
  - destruct (k <? 2)%nat eqn:Ek.
    + assert (E : (Z.of_nat k <? 3 - 1)%Z = true)
        by (apply Z.ltb_lt; apply Nat.ltb_lt in Ek; lia).
      rewrite E. destruct (Hmais eq_refl) as (t & resto' & ->).
      destruct (laco_comeca_com_download yf ticker 3 t resto' (Some (str_exn e))
                  (apos_sleep 2 (apos_download ticker wk))) as (extra & Hextra).
      exists (EvSleep 2 :: EvDownload ticker :: extra).
      split; [| split; [exact Hantes | eauto]].
      destruct (laco_tentativas yf ticker 3 (t :: resto') (Some (str_exn e))
                  (apos_sleep 2 (apos_download ticker wk))) as [[d' | u'] w'];
        cbn [snd] in *; rewrite Hextra; unfold wk;
        cbn [rastro apos_download apos_sleep]; now rewrite <- !app_assoc.
    + assert (E : (Z.of_nat k <? 3 - 1)%Z = false)
        by (apply Z.ltb_ge; apply Nat.ltb_ge in Ek; lia).
      rewrite E. cbn [fst snd].
      exists []. split; [| split; [exact Hantes | split; reflexivity]].
      unfold wk. cbn [rastro apos_download]. now rewrite <- app_assoc.
Qed.

(** C4 (amended): for a market identifier, the fetch ends with data or
    with a [ValueError] (NotFound-style), never with another exception;
    an empty but successful response does not end it: the next attempt
    follows at once, without sleep, up to 3 attempts; when all 3 attempts
    come back empty it fails with that [ValueError] after exactly 3
    downloads.  The last two clauses say it of every attempt, whatever
    came before it (empty responses or exceptions): the download of an
    empty first or second answer is followed at once by the next
    download, and an empty third answer ends the fetch with the
    [ValueError]. *)
Theorem resposta_vazia_segue_tentando
        (rf : option (string -> date -> date -> result DataFrame))
        (yf : nat -> resposta) (ticker : string) (di df : date) (w : Mundo) :
  startswith "RF-" ticker = false ->
  ((exists d, fst (obter_dados_ativo rf yf ticker di df w) = Return d
              /\ empty d = false)
   \/ fst (obter_dados_ativo rf yf ticker di df w)
      = Raise (ValueError (mensagem_final ticker (msg_sem_dados ticker))))
  /\ (forall d0,
        yf (chamadas w) = RespDados d0 -> empty d0 = true ->
        exists resto,
          rastro (snd (obter_dados_ativo rf yf ticker di df w))
          = rastro w ++ EvDownload ticker :: EvDownload ticker :: resto)
  /\ (forall d0 d1,
        yf (chamadas w) = RespDados d0 -> empty d0 = true ->
        yf (S (chamadas w)) = RespDados d1 -> empty d1 = true ->
        exists resto,
          rastro (snd (obter_dados_ativo rf yf ticker di df w))
          = rastro w ++ EvDownload ticker :: EvDownload ticker
                     :: EvDownload ticker :: resto)
  /\ (forall d0 d1 d2,
        yf (chamadas w) = RespDados d0 -> empty d0 = true ->
        yf (S (chamadas w)) = RespDados d1 -> empty d1 = true ->
        yf (S (S (chamadas w))) = RespDados d2 -> empty d2 = true ->
        obter_dados_ativo rf yf ticker di df w
        = (Raise (ValueError (mensagem_final ticker (msg_sem_dados ticker))),
           mkMundo (3 + chamadas w)
                   (rastro w ++ [EvDownload ticker; EvDownload ticker;
                                 EvDownload ticker])))
  /\ (forall k dados,
        (k < 2)%nat ->
        (forall j, (j < k)%nat -> com_dados (yf (chamadas w + j)%nat) = false) ->
        yf (chamadas w + k)%nat = RespDados dados -> empty dados = true ->
        exists antes resto,
          rastro (snd (obter_dados_ativo rf yf ticker di df w))
          = rastro w ++ antes ++ EvDownload ticker :: EvDownload ticker :: resto
          /\ downloads_de antes = k)
  /\ (forall dados,
        (forall j, (j < 2)%nat -> com_dados (yf (chamadas w + j)%nat) = false) ->
        yf (chamadas w + 2)%nat = RespDados dados -> empty dados = true ->
        fst (obter_dados_ativo rf yf ticker di df w)
        = Raise (ValueError (mensagem_final ticker (msg_sem_dados ticker)))
        /\ exists antes,
             rastro (snd (obter_dados_ativo rf yf ticker di df w))
             = rastro w ++ antes ++ [EvDownload ticker]
             /\ downloads_de antes = 2%nat).
Proof.
  intros Hrf. split; [now apply obter_dados_ativo_saida |].
  split; [| split; [| split; [| split]]].
  - intros d0 H0 E0. rewrite obter_dados_ativo_mundo by exact Hrf.
    rewrite laco_tentativas_cons, H0, E0. cbn [negb].
    destruct (laco_comeca_com_download yf ticker 3 1%Z [2%Z] None
                (apos_download ticker w)) as (extra & ->).
    exists extra. normaliza_rastro.
  - intros d0 d1 H0 E0 H1 E1. rewrite obter_dados_ativo_mundo by exact Hrf.
    rewrite laco_tentativas_cons, H0, E0. cbn [negb].
    rewrite laco_tentativas_cons. cbn [apos_download chamadas].
    rewrite H1, E1. cbn [negb].
    match goal with
    | |- context [laco_tentativas yf ticker 3 [2%Z] None ?w1] =>
        destruct (laco_comeca_com_download yf ticker 3 2%Z [] None w1)
          as (extra & ->)
    end.
    exists extra. normaliza_rastro.
  - intros d0 d1 d2 H0 E0 H1 E1 H2 E2.
    unfold obter_dados_ativo. rewrite Hrf. cbv zeta.
    change (range 3) with [0; 1; 2]%Z.
    rewrite laco_tentativas_cons, H0, E0. cbn [negb].
    rewrite laco_tentativas_cons. cbn [apos_download chamadas].
    rewrite H1, E1. cbn [negb].
    rewrite laco_tentativas_cons. cbn [apos_download chamadas].
    rewrite H2, E2. normaliza_rastro.
  - intros k dados Hk Hant Hyf Hvazio.
    destruct (@cada_tentativa rf yf ticker di df w k Hrf) as
      (antes & depois & Hr & Hn & Hdep); [lia | exact Hant |].
    rewrite Hyf, Hvazio in Hdep.
    apply Nat.ltb_lt in Hk. rewrite Hk in Hdep. destruct Hdep as (resto & ->).
    exists antes, resto. split; [exact Hr | exact Hn].
  - intros dados Hant Hyf Hvazio.
    destruct (@cada_tentativa rf yf ticker di df w 2 Hrf) as
      (antes & depois & Hr & Hn & Hdep); [lia | exact Hant |].
    rewrite Hyf, Hvazio in Hdep. cbn [Nat.ltb Nat.leb] in Hdep.
    destruct Hdep as (-> & Hfst).
    split; [exact Hfst |]. exists antes. split; [exact Hr | exact Hn].
Qed.

Lemma resposta_vazia_segue_tentando_witness :
  ((exists d, fst (obter_dados_ativo None yf_sempre_vazio "AAPL" 0%Z 10%Z mundo_inicial)
              = Return d /\ empty d = false)
   \/ fst (obter_dados_ativo None yf_sempre_vazio "AAPL" 0%Z 10%Z mundo_inicial)
      = Raise (ValueError (mensagem_final "AAPL" (msg_sem_dados "AAPL"))))
  /\ (forall d0,
        yf_sempre_vazio (chamadas mundo_inicial) = RespDados d0 -> empty d0 = true ->
        exists resto,
          rastro (snd (obter_dados_ativo None yf_sempre_vazio "AAPL" 0%Z 10%Z
                         mundo_inicial))
          = rastro mundo_inicial ++ EvDownload "AAPL" :: EvDownload "AAPL" :: resto)
  /\ (forall d0 d1,
        yf_sempre_vazio (chamadas mundo_inicial) = RespDados d0 -> empty d0 = true ->
        yf_sempre_vazio (S (chamadas mundo_inicial)) = RespDados d1 ->
        empty d1 = true ->
        exists resto,
          rastro (snd (obter_dados_ativo None yf_sempre_vazio "AAPL" 0%Z 10%Z
                         mundo_inicial))
          = rastro mundo_inicial ++ EvDownload "AAPL" :: EvDownload "AAPL"
                     :: EvDownload "AAPL" :: resto)
  /\ (forall d0 d1 d2,
        yf_sempre_vazio (chamadas mundo_inicial) = RespDados d0 -> empty d0 = true ->
        yf_sempre_vazio (S (chamadas mundo_inicial)) = RespDados d1 ->
        empty d1 = true ->
        yf_sempre_vazio (S (S (chamadas mundo_inicial))) = RespDados d2 ->
        empty d2 = true ->
        obter_dados_ativo None yf_sempre_vazio "AAPL" 0%Z 10%Z mundo_inicial
        = (Raise (ValueError (mensagem_final "AAPL" (msg_sem_dados "AAPL"))),
           mkMundo (3 + chamadas mundo_inicial)
                   (rastro mundo_inicial ++ [EvDownload "AAPL"; EvDownload "AAPL";
                                             EvDownload "AAPL"])))
  /\ (forall k dados,
        (k < 2)%nat ->
        (forall j, (j < k)%nat ->
           com_dados (yf_sempre_vazio (chamadas mundo_inicial + j)%nat) = false) ->
        yf_sempre_vazio (chamadas mundo_inicial + k)%nat = RespDados dados ->
        empty dados = true ->
        exists antes resto,
          rastro (snd (obter_dados_ativo None yf_sempre_vazio "AAPL" 0%Z 10%Z
                         mundo_inicial))
          = rastro mundo_inicial
            ++ antes ++ EvDownload "AAPL" :: EvDownload "AAPL" :: resto
          /\ downloads_de antes = k)
  /\ (forall dados,
        (forall j, (j < 2)%nat ->
           com_dados (yf_sempre_vazio (chamadas mundo_inicial + j)%nat) = false) ->
        yf_sempre_vazio (chamadas mundo_inicial + 2)%nat = RespDados dados ->
        empty dados = true ->
        fst (obter_dados_ativo None yf_sempre_vazio "AAPL" 0%Z 10%Z mundo_inicial)
        = Raise (ValueError (mensagem_final "AAPL" (msg_sem_dados "AAPL")))
        /\ exists antes,
             rastro (snd (obter_dados_ativo None yf_sempre_vazio "AAPL" 0%Z 10%Z
                            mundo_inicial))
             = rastro mundo_inicial ++ antes ++ [EvDownload "AAPL"]
             /\ downloads_de antes = 2%nat).
Proof.
  apply (@resposta_vazia_segue_tentando None yf_sempre_vazio "AAPL" 0%Z 10%Z
           mundo_inicial).
  reflexivity.
Defined.

(** An exception first, then an empty answer, then data: the second
    download is followed at once by the third, without sleep. *)
Definition yf_erro_vazio_dados (n : nat) : resposta :=
  match n with
  | O => RespErro (TimeoutError "timeout")
  | S O => RespDados empty_frame
  | _ => RespDados quadro_exemplo
  end.

Example vazio_depois_de_erro :
  obter_dados_ativo None yf_erro_vazio_dados "AAPL" 0%Z 10%Z mundo_inicial
  = (Return quadro_exemplo,
     mkMundo 3 [EvDownload "AAPL"; EvSleep 2; EvDownload "AAPL"; EvDownload "AAPL"]).
Proof. vm_compute. reflexivity. Qed.

Example tres_vazias :
  obter_dados_ativo None yf_sempre_vazio "AAPL" 0%Z 10%Z mundo_inicial
  = (Raise (ValueError "❌ Erro ao obter dados para 'AAPL': Ticker 'AAPL' não encontrado ou sem dados disponíveis"),
     mkMundo 3 [EvDownload "AAPL"; EvDownload "AAPL"; EvDownload "AAPL"]).
Proof. vm_compute. reflexivity. Qed.

(** C5 (amended): an exception raised during a fetch attempt is never
    propagated, whatever its kind: after the first or the second attempt
    the fetcher sleeps a fixed 2 seconds and tries again, after the third
    it stops; the fetch then ends with the data of a later attempt or
    with the [ValueError] of the outer handler.  The last two clauses say
    it of every attempt, whatever came before it (empty responses or
    exceptions): the download of a first or second attempt that raises is
    followed by a sleep of 2 seconds and the next download, and a third
    attempt that raises ends the fetch, without sleep, with the
    [ValueError]. *)
Theorem excecao_sempre_repetida
        (rf : option (string -> date -> date -> result DataFrame))
        (yf : nat -> resposta) (ticker : string) (di df : date) (w : Mundo) :
  startswith "RF-" ticker = false ->
  ((exists d, fst (obter_dados_ativo rf yf ticker di df w) = Return d
              /\ empty d = false)
   \/ fst (obter_dados_ativo rf yf ticker di df w)
      = Raise (ValueError (mensagem_final ticker (msg_sem_dados ticker))))
  /\ (forall e,
        yf (chamadas w) = RespErro e ->
        (exists resto,
           rastro (snd (obter_dados_ativo rf yf ticker di df w))
           = rastro w ++ EvDownload ticker :: EvSleep 2 :: EvDownload ticker :: resto)
        /\ (forall e1,
              yf (S (chamadas w)) = RespErro e1 ->
              exists resto,
                rastro (snd (obter_dados_ativo rf yf ticker di df w))
                = rastro w ++ EvDownload ticker :: EvSleep 2
                           :: EvDownload ticker :: EvSleep 2
                           :: EvDownload ticker :: resto)
        /\ (forall e1 e2,
              yf (S (chamadas w)) = RespErro e1 ->
              yf (S (S (chamadas w))) = RespErro e2 ->
              obter_dados_ativo rf yf ticker di df w
              = (Raise (ValueError (mensagem_final ticker (msg_sem_dados ticker))),
                 mkMundo (3 + chamadas w)
                         (rastro w ++ [EvDownload ticker; EvSleep 2;
                                       EvDownload ticker; EvSleep 2;
                                       EvDownload ticker]))))
  /\ (forall k e,
        (k < 2)%nat ->
        (forall j, (j < k)%nat -> com_dados (yf (chamadas w + j)%nat) = false) ->
        yf (chamadas w + k)%nat = RespErro e ->
        exists antes resto,
          rastro (snd (obter_dados_ativo rf yf ticker di df w))
          = rastro w ++ antes ++ EvDownload ticker :: EvSleep 2
                     :: EvDownload ticker :: resto
          /\ downloads_de antes = k)
  /\ (forall e,
        (forall j, (j < 2)%nat -> com_dados (yf (chamadas w + j)%nat) = false) ->
        yf (chamadas w + 2)%nat = RespErro e ->
        fst (obter_dados_ativo rf yf ticker di df w)
        = Raise (ValueError (mensagem_final ticker (msg_sem_dados ticker)))
        /\ exists antes,
             rastro (snd (obter_dados_ativo rf yf ticker di df w))
             = rastro w ++ antes ++ [EvDownload ticker]
             /\ downloads_de antes = 2%nat).
Proof.
  intros Hrf. split; [now apply obter_dados_ativo_saida |].
  split; [| split].
  - intros e H0. split; [| split].
    + rewrite obter_dados_ativo_mundo by exact Hrf.
      rewrite laco_tentativas_cons, H0.
      change (0 <? 3 - 1)%Z with true. cbv iota.
      match goal with
      | |- context [laco_tentativas yf ticker 3 [1%Z; 2%Z] ?u ?w1] =>
          destruct (laco_comeca_com_download yf ticker 3 1%Z [2%Z] u w1)
            as (extra & ->)
      end.
      exists extra. normaliza_rastro.
    + intros e1 H1. rewrite obter_dados_ativo_mundo by exact Hrf.
      rewrite laco_tentativas_cons, H0.
      change (0 <? 3 - 1)%Z with true. cbv iota.
      rewrite laco_tentativas_cons. cbn [apos_sleep apos_download chamadas].
      rewrite H1. change (1 <? 3 - 1)%Z with true. cbv iota.
      match goal with
      | |- context [laco_tentativas yf ticker 3 [2%Z] ?u ?w1] =>
          destruct (laco_comeca_com_download yf ticker 3 2%Z [] u w1)
            as (extra & ->)
      end.
      exists extra. normaliza_rastro.
    + intros e1 e2 H1 H2.
      unfold obter_dados_ativo. rewrite Hrf. cbv zeta.
      change (range 3) with [0; 1; 2]%Z.
      rewrite laco_tentativas_cons, H0.
      change (0 <? 3 - 1)%Z with true. cbv iota.
      rewrite laco_tentativas_cons. cbn [apos_sleep apos_download chamadas].
      rewrite H1. change (1 <? 3 - 1)%Z with true. cbv iota.
      rewrite laco_tentativas_cons. cbn [apos_sleep apos_download chamadas].
      rewrite H2. change (2 <? 3 - 1)%Z with false. cbv iota.
      normaliza_rastro.
  - intros k e Hk Hant Hyf.
    destruct (@cada_tentativa rf yf ticker di df w k Hrf) as
      (antes & depois & Hr & Hn & Hdep); [lia | exact Hant |].
    rewrite Hyf in Hdep.
    apply Nat.ltb_lt in Hk. rewrite Hk in Hdep. destruct Hdep as (resto & ->).
    exists antes, resto. split; [exact Hr | exact Hn].
  - intros e Hant Hyf.
    destruct (@cada_tentativa rf yf ticker di df w 2 Hrf) as
      (antes & depois & Hr & Hn & Hdep); [lia | exact Hant |].
    rewrite Hyf in Hdep. cbn [Nat.ltb Nat.leb] in Hdep.
    destruct Hdep as (-> & Hfst).
    split; [exact Hfst |]. exists antes. split; [exact Hr | exact Hn].
Qed.

Lemma excecao_sempre_repetida_witness :
  ((exists d, fst (obter_dados_ativo None yf_sempre_erro "AAPL" 0%Z 10%Z mundo_inicial)
              = Return d /\ empty d = false)
   \/ fst (obter_dados_ativo None yf_sempre_erro "AAPL" 0%Z 10%Z mundo_inicial)
      = Raise (ValueError (mensagem_final "AAPL" (msg_sem_dados "AAPL"))))
  /\ (forall e,
        yf_sempre_erro (chamadas mundo_inicial) = RespErro e ->
        (exists resto,
           rastro (snd (obter_dados_ativo None yf_sempre_erro "AAPL" 0%Z 10%Z
                          mundo_inicial))
           = rastro mundo_inicial
             ++ EvDownload "AAPL" :: EvSleep 2 :: EvDownload "AAPL" :: resto)
        /\ (forall e1,
              yf_sempre_erro (S (chamadas mundo_inicial)) = RespErro e1 ->
              exists resto,
                rastro (snd (obter_dados_ativo None yf_sempre_erro "AAPL" 0%Z 10%Z
                               mundo_inicial))
                = rastro mundo_inicial
                  ++ EvDownload "AAPL" :: EvSleep 2
                     :: EvDownload "AAPL" :: EvSleep 2
                     :: EvDownload "AAPL" :: resto)
        /\ (forall e1 e2,
              yf_sempre_erro (S (chamadas mundo_inicial)) = RespErro e1 ->
              yf_sempre_erro (S (S (chamadas mundo_inicial))) = RespErro e2 ->
              obter_dados_ativo None yf_sempre_erro "AAPL" 0%Z 10%Z mundo_inicial
              = (Raise (ValueError (mensagem_final "AAPL" (msg_sem_dados "AAPL"))),
                 mkMundo (3 + chamadas mundo_inicial)
                         (rastro mundo_inicial
                          ++ [EvDownload "AAPL"; EvSleep 2;
                              EvDownload "AAPL"; EvSleep 2;
                              EvDownload "AAPL"]))))
  /\ (forall k e,
        (k < 2)%nat ->
        (forall j, (j < k)%nat ->
           com_dados (yf_sempre_erro (chamadas mundo_inicial + j)%nat) = false) ->
        yf_sempre_erro (chamadas mundo_inicial + k)%nat = RespErro e ->
        exists antes resto,
          rastro (snd (obter_dados_ativo None yf_sempre_erro "AAPL" 0%Z 10%Z
                         mundo_inicial))
          = rastro mundo_inicial
            ++ antes ++ EvDownload "AAPL" :: EvSleep 2
               :: EvDownload "AAPL" :: resto
          /\ downloads_de antes = k)
  /\ (forall e,
        (forall j, (j < 2)%nat ->
           com_dados (yf_sempre_erro (chamadas mundo_inicial + j)%nat) = false) ->
        yf_sempre_erro (chamadas mundo_inicial + 2)%nat = RespErro e ->
        fst (obter_dados_ativo None yf_sempre_erro "AAPL" 0%Z 10%Z mundo_inicial)
        = Raise (ValueError (mensagem_final "AAPL" (msg_sem_dados "AAPL")))
        /\ exists antes,
             rastro (snd (obter_dados_ativo None yf_sempre_erro "AAPL" 0%Z 10%Z
                            mundo_inicial))
             = rastro mundo_inicial ++ antes ++ [EvDownload "AAPL"]
             /\ downloads_de antes = 2%nat).
Proof.
  apply (@excecao_sempre_repetida None yf_sempre_erro "AAPL" 0%Z 10%Z mundo_inicial).
  reflexivity.
Defined.

(** An empty answer first, then an exception, then data: the exception
    of the second attempt is followed by a sleep and the third download. *)
Definition yf_vazio_erro_dados (n : nat) : resposta :=
  match n with
  | O => RespDados empty_frame
  | S O => RespErro (KeyError "Close")
  | _ => RespDados quadro_exemplo
  end.

Example erro_depois_de_vazio :
  obter_dados_ativo None yf_vazio_erro_dados "AAPL" 0%Z 10%Z mundo_inicial
  = (Return quadro_exemplo,
     mkMundo 3 [EvDownload "AAPL"; EvDownload "AAPL"; EvSleep 2; EvDownload "AAPL"]).
Proof. vm_compute. reflexivity. Qed.

End FetcherSpec.

(** ** The currency normalizer *)
Module NormalizadorSpec.
Import Py Pandas ComparacaoAtivos.
Local Open Scope float_scope.

(** *** Forward then backward fill, in the words of the design *)

Definition conhecida (x : float) : bool := negb (is_nan x).

(** The last known rate at or before position [j]. *)
Definition ultima_conhecida (xs : list float) (j : nat) : option float :=
  find conhecida (rev (firstn (S j) xs)).

(** The first known rate of the series. *)
Definition primeira_conhecida (xs : list float) : option float :=
  find conhecida xs.

(** The rate at position [j]: the last known rate propagated forward;
    in the leading gap, the first known rate; NaN when none is known. *)
Definition taxa_preenchida (xs : list float) (j : nat) : float :=
  match ultima_conhecida xs j with
  | Some v => v
  | None =>
      match primeira_conhecida xs with
      | Some v => v
      | None => nan
      end
  end.

Lemma find_snoc {A} (f : A -> bool) (l : list A) (x : A) :
  find f (l ++ [x])
  = match find f l with
    | Some v => Some v
    | None => if f x then Some x else None
    end.
Proof.
  induction l as [| y l IH]; cbn; [reflexivity |].
  destruct (f y); auto.
Qed.

Lemma ultima_conhecida_0 x r :
  ultima_conhecida (x :: r) 0 = if conhecida x then Some x else None.
Proof. reflexivity. Qed.

Lemma ultima_conhecida_S x r j :
  ultima_conhecida (x :: r) (S j)
  = match ultima_conhecida r j with
    | Some v => Some v
    | None => if conhecida x then Some x else None
    end.
Proof.
  unfold ultima_conhecida.
  change (firstn (S (S j)) (x :: r)) with (x :: firstn (S j) r).
  cbn [rev]. apply find_snoc.
Qed.

Lemma ffill_desde_nth :
  forall xs u j, (j < List.length xs)%nat ->
    nth j (ffill_desde u xs) nan
    = match ultima_conhecida xs j with Some v => v | None => u end.
Proof.
  induction xs as [| x r IH]; intros u j Hj; [cbn in Hj; lia |].
  cbn [ffill_desde]. destruct j as [| j].
  - rewrite ultima_conhecida_0. unfold conhecida.
    destruct (is_nan x); reflexivity.
  - rewrite ultima_conhecida_S. unfold conhecida. cbn in Hj.
    destruct (is_nan x) eqn:E; cbn [nth negb]; rewrite IH by lia;
      destruct (ultima_conhecida r j); reflexivity.
Qed.

Lemma ffill_desde_conhecidas :
  forall xs u, is_nan u = false ->
    Forall (fun y => is_nan y = false) (ffill_desde u xs).
Proof.
  induction xs as [| x r IH]; intros u Hu; cbn; [constructor |].
  destruct (is_nan x) eqn:E; constructor; auto.
Qed.

Lemma bfill_conhecidas ys :
  Forall (fun y => is_nan y = false) ys -> bfill ys = ys.
Proof.
  induction 1 as [| y ys Hy Hys IH]; cbn; [reflexivity |].
  now rewrite Hy, IH.
Qed.

Lemma bfill_length xs : List.length (bfill xs) = List.length xs.
Proof.
  induction xs as [| x r IH]; cbn; [reflexivity |].
  destruct (is_nan x); cbn; now rewrite IH.
Qed.

Lemma ffill_desde_length xs : forall u, List.length (ffill_desde u xs) = List.length xs.
Proof.
  induction xs as [| x r IH]; intros u; cbn; [reflexivity |].
  destruct (is_nan x); cbn; now rewrite IH.
Qed.

Lemma ultima_conhecida_achada xs j v :
  ultima_conhecida xs j = Some v -> is_nan v = false.
Proof.
  unfold ultima_conhecida. intros H. apply find_some in H as [_ H].
  unfold conhecida in H. now destruct (is_nan v).
Qed.

(** [ffill] then [bfill] computes the rate of the design at every
    position. *)
Lemma preenchimento_spec :
  forall xs j, (j < List.length xs)%nat ->
    nth j (bfill (ffill xs)) nan = taxa_preenchida xs j.
Proof.
  unfold ffill.
  induction xs as [| x r IH]; intros j Hj; [cbn in Hj; lia |].
  cbn [ffill_desde]. destruct (is_nan x) eqn:E.
  - (* a leading unknown rate *)
    cbn [bfill]. change (is_nan nan) with true. cbv iota.
    assert (Hprim : primeira_conhecida (x :: r) = primeira_conhecida r).
    { unfold primeira_conhecida. cbn. unfold conhecida. now rewrite E. }
    destruct j as [| j].
    + cbn [nth]. unfold taxa_preenchida.
      rewrite ultima_conhecida_0, Hprim. unfold conhecida at 1. rewrite E. cbn [negb].
      destruct r as [| y r']; [reflexivity |].
      assert (H0 : (0 < List.length (y :: r'))%nat) by (cbn; lia).
      specialize (IH 0%nat H0).
      destruct (bfill (ffill_desde nan (y :: r'))) as [| b bs] eqn:Eb.
      { apply (f_equal (@List.length float)) in Eb.
        rewrite bfill_length, ffill_desde_length in Eb. discriminate. }
      cbn [hd]. cbn [nth] in IH. rewrite IH.
      unfold taxa_preenchida. rewrite ultima_conhecida_0.
      unfold primeira_conhecida. cbn [find].
      destruct (conhecida y); reflexivity.
    + cbn [nth]. cbn in Hj. rewrite IH by lia.
      unfold taxa_preenchida. rewrite ultima_conhecida_S, Hprim.
      unfold conhecida at 1. rewrite E. cbn [negb].
      destruct (ultima_conhecida r j); reflexivity.
  - (* a known first rate: nothing is left to fill backward *)
    rewrite bfill_conhecidas.
    2:{ constructor; [exact E | now apply ffill_desde_conhecidas]. }
    unfold taxa_preenchida. destruct j as [| j].
    + rewrite ultima_conhecida_0. unfold conhecida. now rewrite E.
    + cbn [nth]. cbn in Hj. rewrite ffill_desde_nth by lia.
      rewrite ultima_conhecida_S. unfold conhecida. rewrite E. cbn [negb].
      destruct (ultima_conhecida r j); reflexivity.
Qed.

(** *** Column updates *)

Lemma getitem_valores df c :
  match getitem df c with
  | Some x => exists outras, valores_de c (df_columns df) = primeira_coluna x :: outras
  | None => valores_de c (df_columns df) = []
  end.
Proof.
  unfold getitem. destruct (valores_de c (df_columns df)) as [| v outras];
    [reflexivity |].
  destruct (df_columns df); [destruct outras |]; cbn; eauto.
Qed.

(** Selecting and updating columns by key, whatever the labels are. *)
Section Rotulos.
Variable K : Type.
Variable rot : K -> string.

Definition sel (c : string) (cs : list (K * list float)) : list (list float) :=
  map snd (filter (fun kv => String.eqb c (rot (fst kv))) cs).

Definition upd (c : string) (g : list float -> list float) (cs : list (K * list float))
  : list (K * list float) :=
  map (fun kv => if String.eqb c (rot (fst kv)) then (fst kv, g (snd kv)) else kv) cs.

Lemma sel_upd_mesmo c g cs : sel c (upd c g cs) = map g (sel c cs).
Proof.
  unfold sel, upd. induction cs as [| kv cs IH]; cbn [map filter]; [reflexivity |].
  destruct (String.eqb c (rot (fst kv))) eqn:E; cbn [fst snd]; rewrite E;
    cbn [map snd]; now rewrite IH.
Qed.

Lemma sel_upd_outro c c' g cs : c <> c' -> sel c' (upd c g cs) = sel c' cs.
Proof.
  intros Hne. unfold sel, upd.
  induction cs as [| kv cs IH]; cbn [map filter]; [reflexivity |].
  destruct (String.eqb c (rot (fst kv))) eqn:E,
           (String.eqb c' (rot (fst kv))) eqn:E'; cbn [fst snd]; rewrite ?E';
    cbn [map snd]; rewrite ?IH; try reflexivity.
  apply String.eqb_eq in E, E'. congruence.
Qed.

Lemma upd_rotulos c g cs : map fst (upd c g cs) = map fst cs.
Proof.
  unfold upd. rewrite map_map. apply map_ext. intros kv.
  now destruct (String.eqb c (rot (fst kv))).
Qed.

End Rotulos.

Lemma valores_setitem_mesmo df c v :
  valores_de c (df_columns (setitem df c v))
  = map (fun _ => v) (valores_de c (df_columns df)).
Proof.
  unfold setitem. cbn [df_columns].
  destruct (df_columns df) as [cs | cs].
  - exact (sel_upd_mesmo (fun n : string => n) c (fun _ => v) cs).
  - exact (sel_upd_mesmo (fun k : string * string => fst k) c (fun _ => v) cs).
Qed.

Lemma valores_setitem_outro df c c' v :
  c <> c' ->
  valores_de c' (df_columns (setitem df c v)) = valores_de c' (df_columns df).
Proof.
  intros Hne. unfold setitem. cbn [df_columns].
  destruct (df_columns df) as [cs | cs].
  - exact (sel_upd_outro (fun n : string => n) (fun _ => v) cs Hne).
  - exact (sel_upd_outro (fun k : string * string => fst k) (fun _ => v) cs Hne).
Qed.

(** The frame has single-level columns. *)
Definition plano (df : DataFrame) : bool :=
  match df_columns df with
  | Planas _ => true
  | DoisNiveis _ => false
  end.

Lemma multiplica_plano df c k : plano (multiplica_coluna df c k) = plano df.
Proof. unfold plano, multiplica_coluna. cbn. now destruct (df_columns df). Qed.

Lemma valores_multiplica_mesmo df c k :
  plano df = true ->
  valores_de c (df_columns (multiplica_coluna df c k))
  = map (map (fun x => x * k)) (valores_de c (df_columns df)).
Proof.
  unfold plano, multiplica_coluna. cbn [df_columns].
  destruct (df_columns df) as [cs | cs]; [intros _ | discriminate].
  exact (sel_upd_mesmo (fun n : string => n) c (map (fun x => x * k)) cs).
Qed.

Lemma valores_multiplica_outro df c c' k :
  c <> c' ->
  valores_de c' (df_columns (multiplica_coluna df c k))
  = valores_de c' (df_columns df).
Proof.
  intros Hne. unfold multiplica_coluna. cbn [df_columns].
  destruct (df_columns df) as [cs | cs]; [| reflexivity].
  exact (sel_upd_outro (fun n : string => n) (map (fun x => x * k)) cs Hne).
Qed.

(** The main branch, key by key. *)
Definition passo_alinhado (taxa : list float) (dados_brl : DataFrame) (col : string)
  : DataFrame :=
  match getitem dados_brl col with
  | Some x => setitem dados_brl col (mul_colunas (primeira_coluna x) taxa)
  | None => dados_brl
  end.

(** What the main branch leaves under a price key: the first selected
    column times the rate, in every selected column. *)
Definition alinhadas (taxa : list float) (vs : list (list float)) : list (list float) :=
  match vs with
  | [] => []
  | v :: _ => map (fun _ => mul_colunas v taxa) vs
  end.

Lemma passo_alinhado_index taxa df col :
  df_index (passo_alinhado taxa df col) = df_index df.
Proof. unfold passo_alinhado. now destruct (getitem df col). Qed.

Lemma passo_alinhado_mesmo taxa df c :
  valores_de c (df_columns (passo_alinhado taxa df c))
  = alinhadas taxa (valores_de c (df_columns df)).
Proof.
  unfold passo_alinhado. pose proof (getitem_valores df c) as H.
  destruct (getitem df c) as [x |].
  - destruct H as (outras & H). now rewrite valores_setitem_mesmo, H.
  - now rewrite H.
Qed.

Lemma passo_alinhado_outro taxa df c c' :
  c <> c' ->
  valores_de c' (df_columns (passo_alinhado taxa df c)) = valores_de c' (df_columns df).
Proof.
  intros Hne. unfold passo_alinhado. destruct (getitem df c); [| reflexivity].
  now apply valores_setitem_outro.
Qed.

Lemma alinhada_fora taxa nomes c :
  ~ In c nomes ->
  forall df,
    valores_de c (df_columns (fold_left (passo_alinhado taxa) nomes df))
    = valores_de c (df_columns df).
Proof.
  induction nomes as [| n r IH]; intros Hnin df; cbn [fold_left]; [reflexivity |].
  rewrite IH by (intros H; apply Hnin; now right).
  apply passo_alinhado_outro. intros ->. apply Hnin. now left.
Qed.

Lemma alinhada_dentro taxa nomes c :
  NoDup nomes -> In c nomes ->
  forall df,
    valores_de c (df_columns (fold_left (passo_alinhado taxa) nomes df))
    = alinhadas taxa (valores_de c (df_columns df)).
Proof.
  induction nomes as [| n r IH]; intros Hnd Hin df; [destruct Hin |].
  inversion Hnd as [| ? ? Hn Hr]; subst. cbn [fold_left].
  destruct (String.eqb_spec c n) as [-> | Hne].
  - rewrite alinhada_fora by exact Hn. apply passo_alinhado_mesmo.
  - destruct Hin as [-> | Hin]; [congruence |].
    rewrite (IH Hr Hin). f_equal. apply passo_alinhado_outro. congruence.
Qed.

Lemma e_preco_In c : e_preco c = true <-> In c colunas_preco.
Proof.
  unfold e_preco. rewrite existsb_exists. split.
  - intros (x & Hx & E). apply String.eqb_eq in E. now subst.
  - intros H. exists c. split; [exact H | apply String.eqb_refl].
Qed.

Lemma colunas_preco_NoDup : NoDup colunas_preco.
Proof.
  unfold colunas_preco.
  repeat (constructor; [cbn; intuition discriminate |]). constructor.
Qed.

Lemma escala_alinhada_coluna taxa dados_usd c :
  valores_de c (df_columns (escala_alinhada taxa dados_usd))
  = if e_preco c
    then alinhadas taxa (valores_de c (df_columns dados_usd))
    else valores_de c (df_columns dados_usd).
Proof.
  change (escala_alinhada taxa dados_usd)
    with (fold_left (passo_alinhado taxa) colunas_preco dados_usd).
  destruct (e_preco c) eqn:E.
  - apply e_preco_In in E. now apply alinhada_dentro; [apply colunas_preco_NoDup |].
  - apply alinhada_fora. intros Hin. apply e_preco_In in Hin. congruence.
Qed.

Lemma escala_alinhada_index taxa dados_usd :
  df_index (escala_alinhada taxa dados_usd) = df_index dados_usd.
Proof.
  change (escala_alinhada taxa dados_usd)
    with (fold_left (passo_alinhado taxa) colunas_preco dados_usd).
  generalize dados_usd. induction colunas_preco as [| n r IH]; intros df;
    cbn [fold_left]; [reflexivity |].
  now rewrite IH, passo_alinhado_index.
Qed.

(** The fallback branch, label by label. *)
Definition passo_fixo (taxa_fixa : float) (dados_brl : DataFrame) (col : Rotulo)
  : DataFrame :=
  match col with
  | RPlano nome =>
      if e_preco nome then multiplica_coluna dados_brl nome taxa_fixa else dados_brl
  | RDuplo _ _ => dados_brl
  end.

Lemma passo_fixo_index taxa_fixa df col :
  df_index (passo_fixo taxa_fixa df col) = df_index df.
Proof.
  destruct col as [n | n t]; cbn [passo_fixo]; [| reflexivity].
  now destruct (e_preco n).
Qed.

Lemma escala_fixa_index taxa_fixa dados_usd :
  df_index (escala_fixa taxa_fixa dados_usd) = df_index dados_usd.
Proof.
  change (escala_fixa taxa_fixa dados_usd)
    with (fold_left (passo_fixo taxa_fixa) (rotulos (df_columns dados_usd)) dados_usd).
  generalize dados_usd at 2 3.
  induction (rotulos (df_columns dados_usd)) as [| n r IH]; intros df;
    cbn [fold_left]; [reflexivity |].
  now rewrite IH, passo_fixo_index.
Qed.

(** On two-level columns the fallback branch changes nothing. *)
Lemma escala_fixa_dois_niveis taxa_fixa idx cs :
  escala_fixa taxa_fixa (mkDataFrame idx (DoisNiveis cs))
  = mkDataFrame idx (DoisNiveis cs).
Proof.
  unfold escala_fixa. cbn [df_columns rotulos].
  generalize (mkDataFrame idx (DoisNiveis cs)).
  induction cs as [| kv cs IH]; intros df; cbn [map fold_left]; auto.
Qed.

Lemma passo_fixo_plano taxa_fixa df col :
  plano (passo_fixo taxa_fixa df col) = plano df.
Proof.
  destruct col as [n | n t]; cbn [passo_fixo]; [| reflexivity].
  destruct (e_preco n); [apply multiplica_plano | reflexivity].
Qed.

Lemma fixa_fora taxa_fixa nomes c :
  ~ In c nomes ->
  forall df,
    valores_de c (df_columns (fold_left (passo_fixo taxa_fixa) (map RPlano nomes) df))
    = valores_de c (df_columns df).
Proof.
  induction nomes as [| n r IH]; intros Hnin df; cbn [map fold_left]; [reflexivity |].
  rewrite IH by (intros H; apply Hnin; now right).
  cbn [passo_fixo]. destruct (e_preco n); [| reflexivity].
  apply valores_multiplica_outro. intros ->. apply Hnin. now left.
Qed.

Lemma fixa_dentro taxa_fixa nomes c :
  NoDup nomes -> In c nomes ->
  forall df, plano df = true ->
    valores_de c (df_columns (fold_left (passo_fixo taxa_fixa) (map RPlano nomes) df))
    = if e_preco c
      then map (map (fun x => x * taxa_fixa)) (valores_de c (df_columns df))
      else valores_de c (df_columns df).
Proof.
  induction nomes as [| n r IH]; intros Hnd Hin df Hpl; [destruct Hin |].
  inversion Hnd as [| ? ? Hn Hr]; subst. cbn [map fold_left].
  destruct (String.eqb_spec c n) as [-> | Hne].
  - rewrite fixa_fora by exact Hn. cbn [passo_fixo].
    destruct (e_preco n); [| reflexivity].
    now apply valores_multiplica_mesmo.
  - destruct Hin as [-> | Hin]; [congruence |].
    rewrite (IH Hr Hin) by (now rewrite passo_fixo_plano).
    assert (Hv : valores_de c (df_columns (passo_fixo taxa_fixa df (RPlano n)))
                 = valores_de c (df_columns df)).
    { cbn [passo_fixo]. destruct (e_preco n); [| reflexivity].
      apply valores_multiplica_outro. congruence. }
    now rewrite Hv.
Qed.

Lemma valores_fora_dos_rotulos c cs :
  ~ In c (map fst cs) -> valores_de c (Planas cs) = [].
Proof.
  cbn [valores_de]. induction cs as [| kv cs IH]; cbn [map filter]; [reflexivity |].
  intros H. destruct (String.eqb_spec c (fst kv)) as [-> | Hne].
  - exfalso. apply H. now left.
  - apply IH. intros Hin. apply H. now right.
Qed.

Lemma escala_fixa_coluna taxa_fixa idx cs c :
  NoDup (map fst cs) ->
  valores_de c (df_columns (escala_fixa taxa_fixa (mkDataFrame idx (Planas cs))))
  = if e_preco c
    then map (map (fun x => x * taxa_fixa)) (valores_de c (Planas cs))
    else valores_de c (Planas cs).
Proof.
  intros Hnd.
  change (escala_fixa taxa_fixa (mkDataFrame idx (Planas cs)))
    with (fold_left (passo_fixo taxa_fixa) (map (fun kv => RPlano (fst kv)) cs)
                    (mkDataFrame idx (Planas cs))).
  rewrite <- (map_map fst RPlano).
  destruct (in_dec string_dec c (map fst cs)) as [Hin | Hnin].
  - now rewrite (@fixa_dentro taxa_fixa (map fst cs) c Hnd Hin).
  - rewrite fixa_fora by exact Hnin. cbn [df_columns].
    rewrite (valores_fora_dos_rotulos _ _ Hnin). now destruct (e_preco c).
Qed.


(** *** Examples *)

Definition acao_usd : DataFrame :=
  mkDataFrame [1%Z; 2%Z; 3%Z]
    (Planas [("Open"%string, [10; 20; 30]); ("Close"%string, [11; 21; 31]);
             ("Volume"%string, [1000; 2000; 3000])]).

(** The same quotes on the two-level columns of yfinance. *)
Definition acao_usd_2n : DataFrame :=
  mkDataFrame [1%Z; 2%Z; 3%Z]
    (DoisNiveis [(("Open", "AAPL")%string, [10; 20; 30]);
                 (("Close", "AAPL")%string, [11; 21; 31]);
                 (("Volume", "AAPL")%string, [1000; 2000; 3000])]).

(** Rates known on day 2 only. *)
Definition fonte_dia_2 : FonteCambio :=
  mkFonteCambio
    (RespDados (mkDataFrame [2%Z] (Planas [("Close"%string, [5])])))
    (RespDados empty_frame).

Definition fonte_dia_2_2n : FonteCambio :=
  mkFonteCambio
    (RespDados (mkDataFrame [2%Z] (DoisNiveis [(("Close", "BRL=X")%string, [5])])))
    (RespDados empty_frame).

(** Nothing for the period, a rate of 4 for the most recent day. *)
Definition fonte_so_recente : FonteCambio :=
  mkFonteCambio
    (RespDados empty_frame)
    (RespDados (mkDataFrame [9%Z] (Planas [("Close"%string, [4])]))).

Definition fonte_so_recente_2n : FonteCambio :=
  mkFonteCambio
    (RespDados empty_frame)
    (RespDados (mkDataFrame [9%Z] (DoisNiveis [(("Close", "BRL=X")%string, [4])]))).

Definition fonte_sem_dados : FonteCambio :=
  mkFonteCambio (RespDados empty_frame) (RespDados empty_frame).

Definition fonte_fora_do_ar : FonteCambio :=
  mkFonteCambio (RespErro (ConnectionError "Failed to connect"))
                (RespDados (mkDataFrame [9%Z] (Planas [("Close"%string, [4])]))).

Example converte_por_data :
  converter_usd_para_brl fonte_dia_2 acao_usd 1%Z 3%Z
  = Return (mkDataFrame [1%Z; 2%Z; 3%Z]
      (Planas [("Open"%string, [50; 100; 150]); ("Close"%string, [55; 105; 155]);
               ("Volume"%string, [1000; 2000; 3000])])).
Proof. vm_compute. reflexivity. Qed.

Example converte_por_data_2n :
  converter_usd_para_brl fonte_dia_2_2n acao_usd_2n 1%Z 3%Z
  = Return (mkDataFrame [1%Z; 2%Z; 3%Z]
      (DoisNiveis [(("Open", "AAPL")%string, [50; 100; 150]);
                   (("Close", "AAPL")%string, [55; 105; 155]);
                   (("Volume", "AAPL")%string, [1000; 2000; 3000])])).
Proof. vm_compute. reflexivity. Qed.

Example converte_taxa_fixa :
  converter_usd_para_brl fonte_so_recente acao_usd 1%Z 3%Z
  = Return (mkDataFrame [1%Z; 2%Z; 3%Z]
      (Planas [("Open"%string, [40; 80; 120]); ("Close"%string, [44; 84; 124]);
               ("Volume"%string, [1000; 2000; 3000])])).
Proof. vm_compute. reflexivity. Qed.

Example sem_cambio_devolve_entrada :
  converter_usd_para_brl fonte_sem_dados acao_usd 1%Z 3%Z = Return acao_usd.
Proof. vm_compute. reflexivity. Qed.

Example erro_devolve_entrada :
  converter_usd_para_brl fonte_fora_do_ar acao_usd 1%Z 3%Z = Return acao_usd.
Proof. vm_compute. reflexivity. Qed.

(** *** What the normalizer does, whatever the source does *)

(** X1: the normalizer returns a frame on the dates of its input and never
    raises.  When the download of the period gives data (with a close
    column that can be reindexed), the columns under every price key
    take the first of them multiplied, date by date, by the rate
    forward-filled then backward-filled on the input's dates, and the
    other columns are kept.  When it gives an empty frame and the
    download of the most recent day gives data, every price column of a
    single-level frame is multiplied by that single last close.  When
    that is empty too, or when anything raises on the way, the input
    comes back unmodified. *)
Lemma converter_sempre_retorna (fonte : FonteCambio) (dados_usd : DataFrame)
      (data_inicio data_fim : date) :
  exists dados_brl,
    converter_usd_para_brl fonte dados_usd data_inicio data_fim = Return dados_brl
    /\ df_index dados_brl = df_index dados_usd
    /\ (forall cambio fechamento reindexada,
          cambio_periodo fonte = RespDados cambio -> empty cambio = false ->
          getitem cambio "Close" = Some fechamento ->
          reindex (combine (df_index cambio) (primeira_coluna fechamento))
                  (df_index dados_usd) = Return reindexada ->
          (forall c,
             valores_de c (df_columns dados_brl)
             = if e_preco c
               then alinhadas (bfill (ffill reindexada))
                              (valores_de c (df_columns dados_usd))
               else valores_de c (df_columns dados_usd))
          /\ (forall j, (j < List.length reindexada)%nat ->
                nth j (bfill (ffill reindexada)) nan = taxa_preenchida reindexada j))
    /\ (forall cambio atual fechamento taxa_fixa idx cs,
          cambio_periodo fonte = RespDados cambio -> empty cambio = true ->
          cambio_recente fonte = RespDados atual -> empty atual = false ->
          getitem atual "Close" = Some fechamento ->
          ultimo_float fechamento = Return taxa_fixa ->
          dados_usd = mkDataFrame idx (Planas cs) ->
          NoDup (map fst cs) ->
          forall c,
            valores_de c (df_columns dados_brl)
            = if e_preco c
              then map (map (fun x => x * taxa_fixa)) (valores_de c (Planas cs))
              else valores_de c (Planas cs))
    /\ (forall cambio atual,
          cambio_periodo fonte = RespDados cambio -> empty cambio = true ->
          cambio_recente fonte = RespDados atual -> empty atual = true ->
          dados_brl = dados_usd)
    /\ (forall e, corpo_converter fonte dados_usd = Raise e -> dados_brl = dados_usd).
Proof.
  unfold converter_usd_para_brl.
  destruct (corpo_converter fonte dados_usd) as [brl | e0] eqn:Hcorpo; cbn [try_except].
  - exists brl. split; [reflexivity |].
    unfold corpo_converter, download, coluna in Hcorpo.
    destruct (cambio_periodo fonte) as [cambio | e1]; cbn [bind] in Hcorpo;
      [| discriminate].
    destruct (empty cambio) eqn:Evazio.
    + (* the single most recent rate *)
      destruct (cambio_recente fonte) as [atual | e2]; cbn [bind] in Hcorpo;
        [| discriminate].
      destruct (empty atual) eqn:Eatual; cbn [negb] in Hcorpo; [discriminate |].
      destruct (getitem atual "Close") as [fechamento |] eqn:Hfech;
        cbn [bind] in Hcorpo; [| discriminate].
      destruct (ultimo_float fechamento) as [taxa_fixa | e3] eqn:Hult;
        cbn [bind] in Hcorpo; [| discriminate].
      injection Hcorpo as <-.
      split; [apply escala_fixa_index |].
      split; [intros ? ? ? H; injection H as <-; congruence |].
      split.
      * intros cambio' atual' fechamento' taxa' idx cs H1 _ H2 _ H3 H4 Hdf Hnd c.
        injection H2 as <-. rewrite Hfech in H3. injection H3 as <-.
        rewrite Hult in H4. injection H4 as <-. subst dados_usd.
        now apply escala_fixa_coluna.
      * split; [| discriminate].
        intros cambio' atual' _ _ H2 H3. injection H2 as <-. congruence.
    + (* the rates of the period *)
      destruct (getitem cambio "Close") as [fechamento |] eqn:Hfech;
        cbn [bind] in Hcorpo; [| discriminate].
      destruct (reindex (combine (df_index cambio) (primeira_coluna fechamento))
                        (df_index dados_usd)) as [reindexada | e3]
        eqn:Hre; cbn [bind] in Hcorpo; [| discriminate].
      injection Hcorpo as <-.
      split; [apply escala_alinhada_index |].
      split.
      * intros cambio' fech' reind' H1 _ H2 H3.
        injection H1 as <-. rewrite Hfech in H2. injection H2 as <-.
        rewrite Hre in H3. injection H3 as <-.
        split; [intros c; apply escala_alinhada_coluna |].
        intros j Hj. now apply preenchimento_spec.
      * split; [intros ? ? ? ? ? ? H; injection H as <-; congruence |].
        split; [intros ? ? H; injection H as <-; congruence | discriminate].
  - exists dados_usd. split; [reflexivity |]. split; [reflexivity |].
    unfold corpo_converter, download, coluna in Hcorpo.
    split; [| split; [| split]]; auto.
    + intros cambio fechamento reindexada H1 E1 H2 H3.
      rewrite H1 in Hcorpo. cbn [bind] in Hcorpo. rewrite E1, H2 in Hcorpo.
      cbn [bind] in Hcorpo. rewrite H3 in Hcorpo. discriminate.
    + intros cambio atual fechamento taxa_fixa idx cs H1 E1 H2 E2 H3 H4.
      rewrite H1 in Hcorpo. cbn [bind] in Hcorpo. rewrite E1, H2 in Hcorpo.
      cbn [bind] in Hcorpo. rewrite E2 in Hcorpo. cbn [negb] in Hcorpo.
      rewrite H3 in Hcorpo. cbn [bind] in Hcorpo. rewrite H4 in Hcorpo.
      discriminate.
Qed.

(** With two-level columns and no rates for the period, the input comes
    back as it is, whatever the most recent rate. *)
Lemma dois_niveis_sem_taxa_fixa (fonte : FonteCambio) (cambio : DataFrame)
      (idx : list date) (cs : list ((string * string) * list float))
      (data_inicio data_fim : date) :
  cambio_periodo fonte = RespDados cambio -> empty cambio = true ->
  converter_usd_para_brl fonte (mkDataFrame idx (DoisNiveis cs)) data_inicio data_fim
  = Return (mkDataFrame idx (DoisNiveis cs)).
Proof.
  intros H1 E1. unfold converter_usd_para_brl, corpo_converter, download, coluna.
  rewrite H1. cbn [bind]. rewrite E1.
  destruct (cambio_recente fonte) as [atual | e]; cbn [bind try_except];
    [| reflexivity].
  destruct (negb (empty atual)); [| reflexivity].
  destruct (getitem atual "Close") as [fechamento |]; cbn [bind try_except];
    [| reflexivity].
  destruct (ultimo_float fechamento); cbn [bind try_except]; [| reflexivity].
  now rewrite escala_fixa_dois_niveis.
Qed.

(** C2 at the failing input: quotes on two-level columns, no rates for
    the period, a most recent rate of 4.  The loop of the fallback branch
    tests each label, a tuple, against the five price names, multiplies
    nothing, and the prices come back in dollars; the same quotes on
    single-level columns are converted. *)
Theorem taxa_fixa_sem_efeito_em_dois_niveis :
  converter_usd_para_brl fonte_so_recente_2n acao_usd_2n 1%Z 3%Z
  = Return acao_usd_2n
  /\ valores_de "Close" (df_columns acao_usd_2n) = [[11; 21; 31]]
  /\ option_map ultimo_float
       (getitem (mkDataFrame [9%Z] (DoisNiveis [(("Close", "BRL=X")%string, [4])]))
                "Close")
     = Some (Return 4)
  /\ converter_usd_para_brl fonte_so_recente acao_usd 1%Z 3%Z
     = Return (mkDataFrame [1%Z; 2%Z; 3%Z]
         (Planas [("Open"%string, [40; 80; 120]); ("Close"%string, [44; 84; 124]);
                  ("Volume"%string, [1000; 2000; 3000])])).
Proof. repeat split; vm_compute; reflexivity. Qed.

End NormalizadorSpec.


(** ** The paginated rate fetch and the savings valuation *)
Module RendaFixaSpec.
Import Py Pandas RendaFixaBR.
Local Open Scope float_scope.

(** *** Pagination *)

Definition no_intervalo (a b : date) (r : registro) : bool :=
  ((a <=? fst r)%Z && (fst r <=? b)%Z)%bool.

(** A source that answers every query, of any span, with the records of
    [base] dated in the range asked for. *)
Definition consulta (base : list registro) : FonteBCB :=
  fun _ a b _ => HttpOk (JsonLista (filter (no_intervalo a b) base)).

(** The same range fetched in one unsegmented call. *)
Definition busca_unica (fonte : FonteBCB) (serie_codigo : Z)
           (data_inicio data_fim : date) : Series :=
  consolidar (buscar_fatia fonte serie_codigo data_inicio data_fim).

Lemma laco_fatias_eq fonte serie a e todos :
  laco_fatias fonte serie a e todos
  = if (a <? e)%Z
    then laco_fatias fonte serie (Z.min (a + 1825) e + 1)%Z e
           (todos ++ buscar_fatia fonte serie a (Z.min (a + 1825) e))
    else todos.
Proof.
  rewrite laco_fatias_equation_1.
  destruct (Z_lt_dec a e) as [H | H]; cbn.
  - apply Z.ltb_lt in H. now rewrite H.
  - apply Z.ltb_nlt in H. now rewrite H.
Qed.

(** 2 January 2015 and 2 January 2020 as day ordinals: 1826 days apart. *)
Definition dia_2015_01_02 : date := 735600%Z.
Definition dia_2020_01_02 : date := 737426%Z.

Definition base_dois_dias : list registro :=
  [(dia_2015_01_02, 11.75); (dia_2020_01_02, 4.5)].

Example doze_anos :
  buscar_serie_bcb (consulta [(1%Z, 10); (2000%Z, 11); (4000%Z, 12)]) 12 0%Z 4383%Z
  = busca_unica (consulta [(1%Z, 10); (2000%Z, 11); (4000%Z, 12)]) 12 0%Z 4383%Z.
Proof. vm_compute. reflexivity. Qed.

(** C3 at the failing input: over a range of exactly 1826 days the loop
    stops with [data_atual = data_fim], the last day is never asked for,
    and the observation of that day, which one unsegmented call
    returns, is lost. *)
Theorem paginacao_perde_ultimo_dia :
  buscar_serie_bcb (consulta base_dois_dias) serie_SELIC dia_2015_01_02 dia_2020_01_02
  = [(dia_2015_01_02, 11.75)]
  /\ busca_unica (consulta base_dois_dias) serie_SELIC dia_2015_01_02 dia_2020_01_02
     = [(dia_2015_01_02, 11.75); (dia_2020_01_02, 4.5)].
Proof. split; vm_compute; reflexivity. Qed.

(** When the loop does not stop on the last day, pagination is exact. *)

Definition por_data (base : list registro) : Prop :=
  StronglySorted (fun x y => (fst x <= fst y)%Z) base.

Lemma filtro_vazio a b (l : list registro) :
  Forall (fun y => (b < fst y)%Z) l -> filter (no_intervalo a b) l = [].
Proof.
  induction 1 as [| y l Hy Hl IH]; cbn [filter]; [reflexivity |].
  assert (E : no_intervalo a b y = false).
  { unfold no_intervalo. apply andb_false_iff. right. now apply Z.leb_gt. }
  now rewrite E.
Qed.

Lemma filtro_intervalo_vazio a b (l : list registro) :
  (b < a)%Z -> filter (no_intervalo a b) l = [].
Proof.
  intros Hab. induction l as [| y l IH]; cbn [filter]; [reflexivity |].
  assert (E : no_intervalo a b y = false).
  { unfold no_intervalo. apply andb_false_iff.
    destruct (Z.le_gt_cases a (fst y)); [right | left];
      now apply Z.leb_gt; lia. }
  now rewrite E.
Qed.

Lemma filtro_divide a b c (base : list registro) :
  por_data base -> (a <= b + 1)%Z -> (b <= c)%Z ->
  filter (no_intervalo a b) base ++ filter (no_intervalo (b + 1)%Z c) base
  = filter (no_intervalo a c) base.
Proof.
  intros Hs Hab Hbc. induction Hs as [| x r Hr IH Hx]; cbn [filter];
    [reflexivity |].
  destruct (no_intervalo a b x) eqn:E1, (no_intervalo (b + 1)%Z c x) eqn:E2,
           (no_intervalo a c x) eqn:E3;
    unfold no_intervalo in E1, E2, E3; try lia; cbn [app]; try (now rewrite <- IH).
  (* after the first interval, inside the second *)
  rewrite <- IH. rewrite (@filtro_vazio a b r); [reflexivity |].
  eapply Forall_impl; [| exact Hx]. cbv beta. intros y Hy.
  unfold registro, date in *. lia.
Qed.

Lemma buscar_fatia_consulta base serie a b :
  buscar_fatia (consulta base) serie a b = filter (no_intervalo a b) base.
Proof. reflexivity. Qed.

Lemma laco_fatias_cobre base serie :
  por_data base ->
  forall (n : nat) a e todos,
    (Z.to_nat (e - a) <= n)%nat ->
    (e < a)%Z \/ ((e - a) mod 1826 <> 0)%Z ->
    laco_fatias (consulta base) serie a e todos
    = todos ++ filter (no_intervalo a e) base.
Proof.
  intros Hs. induction n as [| n IH]; intros a e todos Hn Hcob;
    rewrite laco_fatias_eq; destruct (a <? e)%Z eqn:Elt;
    rewrite ?Z.ltb_lt, ?Z.ltb_ge in Elt; try lia.
  - (* the loop does not run *)
    destruct (Z.eq_dec e a) as [-> | Hne].
    + destruct Hcob as [Hlt | Hmod]; [lia |].
      rewrite Z.sub_diag in Hmod. now cbn in Hmod.
    + rewrite filtro_intervalo_vazio by lia. now rewrite app_nil_r.
  - rewrite buscar_fatia_consulta, IH.
    + rewrite <- app_assoc. f_equal. apply filtro_divide; auto; lia.
    + lia.
    + destruct (Z.le_gt_cases e (a + 1825)) as [Hle | Hgt].
      * left. lia.
      * right. rewrite Z.min_l by lia.
        destruct Hcob as [Hlt | Hmod]; [lia |].
        replace (e - (a + 1825 + 1))%Z with ((e - a) + (-1) * 1826)%Z by lia.
        now rewrite Z.mod_add by lia.
  - destruct (Z.eq_dec e a) as [-> | Hne].
    + destruct Hcob as [Hlt | Hmod]; [lia |].
      rewrite Z.sub_diag in Hmod. now cbn in Hmod.
    + rewrite filtro_intervalo_vazio by lia. now rewrite app_nil_r.
Qed.

(** X2: against a source that holds its observations in date order, the
    paginated fetch equals the unsegmented one on every range whose span
    in days is not a multiple of 1826 (and on every empty range). *)
Lemma paginacao_exata_quando_cobre base serie data_inicio data_fim :
  por_data base ->
  (data_fim < data_inicio)%Z \/ ((data_fim - data_inicio) mod 1826 <> 0)%Z ->
  buscar_serie_bcb (consulta base) serie data_inicio data_fim
  = busca_unica (consulta base) serie data_inicio data_fim.
Proof.
  intros Hs Hcob. unfold buscar_serie_bcb, busca_unica.
  rewrite (@laco_fatias_cobre base serie Hs
             (Z.to_nat (data_fim - data_inicio)) data_inicio data_fim [])
    by (auto; lia).
  now rewrite buscar_fatia_consulta.
Qed.

Lemma paginacao_exata_quando_cobre_witness :
  buscar_serie_bcb (consulta [(1%Z, 10); (2000%Z, 11); (4000%Z, 12)]) 12 0%Z 4383%Z
  = busca_unica (consulta [(1%Z, 10); (2000%Z, 11); (4000%Z, 12)]) 12 0%Z 4383%Z.
Proof.
  apply (@paginacao_exata_quando_cobre
           [(1%Z, 10); (2000%Z, 11); (4000%Z, 12)] 12%Z 0%Z 4383%Z).
  - unfold por_data. repeat (constructor; cbn; try lia).
  - right. vm_compute. discriminate.
Defined.

(** *** Savings valuation *)

(** The savings rule, row by row: the monthly accrual by the two
    tiers, plus the secondary rate over 12; the daily rate is that total
    over 30; the day's factor is [1 + daily/100]. *)
Definition rendimento_mensal (selic : float) : float :=
  if 8.5 <? selic then 0.5 else selic * 0.7 / 12.

Definition rendimento_total (l : LinhaPoupanca) : float :=
  rendimento_mensal (lp_selic l) + lp_tr l / 12.

Definition taxa_diaria (l : LinhaPoupanca) : float := rendimento_total l / 30.

Definition fator_diario (l : LinhaPoupanca) : float := 1 + taxa_diaria l / 100.

(** A factor as it enters the running product. *)
Definition no_produto (f : float) : float := if is_nan f then 1 else f.

Lemma fatores_por_linha (df : list LinhaPoupanca) :
  map (fun x => 1 + x / 100)
      (map (fun x => x / 30)
           (soma_colunas
              (map (fun x => if 8.5 <? x then 0.5 else x * 0.7 / 12) (map lp_selic df))
              (map (fun t => t / 12) (map lp_tr df))))
  = map fator_diario df.
Proof.
  induction df as [| l df IH]; cbn [map soma_colunas]; [reflexivity |].
  now rewrite IH.
Qed.

Lemma acumula_length ys : forall acc, List.length (acumula acc ys) = List.length ys.
Proof. induction ys as [| y r IH]; intros acc; cbn; [reflexivity | now rewrite IH]. Qed.

Lemma acumula_passo :
  forall ys acc j y p,
    nth_error ys j = Some y ->
    nth_error (acc :: acumula acc ys) j = Some p ->
    nth_error (acumula acc ys) j = Some (p * y).
Proof.
  induction ys as [| y0 r IH]; intros acc j y p Hy Hp.
  - destruct j; discriminate.
  - destruct j as [| j]; cbn in *.
    + injection Hy as <-. injection Hp as <-. reflexivity.
    + now apply IH.
Qed.

(** The running product behind [cumprod]. *)
Definition produtos (xs : list float) : list float :=
  match map no_produto xs with
  | [] => []
  | y :: r => y :: acumula y r
  end.

Lemma cumprod_mascara xs : cumprod xs = mascara xs (produtos xs).
Proof. reflexivity. Qed.

Lemma produtos_length xs : List.length (produtos xs) = List.length xs.
Proof.
  unfold produtos. destruct xs as [| x r]; cbn; [reflexivity |].
  now rewrite acumula_length, length_map.
Qed.

Lemma produtos_0 xs x :
  nth_error xs 0 = Some x -> nth_error (produtos xs) 0 = Some (no_produto x).
Proof. destruct xs; cbn; [discriminate |]. now intros [= ->]. Qed.

Lemma produtos_S xs j x p :
  nth_error xs (S j) = Some x -> nth_error (produtos xs) j = Some p ->
  nth_error (produtos xs) (S j) = Some (p * no_produto x).
Proof.
  unfold produtos. destruct xs as [| x0 r]; [discriminate |].
  cbn [map nth_error]. intros Hx Hp.
  apply acumula_passo; [| exact Hp].
  now rewrite nth_error_map, Hx.
Qed.

Lemma mascara_nth :
  forall xs ps j x p,
    nth_error xs j = Some x -> nth_error ps j = Some p ->
    nth_error (mascara xs ps) j = Some (if is_nan x then nan else p).
Proof.
  induction xs as [| x0 xs IH]; intros ps j x p Hx Hp.
  - destruct j; discriminate.
  - destruct ps as [| p0 ps]; [destruct j; discriminate |].
    destruct j as [| j]; cbn in *.
    + now injection Hx as <-; injection Hp as <-.
    + now apply IH.
Qed.

Definition fonte_exemplo : FonteBCB :=
  fun serie a b _ =>
    if (serie =? serie_SELIC)%Z
    then HttpOk (JsonLista (filter (no_intervalo a b) [(1%Z, 10); (2%Z, 6)]))
    else HttpOk (JsonLista (filter (no_intervalo a b) [(1%Z, 1.2)])).

(** C8: on every date of the savings computation (every row of the
    merged table), the valuation is the notional of 100,000 times the
    running product of the daily factors, where the factor of a date is
    [1 + daily/100], the daily rate is the monthly total over 30, and the
    monthly total is 0.5 when the policy rate exceeds 8.5 and
    [policy_rate * 0.7 / 12] otherwise, plus the secondary rate over 12.
    (As pandas does, a factor that is NaN counts as 1 in the product and
    gives NaN on its own date.) *)
Theorem poupanca_regra (fonte : FonteBCB) (data_inicio data_fim : date) :
  tabela_poupanca (buscar_serie_bcb fonte serie_SELIC data_inicio data_fim)
                  (buscar_serie_bcb fonte serie_TR data_inicio data_fim)
                  data_inicio data_fim <> [] ->
  exists quadro valores produto,
    obter_poupanca fonte data_inicio data_fim = Return quadro
    /\ df_index quadro
       = map lp_data
           (tabela_poupanca (buscar_serie_bcb fonte serie_SELIC data_inicio data_fim)
                            (buscar_serie_bcb fonte serie_TR data_inicio data_fim)
                            data_inicio data_fim)
    /\ getitem quadro "Close" = Some (UmaSerie valores)
    /\ (forall l,
          nth_error (tabela_poupanca
                       (buscar_serie_bcb fonte serie_SELIC data_inicio data_fim)
                       (buscar_serie_bcb fonte serie_TR data_inicio data_fim)
                       data_inicio data_fim) 0 = Some l ->
          nth_error produto 0 = Some (no_produto (fator_diario l)))
    /\ (forall j l p,
          nth_error (tabela_poupanca
                       (buscar_serie_bcb fonte serie_SELIC data_inicio data_fim)
                       (buscar_serie_bcb fonte serie_TR data_inicio data_fim)
                       data_inicio data_fim) (S j) = Some l ->
          nth_error produto j = Some p ->
          nth_error produto (S j) = Some (p * no_produto (fator_diario l)))
    /\ (forall j l,
          nth_error (tabela_poupanca
                       (buscar_serie_bcb fonte serie_SELIC data_inicio data_fim)
                       (buscar_serie_bcb fonte serie_TR data_inicio data_fim)
                       data_inicio data_fim) j = Some l ->
          fator_diario l
          = 1 + ((if 8.5 <? lp_selic l then 0.5 else lp_selic l * 0.7 / 12)
                 + lp_tr l / 12) / 30 / 100
          /\ exists p,
               nth_error produto j = Some p
               /\ nth_error valores j
                  = Some (100000 * (if is_nan (fator_diario l) then nan else p))).
Proof.
  intros Hne. unfold obter_poupanca, corpo_poupanca. cbv zeta.
  set (selic := buscar_serie_bcb fonte serie_SELIC data_inicio data_fim) in *.
  set (tr := buscar_serie_bcb fonte serie_TR data_inicio data_fim) in *.
  destruct selic as [| s0 selic'] eqn:Hselic.
  { exfalso. apply Hne. reflexivity. }
  rewrite <- Hselic in *.
  set (df := tabela_poupanca selic tr data_inicio data_fim) in *.
  destruct df as [| l0 df'] eqn:Hdf; [congruence |].
  rewrite <- Hdf. cbn [try_except].
  exists (mkDataFrame (map lp_data df)
            (Planas
               [("Open"%string, valor_investimento df);
                ("High"%string, valor_investimento df);
                ("Low"%string, valor_investimento df);
                ("Close"%string, valor_investimento df);
                ("Volume"%string, map (fun _ => 0) df);
                ("Adj Close"%string, valor_investimento df)])).
  exists (valor_investimento df), (produtos (map fator_diario df)).
  split; [reflexivity |]. split; [reflexivity |]. split; [reflexivity |].
  split; [| split].
  - intros l Hl. apply produtos_0. now rewrite nth_error_map, Hl.
  - intros j l p Hl Hp. apply produtos_S; [| exact Hp].
    now rewrite nth_error_map, Hl.
  - intros j l Hl. split; [reflexivity |].
    assert (Hj : (j < List.length (produtos (map fator_diario df)))%nat).
    { rewrite produtos_length, length_map. apply nth_error_Some. congruence. }
    destruct (nth_error (produtos (map fator_diario df)) j) as [p |] eqn:Hp;
      [| apply nth_error_None in Hp; lia].
    exists p. split; [reflexivity |].
    unfold valor_investimento. cbv zeta.
    rewrite fatores_por_linha, cumprod_mascara, nth_error_map.
    rewrite (@mascara_nth _ _ j (fator_diario l) p); [reflexivity | | exact Hp].
    now rewrite nth_error_map, Hl.
Qed.

Example poupanca_exemplo :
  option_map (map (fun v => (v =? 100000 * (1 + (0.5 + 1.2 / 12) / 30 / 100))))
    (match obter_poupanca fonte_exemplo 1%Z 3%Z with
     | Return q => option_map (fun x => firstn 1 (primeira_coluna x))
                              (getitem q "Close")
     | Raise _ => None
     end)
  = Some [true].
Proof. vm_compute. reflexivity. Qed.

Lemma poupanca_regra_witness :
  exists quadro valores produto,
    obter_poupanca fonte_exemplo 1%Z 3%Z = Return quadro
    /\ df_index quadro
       = map lp_data
           (tabela_poupanca (buscar_serie_bcb fonte_exemplo serie_SELIC 1%Z 3%Z)
                            (buscar_serie_bcb fonte_exemplo serie_TR 1%Z 3%Z)
                            1%Z 3%Z)
    /\ getitem quadro "Close" = Some (UmaSerie valores)
    /\ (forall l,
          nth_error (tabela_poupanca
                       (buscar_serie_bcb fonte_exemplo serie_SELIC 1%Z 3%Z)
                       (buscar_serie_bcb fonte_exemplo serie_TR 1%Z 3%Z)
                       1%Z 3%Z) 0 = Some l ->
          nth_error produto 0 = Some (no_produto (fator_diario l)))
    /\ (forall j l p,
          nth_error (tabela_poupanca
                       (buscar_serie_bcb fonte_exemplo serie_SELIC 1%Z 3%Z)
                       (buscar_serie_bcb fonte_exemplo serie_TR 1%Z 3%Z)
                       1%Z 3%Z) (S j) = Some l ->
          nth_error produto j = Some p ->
          nth_error produto (S j) = Some (p * no_produto (fator_diario l)))
    /\ (forall j l,
          nth_error (tabela_poupanca
                       (buscar_serie_bcb fonte_exemplo serie_SELIC 1%Z 3%Z)
                       (buscar_serie_bcb fonte_exemplo serie_TR 1%Z 3%Z)
                       1%Z 3%Z) j = Some l ->
          fator_diario l
          = 1 + ((if 8.5 <? lp_selic l then 0.5 else lp_selic l * 0.7 / 12)
                 + lp_tr l / 12) / 30 / 100
          /\ exists p,
               nth_error produto j = Some p
               /\ nth_error valores j
                  = Some (100000 * (if is_nan (fator_diario l) then nan else p))).
Proof.
  apply (@poupanca_regra fonte_exemplo 1%Z 3%Z).
  vm_compute. discriminate.
Defined.

End RendaFixaSpec.

(** ** Edge behaviour of the return computations *)
Module RetornosBordas.
Import Py Pandas ComparacaoAtivos PyFacts RetornosSpec.
Local Open Scope float_scope.

(** A position out of range among the loop's indices makes it raise. *)
Lemma laco_retornos_fora (coluna_close : Series) (dias_janela : Z) :
  forall (indices : list Z) (acc : Series) (i : Z),
    In i indices -> iloc coluna_close i = None ->
    exists e,
      laco_retornos coluna_close dias_janela indices acc = Raise e
      /\ (e = IndexError \/ e = ZeroDivisionError).
Proof.
  induction indices as [| a resto IH]; intros acc i Hin Hi; [destruct Hin |].
  cbn [laco_retornos].
  destruct (iloc coluna_close a) as [[d c] |] eqn:Ha; [| eauto].
  destruct (iloc coluna_close (a + dias_janela)) as [[d' c'] |]; [| eauto].
  destruct (is_zero c); [eauto |].
  destruct Hin as [-> | Hin]; [congruence |].
  now apply IH with (i := i).
Qed.

(** X3: a zero close at a window start is the only way the rolling
    return fails for a window of [m >= 0] months: the function raises
    [ZeroDivisionError] exactly when some close at a position below
    [len - m*21] is zero, and returns a series otherwise; it raises no
    other exception. *)
Theorem retorno_janela_so_falha_com_zero
        (dados : DataFrame) (coluna_close : Series) (m : Z) :
  serie_close dados = Some coluna_close ->
  (0 <= m)%Z ->
  (calcular_retorno_janela dados m = Raise ZeroDivisionError
   <-> exists i d c,
         (Z.of_nat i < Z.of_nat (List.length coluna_close) - m * 21)%Z
         /\ nth_error coluna_close i = Some (d, c) /\ is_zero c = true)
  /\ ((exists retornos, calcular_retorno_janela dados m = Return retornos)
      \/ calcular_retorno_janela dados m = Raise ZeroDivisionError).
Proof.
  intros Hclose Hm. unfold calcular_retorno_janela. rewrite Hclose.
  set (n := List.length coluna_close) in *.
  set (w := Z.to_nat (m * 21)).
  assert (Hw : (m * 21)%Z = Z.of_nat w) by (unfold w; lia).
  unfold range. rewrite Hw in *.
  set (k := Z.to_nat (Z.of_nat n - Z.of_nat w)).
  destruct (existsb (fun r => is_zero (snd r)) (firstn k coluna_close)) eqn:Ez.
  - apply existsb_exists in Ez as ([d c] & Hin & Hz). cbn in Hz.
    apply In_nth_error in Hin as (i & Hi).
    assert (Hik : (i < k)%nat).
    { assert (Hlt : (i < List.length (firstn k coluna_close))%nat)
        by (apply nth_error_Some; congruence).
      rewrite length_firstn in Hlt. lia. }
    rewrite nth_error_firstn in Hi.
    apply Nat.ltb_lt in Hik as Hb. rewrite Hb in Hi.
    assert (Hraise : laco_retornos coluna_close (Z.of_nat w)
                       (map Z.of_nat (seq 0 k)) [] = Raise ZeroDivisionError).
    { apply laco_retornos_zero.
      - fold n. unfold k in *. lia.
      - exists i, d, c. repeat split; auto; lia. }
    rewrite Hraise. split; [| now right].
    split; [intros _ | reflexivity].
    exists i, d, c. repeat split; auto. unfold k in Hik. lia.
  - destruct (@laco_retornos_ok coluna_close w k 0 []) as (r & Hr & _).
    { fold n. unfold k. lia. }
    { intros i d c Hi Hnth.
      destruct (is_zero c) eqn:Hz; [| reflexivity].
      assert (Hex : existsb (fun r => is_zero (snd r)) (firstn k coluna_close) = true).
      { apply existsb_exists. exists (d, c). split; [| exact Hz].
        apply nth_error_In with (n := i). rewrite nth_error_firstn.
        assert (Hb : (i <? k)%nat = true) by (apply Nat.ltb_lt; lia).
        now rewrite Hb. }
      congruence. }
    cbn [app] in Hr. rewrite Hr. split; [| left; eauto].
    split; [discriminate |].
    intros (i & d & c & Hi & Hnth & Hz).
    assert (Hex : existsb (fun r => is_zero (snd r)) (firstn k coluna_close) = true).
    { apply existsb_exists. exists (d, c). split; [| exact Hz].
      apply nth_error_In with (n := i). rewrite nth_error_firstn.
      assert (Hb : (i <? k)%nat = true) by (apply Nat.ltb_lt; unfold k; lia).
      now rewrite Hb. }
    congruence.
Qed.

Lemma retorno_janela_so_falha_com_zero_witness :
  (calcular_retorno_janela dados_22 1 = Raise ZeroDivisionError
   <-> exists i d c,
         (Z.of_nat i
          < Z.of_nat (List.length
                        (combine (map Z.of_nat (seq 0 22)) (0 :: repeat 1 21)))
            - 1 * 21)%Z
         /\ nth_error (combine (map Z.of_nat (seq 0 22)) (0 :: repeat 1 21)) i
            = Some (d, c)
         /\ is_zero c = true)
  /\ ((exists retornos, calcular_retorno_janela dados_22 1 = Return retornos)
      \/ calcular_retorno_janela dados_22 1 = Raise ZeroDivisionError).
Proof.
  apply (@retorno_janela_so_falha_com_zero dados_22
           (combine (map Z.of_nat (seq 0 22)) (0 :: repeat 1 21)) 1).
  - reflexivity.
  - lia.
Defined.

(** X4: a negative window never gives a series: the loop then runs past
    the end of the close column, and the function raises [IndexError]
    (or [ZeroDivisionError], when a zero close comes first). *)
Theorem retorno_janela_negativa (dados : DataFrame) (coluna_close : Series) (m : Z) :
  serie_close dados = Some coluna_close ->
  (m < 0)%Z ->
  exists e,
    calcular_retorno_janela dados m = Raise e
    /\ (e = IndexError \/ e = ZeroDivisionError).
Proof.
  intros Hclose Hm. unfold calcular_retorno_janela. rewrite Hclose. cbv zeta.
  apply laco_retornos_fora with (i := Z.of_nat (List.length coluna_close)).
  - unfold range. apply in_map, in_seq. lia.
  - rewrite iloc_of_nat. apply nth_error_None. lia.
Qed.

Lemma retorno_janela_negativa_witness :
  exists e,
    calcular_retorno_janela dados_23 (-1) = Raise e
    /\ (e = IndexError \/ e = ZeroDivisionError).
Proof.
  apply (@retorno_janela_negativa dados_23
           (combine (map Z.of_nat (seq 0 23)) (100 :: 50 :: repeat 110 21)) (-1)).
  - reflexivity.
  - lia.
Defined.

(** X5: without a ['Close'] column both computations raise the same
    [ValueError]; on a frame that has the column but no row, the
    percentage variation raises [IndexError] (it reads the first close)
    while the rolling return, for [m >= 0], is the empty series. *)
Theorem sem_close_ou_sem_linhas (dados : DataFrame) (m : Z) :
  (getitem dados "Close" = None ->
     calcular_variacao_percentual dados
     = Raise (ValueError "DataFrame não contém coluna 'Close'")
     /\ calcular_retorno_janela dados m
        = Raise (ValueError "DataFrame não contém coluna 'Close'"))
  /\ (getitem dados "Close" <> None -> df_index dados = [] ->
        calcular_variacao_percentual dados = Raise IndexError
        /\ ((0 <= m)%Z -> calcular_retorno_janela dados m = Return [])).
Proof.
  unfold calcular_variacao_percentual, calcular_retorno_janela, serie_close.
  split.
  - intros ->. split; reflexivity.
  - intros Hc Hidx. destruct (getitem dados "Close") as [x |]; [| congruence].
    rewrite Hidx. cbn [combine]. split; [reflexivity |].
    intros Hm. cbn [List.length]. unfold range.
    replace (Z.to_nat (Z.of_nat 0 - m * 21)) with 0%nat by lia. reflexivity.
Qed.

End RetornosBordas.

(** ** Bounds on the effort of the market fetch *)
Module FetcherLimites.
Import Py Pandas ComparacaoAtivos FetcherSpec.
Local Open Scope float_scope.

Definition n_downloads (r : list evento) : nat :=
  List.length (filter (fun e => match e with
                                | EvDownload _ => true
                                | EvSleep _ => false
                                end) r).

(** The seconds slept along a trace. *)
Definition segundos (r : list evento) : Z :=
  fold_right (fun e s => match e with
                         | EvSleep n => (n + s)%Z
                         | EvDownload _ => s
                         end) 0%Z r.

Ltac tentativa_seguinte yf :=
  rewrite laco_tentativas_cons; cbn [apos_sleep apos_download chamadas];
  match goal with
  | |- context [yf ?n] => destruct (yf n) as [? | ?]
  end;
  [ match goal with
    | |- context [empty ?d] => destruct (empty d)
    end; cbn [negb]
  | match goal with
    | |- context [(?t <? 3 - 1)%Z] =>
        let b := eval vm_compute in (t <? 3 - 1)%Z in
        change (t <? 3 - 1)%Z with b
    end; cbv iota ].

Ltac fecha_rastro :=
  unfold apos_download, apos_sleep;
  cbn [laco_tentativas snd rastro chamadas];
  solve [ eexists; split;
          [ repeat rewrite <- app_assoc; cbn [app]; reflexivity
          | cbn; repeat split; try lia;
            repeat (apply Forall_cons; [auto |]); apply Forall_nil ] ].

(** X6: a market fetch costs at most three downloads and four seconds
    of sleep: whatever the feed answers, it downloads between one and
    three times, always the requested ticker, sleeps only in steps of 2
    seconds, at most twice, and the last thing it does is a download
    (it never sleeps before giving up). *)
Theorem esforco_limitado
        (rf : option (string -> date -> date -> result DataFrame))
        (yf : nat -> resposta) (ticker : string) (di df : date) (w : Mundo) :
  startswith "RF-" ticker = false ->
  exists novos,
    rastro (snd (obter_dados_ativo rf yf ticker di df w)) = rastro w ++ novos
    /\ chamadas (snd (obter_dados_ativo rf yf ticker di df w))
       = (chamadas w + n_downloads novos)%nat
    /\ (1 <= n_downloads novos <= 3)%nat
    /\ (0 <= segundos novos <= 4)%Z
    /\ Forall (fun e => e = EvDownload ticker \/ e = EvSleep 2) novos
    /\ last novos (EvSleep 0) = EvDownload ticker.
Proof.
  intros Hrf. rewrite obter_dados_ativo_mundo by exact Hrf.
  tentativa_seguinte yf; try fecha_rastro;
    tentativa_seguinte yf; try fecha_rastro;
    tentativa_seguinte yf; fecha_rastro.
Qed.

Lemma esforco_limitado_witness :
  exists novos,
    rastro (snd (obter_dados_ativo None yf_erro_depois_dados "AAPL" 0%Z 10%Z
                   mundo_inicial))
    = rastro mundo_inicial ++ novos
    /\ chamadas (snd (obter_dados_ativo None yf_erro_depois_dados "AAPL" 0%Z 10%Z
                        mundo_inicial))
       = (chamadas mundo_inicial + n_downloads novos)%nat
    /\ (1 <= n_downloads novos <= 3)%nat
    /\ (0 <= segundos novos <= 4)%Z
    /\ Forall (fun e => e = EvDownload "AAPL" \/ e = EvSleep 2) novos
    /\ last novos (EvSleep 0) = EvDownload "AAPL".
Proof.
  apply (@esforco_limitado None yf_erro_depois_dados "AAPL" 0%Z 10%Z mundo_inicial).
  reflexivity.
Defined.


(** Two feeds that answer call by call with the same frame, or both with
    an exception (not necessarily the same one). *)
Definition mesma_forma (r r' : resposta) : Prop :=
  match r, r' with
  | RespDados d, RespDados d' => d = d'
  | RespErro _, RespErro _ => True
  | _, _ => False
  end.

Definition mesma_saida (s s' : saida_laco) : Prop :=
  match s, s' with
  | Retornou d, Retornou d' => d = d'
  | Esgotou _, Esgotou _ => True
  | _, _ => False
  end.

Lemma laco_tentativas_mesma_forma yf yf' ticker tentativas :
  (forall n, mesma_forma (yf n) (yf' n)) ->
  forall indices u u' w,
    mesma_saida (fst (laco_tentativas yf ticker tentativas indices u w))
                (fst (laco_tentativas yf' ticker tentativas indices u' w))
    /\ snd (laco_tentativas yf ticker tentativas indices u w)
       = snd (laco_tentativas yf' ticker tentativas indices u' w).
Proof.
  intros Hyf. induction indices as [| t resto IH]; intros u u' w.
  - cbn. auto.
  - rewrite !laco_tentativas_cons. specialize (Hyf (chamadas w)).
    destruct (yf (chamadas w)) as [d | e], (yf' (chamadas w)) as [d' | e'];
      cbn in Hyf; try contradiction.
    + subst d'. destruct (negb (empty d)); [cbn; auto | apply IH].
    + destruct (t <? tentativas - 1)%Z; [apply IH | cbn; auto].
Qed.

(** X7: what the caller gets never depends on which exceptions the feed
    raised: two feeds that fail at the same calls, with whatever
    exceptions, and otherwise answer alike, lead to the same result
    (the same data or the same [ValueError] message) and the same
    downloads and sleeps.  The text of the last error is recorded by the
    loop and never read. *)
Theorem resultado_independe_da_excecao
        (rf : option (string -> date -> date -> result DataFrame))
        (yf yf' : nat -> resposta) (ticker : string) (di df : date) (w : Mundo) :
  (forall n, mesma_forma (yf n) (yf' n)) ->
  obter_dados_ativo rf yf ticker di df w = obter_dados_ativo rf yf' ticker di df w.
Proof.
  intros Hyf. unfold obter_dados_ativo.
  destruct (startswith "RF-" ticker); [reflexivity |]. cbv zeta.
  destruct (@laco_tentativas_mesma_forma yf yf' ticker 3 Hyf (range 3) None None w)
    as [Hs Hw].
  destruct (laco_tentativas yf ticker 3 (range 3) None w) as [s w1].
  destruct (laco_tentativas yf' ticker 3 (range 3) None w) as [s' w1'].
  cbn [fst snd] in *. subst w1'.
  destruct s as [d | u], s' as [d' | u']; cbn in Hs; try contradiction;
    congruence.
Qed.

Definition yf_erro_de_chave (n : nat) : resposta := RespErro (KeyError "Close").

Lemma resultado_independe_da_excecao_witness :
  obter_dados_ativo None yf_sempre_erro "AAPL" 0%Z 10%Z mundo_inicial
  = obter_dados_ativo None yf_erro_de_chave "AAPL" 0%Z 10%Z mundo_inicial.
Proof.
  apply (@resultado_independe_da_excecao None yf_sempre_erro yf_erro_de_chave
           "AAPL" 0%Z 10%Z mundo_inicial).
  intros n. exact I.
Defined.

End FetcherLimites.

(** ** The detectors: what the periods cover, and how the two agree *)
Module DetectoresCobertura.
Import Py Pandas ComparacaoAtivos PyFacts DetectoresSpec.
Local Open Scope float_scope.

(** The date [d] lies within one of the periods. *)
Definition coberta (ps : list Periodo) (d : date) : Prop :=
  exists pd, In pd ps /\ (p_inicio pd <= d <= p_fim pd)%Z.

(** After [k] rows, every row read where [B > A] holds lies within a
    period emitted so far, or at or after the start of the open run. *)
Definition cobre (al : list Linha) (k : nat) (st : EstadoPeriodos) : Prop :=
  forall i l, (i < k)%nat -> nth_error al i = Some l -> sup l = true ->
    coberta (periodos st) (l_data l)
    \/ exists ini, inicio st = Some ini /\ (ini <= l_data l)%Z.

Lemma coberta_app ps qs d : coberta ps d -> coberta (ps ++ qs) d.
Proof.
  intros (pd & Hin & Hd). exists pd. split; [| exact Hd].
  apply in_or_app. now left.
Qed.

Lemma passo_periodos_cobre al k l st st' :
  crescente al ->
  nth_error al k = Some l ->
  inv_periodos al k st -> cobre al k st ->
  passo_periodos al st (Z.of_nat k) (l_data l) (sup l) = Return st' ->
  cobre al (S k) st'.
Proof.
  intros Hcres Hk (c & Hcad & Hst) Hcob. unfold passo_periodos.
  assert (Hlen : (k < List.length al)%nat)
    by (apply nth_error_Some; congruence).
  destruct (sup l) eqn:Hs, (inicio st) as [ini |] eqn:Hini.
  - intros [= <-]. intros i l0 Hi Hl0 Hs0.
    destruct (Nat.eq_dec i k) as [-> | Hne].
    + right. exists ini. split; [exact Hini |].
      destruct Hst as (_ & p & Hp & Hc & _).
      assert (l0 = l) as -> by congruence.
      apply Z.lt_le_incl.
      apply (datas_estritas Hcres (i := p) (k := k)); [lia | exact Hp |].
      exists l. auto.
    + apply Hcob with (i := i); auto. lia.
  - intros [= <-]. cbn [periodos inicio]. intros i l0 Hi Hl0 Hs0.
    destruct (Nat.eq_dec i k) as [-> | Hne].
    + right. exists (l_data l). split; [reflexivity |].
      assert (l0 = l) as -> by congruence. lia.
    + destruct (Hcob i l0) as [Hc | (ini & Hini' & _)]; auto; [lia | congruence].
  - destruct Hst as (_ & p & Hp & Hc & Hts).
    destruct (@nth_error_existe _ al (k - 1)) as (lq & Hq); [lia |].
    replace (Z.of_nat k - 1)%Z with (Z.of_nat (k - 1)) by lia.
    rewrite (linha_em_nat _ _ Hq). cbn [bind].
    intros [= <-]. cbn [periodos inicio]. intros i l0 Hi Hl0 Hs0.
    destruct (Nat.eq_dec i k) as [-> | Hne]; [congruence |]. left.
    destruct (Hcob i l0) as [Hcb | (ini' & Hini' & Hle)]; auto; [lia | |].
    + now apply coberta_app.
    + rewrite Hini in Hini'. injection Hini' as <-.
      exists (mkPeriodo ini (l_data lq) (l_data lq - ini + 1)).
      split; [apply in_or_app; right; now left |]. cbn [p_inicio p_fim].
      split; [exact Hle |].
      apply (datas_monotonas Hcres (i := i) (k := (k - 1)%nat)); [lia | |];
        eexists; eauto.
  - intros [= <-]. intros i l0 Hi Hl0 Hs0.
    destruct (Nat.eq_dec i k) as [-> | Hne]; [congruence |].
    apply Hcob with (i := i); auto. lia.
Qed.

Lemma laco_periodos_cobre al :
  crescente al ->
  forall suf k st st',
    (forall i l, nth_error suf i = Some l -> nth_error al (k + i) = Some l) ->
    inv_periodos al k st -> cobre al k st ->
    laco_periodos al (itens_de k suf) st = Return st' ->
    inv_periodos al (k + List.length suf) st'
    /\ cobre al (k + List.length suf) st'.
Proof.
  intros Hcres. induction suf as [| l suf IH]; intros k st st' Hsuf Hinv Hcob.
  - cbn. intros [= <-]. now rewrite Nat.add_0_r.
  - rewrite itens_de_cons. cbn [laco_periodos].
    assert (Hk : nth_error al k = Some l)
      by (rewrite <- (Nat.add_0_r k); now apply Hsuf).
    destruct (passo_periodos_inv Hk Hinv) as (st1 & Hst1 & Hinv1).
    pose proof (passo_periodos_cobre Hcres Hk Hinv Hcob Hst1) as Hcob1.
    rewrite Hst1. cbn [bind]. intros Hlaco.
    cbn [List.length].
    replace (k + S (List.length suf))%nat with (S k + List.length suf)%nat by lia.
    apply IH with (st := st1); auto.
    intros i l' Hi. replace (S k + i)%nat with (k + S i)%nat by lia.
    now apply Hsuf.
Qed.

(** On a frame with increasing dates, every row where [B > A] holds has
    its date within one of the periods. *)
Lemma periodos_do_alinhado_cobrem (al : list Linha) (ps : list Periodo) :
  crescente al ->
  periodos_do_alinhado al = Return ps ->
  forall l, In l al -> sup l = true -> coberta ps (l_data l).
Proof.
  intros Hcres. unfold periodos_do_alinhado. cbv zeta.
  rewrite enumerate_superacao.
  destruct (laco_periodos al (itens_de 0 al) (mkEstadoPeriodos None [])) as [st | e]
    eqn:Hlaco; [| discriminate].
  destruct (@laco_periodos_cobre al Hcres al 0%nat (mkEstadoPeriodos None []) st)
    as [Hinv Hcob]; auto.
  { exists 0%nat. cbn. repeat split; auto. constructor. }
  { intros i l Hi. lia. }
  cbn [bind Nat.add] in *.
  destruct (inicio st) as [ini |] eqn:Hini.
  - destruct Hinv as (c & Hcad & Hfin). rewrite Hini in Hfin.
    destruct Hfin as (_ & p & Hp & Hc & _).
    assert (Hne : al <> []) by (destruct al; [cbn in Hc; lia | discriminate]).
    destruct (@nth_error_existe _ al (List.length al - 1)) as (lf & Hlf); [lia |].
    unfold linha_em. rewrite (iloc_menos1 Hne), Hlf. cbn [bind].
    intros [= <-] l Hin Hs.
    apply In_nth_error in Hin as (i & Hi).
    assert (Hil : (i < List.length al)%nat) by (apply nth_error_Some; congruence).
    destruct (Hcob i l) as [Hcb | (ini' & Hini' & Hle)]; auto.
    + now apply coberta_app.
    + rewrite Hini in Hini'. injection Hini' as <-.
      exists (mkPeriodo ini (l_data lf) (l_data lf - ini + 1)).
      split; [apply in_or_app; right; now left |]. cbn [p_inicio p_fim].
      split; [exact Hle |].
      apply (datas_monotonas Hcres (i := i) (k := (List.length al - 1)%nat));
        [lia | |]; eexists; eauto.
  - intros [= <-] l Hin Hs.
    apply In_nth_error in Hin as (i & Hi).
    assert (Hil : (i < List.length al)%nat) by (apply nth_error_Some; congruence).
    destruct (Hcob i l) as [Hcb | (ini' & Hini' & _)]; auto. congruence.
Qed.

(** A row whose date lies between the dates at two positions lies
    between these positions. *)
Lemma posicao_entre al p e i dp de l :
  crescente al ->
  data_em al p dp -> data_em al e de -> nth_error al i = Some l ->
  (dp <= l_data l <= de)%Z -> (p <= i <= e)%nat.
Proof.
  intros Hcres Hp He Hi Hd.
  assert (Hdi : data_em al i (l_data l)) by (exists l; auto).
  split.
  - destruct (le_lt_dec p i) as [| Hlt]; [assumption |].
    pose proof (datas_estritas Hcres Hlt Hdi Hp). lia.
  - destruct (le_lt_dec i e) as [| Hlt]; [assumption |].
    pose proof (datas_estritas Hcres Hlt He Hdi). lia.
Qed.

(** X8: for two series with strictly increasing dates, the periods of
    the point detector are exactly the dates where asset 2 is ahead: an
    aligned date has [B > A] if and only if it lies within one of the
    returned periods (bounds included). *)
Theorem periodos_exatos (s1 s2 : Series) :
  StronglySorted Z.lt (map fst s1) ->
  StronglySorted Z.lt (map fst s2) ->
  exists ps,
    encontrar_periodos_superacao s1 s2 = Return ps
    /\ forall l, In l (dropna (frame_de_dois s1 s2)) ->
         (sup l = true
          <-> exists pd, In pd ps /\ (p_inicio pd <= l_data l <= p_fim pd)%Z).
Proof.
  intros H1 H2.
  pose proof (@alinhado_crescente s1 s2 H1 H2) as Hcres.
  unfold encontrar_periodos_superacao.
  set (al := dropna (frame_de_dois s1 s2)) in *.
  destruct (periodos_do_alinhado_cadeia al) as (ps & Hps & Hcad & _).
  exists ps. split; [exact Hps |].
  intros l Hin. split.
  - intros Hs. exact (@periodos_do_alinhado_cobrem al ps Hcres Hps l Hin Hs).
  - intros (pd & Hpd & Hd).
    apply cadeia_todos in Hcad. rewrite Forall_forall in Hcad.
    destruct (Hcad pd Hpd) as (p & e & Hp & He & _ & _ & Hts & _).
    apply In_nth_error in Hin as (i & Hi).
    apply (Hts i l); [| exact Hi].
    exact (@posicao_entre al p e i _ _ l Hcres Hp He Hi Hd).
Qed.

Lemma periodos_exatos_witness :
  exists ps,
    encontrar_periodos_superacao var_a var_b = Return ps
    /\ forall l, In l (dropna (frame_de_dois var_a var_b)) ->
         (sup l = true
          <-> exists pd, In pd ps /\ (p_inicio pd <= l_data l <= p_fim pd)%Z).
Proof.
  apply (@periodos_exatos var_a var_b);
    cbn; repeat (constructor; try reflexivity).
Defined.

(** *** The total of days *)

Definition soma_dias (ps : list Periodo) : Z :=
  fold_right (fun p s => (p_dias p + s)%Z) 0%Z ps.

Lemma total_dias_soma ps : total_dias ps = soma_dias ps.
Proof.
  unfold total_dias.
  assert (H : forall a, fold_left (fun soma p => (soma + p_dias p)%Z) ps a
                        = (a + soma_dias ps)%Z).
  { induction ps as [| p ps IH]; intros a; cbn [fold_left].
    - unfold soma_dias. cbn. lia.
    - rewrite IH. unfold soma_dias. cbn [fold_right]. lia. }
  rewrite H. lia.
Qed.

(** Disjoint intervals of days laid out between [lo] and [hi] count at
    most [hi - lo + 1] days. *)
Lemma soma_dias_limitada ps :
  forall lo hi,
    (lo <= hi + 1)%Z ->
    Forall (fun p => (lo <= p_inicio p)%Z /\ (p_inicio p <= p_fim p)%Z
                     /\ (p_fim p <= hi)%Z
                     /\ p_dias p = (p_fim p - p_inicio p + 1)%Z) ps ->
    ForallOrdPairs (fun x y => (p_fim x < p_inicio y)%Z) ps ->
    (0 <= soma_dias ps <= hi - lo + 1)%Z.
Proof.
  induction ps as [| x ps IH]; intros lo hi Hlo Hall Hord; [cbn; lia |].
  change (soma_dias (x :: ps)) with (p_dias x + soma_dias ps)%Z.
  inversion Hall as [| ? ? (Hx1 & Hx2 & Hx3 & Hx4) Hps]; subst.
  inversion Hord as [| ? ? Hxs Hord']; subst.
  assert (Hrec : (0 <= soma_dias ps <= hi - (p_fim x + 1) + 1)%Z).
  { apply IH; [lia | | exact Hord'].
    rewrite Forall_forall in *. intros y Hy.
    destruct (Hps y Hy) as (Hy1 & Hy2 & Hy3 & Hy4).
    specialize (Hxs y Hy). repeat split; auto; lia. }
  lia.
Qed.

(** X9: for two series with strictly increasing dates, every period
    counts at least one day, and the total of days of superation that
    the comparison reports is at most the number of calendar days from
    the first aligned date to the last one. *)
Theorem total_dias_limitado (s1 s2 : Series) :
  StronglySorted Z.lt (map fst s1) ->
  StronglySorted Z.lt (map fst s2) ->
  exists ps,
    encontrar_periodos_superacao s1 s2 = Return ps
    /\ Forall (fun p => (1 <= p_dias p)%Z) ps
    /\ (0 <= total_dias ps)%Z
    /\ (forall l0 lf,
          nth_error (dropna (frame_de_dois s1 s2)) 0 = Some l0 ->
          nth_error (dropna (frame_de_dois s1 s2))
                    (List.length (dropna (frame_de_dois s1 s2)) - 1) = Some lf ->
          (total_dias ps <= l_data lf - l_data l0 + 1)%Z)
    /\ (dropna (frame_de_dois s1 s2) = [] -> total_dias ps = 0%Z).
Proof.
  intros H1 H2.
  pose proof (@alinhado_crescente s1 s2 H1 H2) as Hcres.
  unfold encontrar_periodos_superacao.
  set (al := dropna (frame_de_dois s1 s2)) in *.
  destruct (periodos_do_alinhado_cadeia al) as (ps & Hps & Hcad & _ & Hvazio).
  exists ps. split; [exact Hps |].
  destruct (@cadeia_ordem _ _ al p_inicio p_fim (@pos_periodo_datas al) Hcres _ _ _ Hcad)
    as [Hle Hord].
  pose proof (cadeia_todos Hcad) as Hpos.
  assert (Hdias : Forall (fun p => p_dias p = (p_fim p - p_inicio p + 1)%Z) ps).
  { eapply Forall_impl; [| exact Hpos]. cbn.
    intros pd (p & e & _ & _ & Hd & _). exact Hd. }
  split; [| split; [| split]].
  - rewrite Forall_forall in *. intros pd Hpd.
    specialize (Hle pd Hpd). specialize (Hdias pd Hpd). lia.
  - rewrite total_dias_soma.
    assert (Hnn : Forall (fun p => (0 <= p_dias p)%Z) ps).
    { rewrite Forall_forall in *. intros pd Hpd.
      specialize (Hle pd Hpd). specialize (Hdias pd Hpd). lia. }
    clear - Hnn. induction Hnn as [| x l Hx Hl IH]; [cbn; lia |].
    change (soma_dias (x :: l)) with (p_dias x + soma_dias l)%Z. lia.
  - intros l0 lf Hl0 Hlf. rewrite total_dias_soma.
    assert (Hn : (0 < List.length al)%nat)
      by (destruct al; [discriminate | cbn; lia]).
    assert (H0f : (l_data l0 <= l_data lf)%Z).
    { apply (datas_monotonas Hcres (i := 0%nat) (k := (List.length al - 1)%nat));
        [lia | |]; eexists; eauto. }
    apply (@soma_dias_limitada ps (l_data l0) (l_data lf)); [lia | | exact Hord].
    rewrite Forall_forall in *. intros pd Hpd.
    destruct (Hpos pd Hpd) as (p & e & Hp & He & Hd & Hpe & _).
    specialize (Hle pd Hpd).
    repeat split; auto.
    + apply (datas_monotonas Hcres (i := 0%nat) (k := p)); [lia | | exact Hp].
      eexists; eauto.
    + assert (He' : (e < List.length al)%nat).
      { destruct He as (le & Hle' & _). apply nth_error_Some. congruence. }
      apply (datas_monotonas Hcres (i := e) (k := (List.length al - 1)%nat));
        [lia | exact He |]. eexists; eauto.
  - intros Hal. rewrite (Hvazio Hal). reflexivity.
Qed.

Lemma total_dias_limitado_witness :
  exists ps,
    encontrar_periodos_superacao var_a var_b = Return ps
    /\ Forall (fun p => (1 <= p_dias p)%Z) ps
    /\ (0 <= total_dias ps)%Z
    /\ (forall l0 lf,
          nth_error (dropna (frame_de_dois var_a var_b)) 0 = Some l0 ->
          nth_error (dropna (frame_de_dois var_a var_b))
                    (List.length (dropna (frame_de_dois var_a var_b)) - 1) = Some lf ->
          (total_dias ps <= l_data lf - l_data l0 + 1)%Z)
    /\ (dropna (frame_de_dois var_a var_b) = [] -> total_dias ps = 0%Z).
Proof.
  apply (@total_dias_limitado var_a var_b);
    cbn; repeat (constructor; try reflexivity).
Defined.

End DetectoresCobertura.

(** ** The two detectors find the same runs *)
Module DetectoresAcordo.
Import Py Pandas ComparacaoAtivos PyFacts DetectoresSpec.
Local Open Scope float_scope.

(** The window [j] and the period [pd] report the same run: same start
    date; the period ends at the last row [q] of the run, whose values
    the window carries; the window ends at the row after [q], where
    [B > A] is false, or with the period when the run reaches the end of
    the frame. *)
Definition mesma_corrida (al : list Linha) (j : Janela) (pd : Periodo) : Prop :=
  j_inicio j = p_inicio pd
  /\ exists q lq,
       nth_error al q = Some lq
       /\ p_fim pd = l_data lq
       /\ j_ret1 j = l_ativo1 lq /\ j_ret2 j = l_ativo2 lq
       /\ ((exists l, nth_error al (S q) = Some l
                      /\ j_fim j = l_data l /\ sup l = false)
           \/ (S q = List.length al /\ j_fim j = p_fim pd)).

(** The two scans go in step. *)
Definition em_passo (al : list Linha) (k : nat)
           (stj : EstadoJanelas) (stp : EstadoPeriodos) : Prop :=
  Forall2 (mesma_corrida al) (janelas stj) (periodos stp)
  /\ match inicio stp with
     | Some ini =>
         em_superacao stj = true
         /\ exists p lp, inicio_idx stj = Some (Z.of_nat p)
              /\ nth_error al p = Some lp /\ l_data lp = ini /\ (p < k)%nat
     | None => em_superacao stj = false
     end.

Lemma passos_em_passo al k l stj stp stj' stp' :
  nth_error al k = Some l ->
  em_passo al k stj stp ->
  passo_janelas al stj (Z.of_nat k) (l_data l) (sup l) = Return stj' ->
  passo_periodos al stp (Z.of_nat k) (l_data l) (sup l) = Return stp' ->
  em_passo al (S k) stj' stp'.
Proof.
  intros Hk (Hf2 & Hst). unfold passo_janelas, passo_periodos.
  assert (Hlen : (k < List.length al)%nat)
    by (apply nth_error_Some; congruence).
  destruct (sup l) eqn:Hs, (inicio stp) as [ini |] eqn:Hini.
  - destruct Hst as (Hem & p & lp & Hidx & Hp & Hd & Hpk).
    rewrite Hem. cbn [andb negb]. intros [= <-] [= <-].
    split; [exact Hf2 |]. rewrite Hini. split; [exact Hem |].
    exists p, lp. repeat split; auto.
  - rewrite Hst. cbn [andb negb]. intros [= <-] [= <-].
    split; [exact Hf2 |]. cbn [inicio em_superacao inicio_idx].
    split; [reflexivity |]. exists k, l. repeat split; auto.
  - destruct Hst as (Hem & p & lp & Hidx & Hp & Hd & Hpk).
    rewrite Hem, Hidx. cbn [andb negb].
    destruct (@nth_error_existe _ al (k - 1)) as (lq & Hq); [lia |].
    rewrite (linha_em_nat _ _ Hp). cbn [bind].
    replace (Z.of_nat k - 1)%Z with (Z.of_nat (k - 1)) by lia.
    rewrite (linha_em_nat _ _ Hq). cbn [bind].
    intros [= <-] [= <-].
    cbn [janelas periodos inicio em_superacao]. split; [| reflexivity].
    apply Forall2_app; [exact Hf2 |]. constructor; [| constructor].
    split; [cbn; congruence |].
    exists (k - 1)%nat, lq.
    cbn [p_fim p_inicio j_inicio j_fim j_ret1 j_ret2].
    repeat (split; [auto; fail |]).
    left. exists l. replace (S (k - 1)) with k by lia. auto.
  - rewrite Hst. cbn [andb negb]. intros [= <-] [= <-].
    split; [exact Hf2 |]. now rewrite Hini.
Qed.

Lemma lacos_em_passo al :
  forall suf k stj stp stj' stp',
    (forall i l, nth_error suf i = Some l -> nth_error al (k + i) = Some l) ->
    em_passo al k stj stp ->
    laco_janelas al (itens_de k suf) stj = Return stj' ->
    laco_periodos al (itens_de k suf) stp = Return stp' ->
    em_passo al (k + List.length suf) stj' stp'.
Proof.
  induction suf as [| l suf IH]; intros k stj stp stj' stp' Hsuf Hrel.
  - cbn. intros [= <-] [= <-]. now rewrite Nat.add_0_r.
  - rewrite itens_de_cons. cbn [laco_janelas laco_periodos].
    assert (Hk : nth_error al k = Some l)
      by (rewrite <- (Nat.add_0_r k); now apply Hsuf).
    destruct (passo_janelas al stj (Z.of_nat k) (l_data l) (sup l))
      as [stj1 | ej] eqn:Hj; cbn [bind]; [| discriminate].
    destruct (passo_periodos al stp (Z.of_nat k) (l_data l) (sup l))
      as [stp1 | ep] eqn:Hp; cbn [bind]; [| discriminate].
    intros Hlj Hlp. cbn [List.length].
    replace (k + S (List.length suf))%nat with (S k + List.length suf)%nat by lia.
    apply IH with (stj := stj1) (stp := stp1); auto.
    + intros i l' Hi. replace (S k + i)%nat with (k + S i)%nat by lia.
      now apply Hsuf.
    + exact (passos_em_passo Hk Hrel Hj Hp).
Qed.

Lemma alinhado_mesmas_corridas (al : list Linha) (m : Z) js ps :
  janelas_do_alinhado al m = Return js ->
  periodos_do_alinhado al = Return ps ->
  Forall2 (mesma_corrida al) js ps.
Proof.
  destruct al as [| l0 al'] eqn:Hal.
  { cbn. intros [= <-] [= <-]. constructor. }
  rewrite <- Hal. assert (Hne : al <> []) by (subst; discriminate).
  rewrite (janelas_do_alinhado_nao_vazio m Hne).
  unfold periodos_do_alinhado. cbv zeta. rewrite enumerate_superacao.
  destruct (laco_janelas al (itens_de 0 al) (mkEstadoJanelas false None []))
    as [stj | ej] eqn:Hj; cbn [bind]; [| discriminate].
  destruct (laco_periodos al (itens_de 0 al) (mkEstadoPeriodos None []))
    as [stp | ep] eqn:Hp; cbn [bind]; [| discriminate].
  destruct (@lacos_em_passo al al 0%nat (mkEstadoJanelas false None [])
              (mkEstadoPeriodos None []) stj stp) as [Hf2 Hst]; auto.
  { split; [constructor | reflexivity]. }
  cbn [Nat.add] in Hst.
  assert (Hpos : (0 < List.length al)%nat) by (subst; cbn; lia).
  destruct (@nth_error_existe _ al (List.length al - 1)) as (lf & Hlf); [lia |].
  destruct (inicio stp) as [ini |] eqn:Hini.
  - destruct Hst as (Hem & p & lp & Hidx & Hpn & Hd & Hpk).
    rewrite Hem, Hidx. rewrite (linha_em_nat _ _ Hpn). cbn [bind].
    unfold linha_em. rewrite (iloc_menos1 Hne), Hlf. cbn [bind].
    intros [= <-] [= <-].
    apply Forall2_app; [exact Hf2 |]. constructor; [| constructor].
    split; [cbn; congruence |].
    exists (List.length al - 1)%nat, lf.
    cbn [p_fim p_inicio j_inicio j_fim j_ret1 j_ret2].
    repeat (split; [auto; fail |]).
    right. split; [lia | reflexivity].
  - rewrite Hst. intros [= <-] [= <-]. exact Hf2.
Qed.

(** X10: on the same pair of series the two detectors find the same
    runs, one window per period and in the same order: each window
    starts on the start date of its period and carries the values of the
    row on which the period ends; it ends one aligned row later, on a
    row where [B > A] is false, or together with the period when the run
    reaches the end of the frame. *)
Theorem detectores_mesmas_corridas (s1 s2 : Series) (janela_meses : Z) :
  exists js ps,
    encontrar_janelas_superacao s1 s2 janela_meses = Return js
    /\ encontrar_periodos_superacao s1 s2 = Return ps
    /\ Forall2 (mesma_corrida (dropna (frame_de_dois s1 s2))) js ps.
Proof.
  unfold encontrar_janelas_superacao, encontrar_periodos_superacao.
  set (al := dropna (frame_de_dois s1 s2)).
  destruct (janelas_do_alinhado_cadeia al janela_meses) as (js & Hjs & _).
  destruct (periodos_do_alinhado_cadeia al) as (ps & Hps & _).
  exists js, ps. repeat split; auto.
  exact (@alinhado_mesmas_corridas al janela_meses js ps Hjs Hps).
Qed.

End DetectoresAcordo.

(** ** The consolidated rate series *)
Module ConsolidacaoSpec.
Import Py Pandas ComparacaoAtivos RendaFixaBR RendaFixaSpec.
Local Open Scope float_scope.

(** *** The slices the loop asks for *)

(** Slice number [i] of the range from [a] to [e]: it starts 1826 days
    after the one before and spans at most 1826 days. *)
Definition fatia (a e : date) (i : nat) : date * date :=
  ((a + 1826 * Z.of_nat i)%Z, Z.min (a + 1826 * Z.of_nat i + 1825) e).

Definition n_fatias (a e : date) : nat := Z.to_nat ((e - a + 1825) / 1826).

Definition fatias (a e : date) : list (date * date) :=
  map (fatia a e) (seq 0 (n_fatias a e)).

(** What the slices bring, in the order asked. *)
Definition colhidos (fonte : FonteBCB) (serie : Z) (a e : date) : list registro :=
  flat_map (fun ab => buscar_fatia fonte serie (fst ab) (snd ab)) (fatias a e).

Lemma fatias_passo a e :
  (a + 1825 < e)%Z ->
  fatias a e = (a, (a + 1825)%Z) :: fatias (a + 1826)%Z e.
Proof.
  intros H. unfold fatias, n_fatias.
  replace ((e - a + 1825) / 1826)%Z with ((e - (a + 1826) + 1825) / 1826 + 1)%Z.
  2:{ replace (e - a + 1825)%Z with ((e - (a + 1826) + 1825) + 1 * 1826)%Z by lia.
      rewrite Z.div_add by lia. reflexivity. }
  assert (Hnn : (0 <= (e - (a + 1826) + 1825) / 1826)%Z)
    by (apply Z.div_pos; lia).
  rewrite Z2Nat.inj_add by lia.
  change (Z.to_nat 1) with 1%nat. rewrite Nat.add_comm. cbn [Nat.add seq map].
  f_equal.
  - unfold fatia. cbn [Z.of_nat]. f_equal; lia.
  - rewrite <- seq_shift, map_map. apply map_ext. intros i.
    unfold fatia. f_equal; [lia |]. f_equal. lia.
Qed.

Lemma fatias_ultima a e :
  (a < e)%Z -> (e <= a + 1825)%Z -> fatias a e = [(a, e)].
Proof.
  intros H1 H2. unfold fatias, n_fatias.
  replace ((e - a + 1825) / 1826)%Z with 1%Z.
  2:{ apply Z.div_unique with (r := (e - a - 1)%Z); lia. }
  change (Z.to_nat 1) with 1%nat. cbn [seq map]. unfold fatia.
  change (Z.of_nat 0) with 0%Z. f_equal. f_equal; lia.
Qed.

Lemma fatias_nenhuma a e : (e <= a)%Z -> fatias a e = [].
Proof.
  intros H. unfold fatias, n_fatias.
  replace (Z.to_nat ((e - a + 1825) / 1826)) with 0%nat; [reflexivity |].
  assert ((e - a + 1825) / 1826 <= 0)%Z; [| lia].
  assert ((e - a + 1825) / 1826 < 1)%Z; [| lia].
  apply Z.div_lt_upper_bound; lia.
Qed.

(** The loop collects the answers to these slices, one request each. *)
Lemma laco_fatias_plano fonte serie :
  forall (n : nat) a e todos,
    (Z.to_nat (e - a) <= n)%nat ->
    laco_fatias fonte serie a e todos = todos ++ colhidos fonte serie a e.
Proof.
  unfold colhidos.
  induction n as [| n IH]; intros a e todos Hn;
    rewrite laco_fatias_eq; destruct (a <? e)%Z eqn:Elt;
    rewrite ?Z.ltb_lt, ?Z.ltb_ge in Elt; try lia.
  - rewrite fatias_nenhuma by lia. cbn. now rewrite app_nil_r.
  - destruct (Z.le_gt_cases e (a + 1825)) as [Hle | Hgt].
    + rewrite Z.min_r by lia. rewrite IH by lia.
      rewrite (@fatias_nenhuma (e + 1)%Z e) by lia.
      rewrite fatias_ultima by lia. cbn. now rewrite !app_nil_r.
    + rewrite Z.min_l by lia. rewrite IH by lia.
      rewrite (@fatias_passo a e) by lia.
      cbn [flat_map fst snd]. rewrite <- app_assoc.
      replace (a + 1825 + 1)%Z with (a + 1826)%Z by lia. reflexivity.
  - rewrite fatias_nenhuma by lia. cbn. now rewrite app_nil_r.
Qed.

Lemma fatias_limites a e :
  Forall (fun ab => (a <= fst ab)%Z /\ (fst ab < snd ab)%Z /\ (snd ab <= e)%Z
                    /\ (snd ab - fst ab <= 1825)%Z) (fatias a e).
Proof.
  unfold fatias. apply Forall_forall. intros ab Hin.
  apply in_map_iff in Hin as (i & <- & Hi). apply in_seq in Hi.
  unfold n_fatias in Hi. unfold fatia. cbn [fst snd].
  assert (Hpos : (0 < (e - a + 1825) / 1826)%Z) by lia.
  assert (Hi' : (Z.of_nat i + 1 <= (e - a + 1825) / 1826)%Z) by lia.
  assert (Hm : (1826 * ((e - a + 1825) / 1826) <= e - a + 1825)%Z)
    by (apply Z.mul_div_le; lia).
  lia.
Qed.

(** X11: the paginated fetch asks for slice [i] from day
    [data_inicio + 1826*i] to day [min(data_inicio + 1826*i + 1825,
    data_fim)], for [i] below [ceil((data_fim - data_inicio) / 1826)], in
    this order, and consolidates what these requests bring; every slice
    lies within the requested range and spans at most 1826 days; the
    slices cover every day of the range before [data_fim], and
    [data_fim] itself exactly when the span is not a multiple of 1826. *)
Theorem paginacao_plano (fonte : FonteBCB) (serie : Z) (data_inicio data_fim : date) :
  buscar_serie_bcb fonte serie data_inicio data_fim
  = consolidar (colhidos fonte serie data_inicio data_fim)
  /\ Forall (fun ab => (data_inicio <= fst ab)%Z /\ (fst ab < snd ab)%Z
                       /\ (snd ab <= data_fim)%Z /\ (snd ab - fst ab <= 1825)%Z)
            (fatias data_inicio data_fim)
  /\ (forall d, (data_inicio <= d < data_fim)%Z ->
        exists ab, In ab (fatias data_inicio data_fim)
                   /\ (fst ab <= d <= snd ab)%Z)
  /\ ((data_inicio <= data_fim)%Z ->
      ((exists ab, In ab (fatias data_inicio data_fim)
                   /\ (fst ab <= data_fim <= snd ab)%Z)
       <-> ((data_fim - data_inicio) mod 1826 <> 0)%Z)).
Proof.
  split; [| split; [| split]].
  - unfold buscar_serie_bcb.
    now rewrite (@laco_fatias_plano fonte serie
                   (Z.to_nat (data_fim - data_inicio)) data_inicio data_fim []).
  - apply fatias_limites.
  - intros d Hd.
    set (i := ((d - data_inicio) / 1826)%Z).
    assert (Hi0 : (0 <= i)%Z) by (apply Z.div_pos; lia).
    assert (Hdm : (d - data_inicio = 1826 * i + (d - data_inicio) mod 1826)%Z)
      by (apply Z.div_mod; lia).
    assert (Hr : (0 <= (d - data_inicio) mod 1826 < 1826)%Z)
      by (apply Z.mod_pos_bound; lia).
    exists (fatia data_inicio data_fim (Z.to_nat i)). split.
    + unfold fatias. apply in_map, in_seq. unfold n_fatias.
      assert (i + 1 <= (data_fim - data_inicio + 1825) / 1826)%Z; [| lia].
      apply Z.div_le_lower_bound; lia.
    + unfold fatia. cbn [fst snd]. rewrite Z2Nat.id by lia. lia.
  - intros Hle. split.
    + intros (ab & Hin & Hd) Hmod.
      unfold fatias in Hin. apply in_map_iff in Hin as (i & <- & Hi).
      apply in_seq in Hi. unfold n_fatias in Hi. unfold fatia in Hd.
      cbn [fst snd] in Hd.
      apply Z.mod_divide in Hmod; [| lia]. destruct Hmod as (q & Hq).
      assert (Hn : ((data_fim - data_inicio + 1825) / 1826 = q)%Z).
      { symmetry. apply Z.div_unique with (r := 1825%Z); lia. }
      lia.
    + intros Hmod.
      set (i := ((data_fim - data_inicio) / 1826)%Z).
      assert (Hi0 : (0 <= i)%Z) by (apply Z.div_pos; lia).
      assert (Hdm : (data_fim - data_inicio
                     = 1826 * i + (data_fim - data_inicio) mod 1826)%Z)
        by (apply Z.div_mod; lia).
      assert (Hr : (0 <= (data_fim - data_inicio) mod 1826 < 1826)%Z)
        by (apply Z.mod_pos_bound; lia).
      exists (fatia data_inicio data_fim (Z.to_nat i)). split.
      * unfold fatias. apply in_map, in_seq. unfold n_fatias.
        assert (i + 1 <= (data_fim - data_inicio + 1825) / 1826)%Z; [| lia].
        apply Z.div_le_lower_bound; lia.
      * unfold fatia. cbn [fst snd]. rewrite Z2Nat.id by lia. lia.
Qed.

(** *** Sorting and the removal of repeated dates *)

Lemma membro_In d l : membro d l = true <-> In d l.
Proof.
  induction l as [| x r IH]; cbn; [split; [discriminate | tauto] |].
  rewrite orb_true_iff, IH, Z.eqb_eq. split; intros [H | H]; auto.
Qed.

Lemma insere_registro_In r l x :
  In x (insere_registro r l) <-> x = r \/ In x l.
Proof.
  induction l as [| y t IH]; cbn; [intuition |].
  destruct (fst r <=? fst y)%Z; cbn; [intuition |].
  rewrite IH. intuition.
Qed.

Lemma sort_index_In l x : In x (sort_index l) <-> In x l.
Proof.
  unfold sort_index. induction l as [| y t IH]; cbn; [tauto |].
  rewrite insere_registro_In, IH. intuition.
Qed.

Lemma insere_registro_ordenada r l :
  por_data l -> por_data (insere_registro r l).
Proof.
  unfold por_data. induction 1 as [| y t Ht IH Hy]; cbn [insere_registro].
  - repeat constructor.
  - unfold registro, date in *. destruct (fst r <=? fst y)%Z eqn:E.
    + apply Z.leb_le in E. constructor; [now constructor |].
      constructor; [exact E |].
      eapply Forall_impl; [| exact Hy]. cbv beta. intros z Hz.
      unfold registro, date in *. lia.
    + apply Z.leb_gt in E. constructor; [exact IH |].
      apply Forall_forall. intros z Hz.
      apply insere_registro_In in Hz as [-> | Hz].
      * unfold registro, date in *. lia.
      * rewrite Forall_forall in Hy. now apply Hy.
Qed.

Lemma sort_index_ordenada l : por_data (sort_index l).
Proof.
  unfold sort_index. induction l as [| y t IH]; cbn.
  - constructor.
  - now apply insere_registro_ordenada.
Qed.

(** Over a list in date order, keeping the first record of each date
    leaves strictly increasing dates. *)
Lemma sem_duplicadas_estrita :
  forall l vistas,
    por_data l ->
    (forall v x, In v vistas -> In x l -> (v <= fst x)%Z) ->
    StronglySorted Z.lt (map fst (sem_duplicadas vistas l))
    /\ Forall (fun x => In x l /\ forall v, In v vistas -> (v < fst x)%Z)
              (sem_duplicadas vistas l).
Proof.
  induction l as [| [d v] t IH]; intros vistas Hs Hv; cbn [sem_duplicadas].
  - split; constructor.
  - inversion Hs as [| ? ? Ht Hd]; subst.
    destruct (membro d vistas) eqn:Em.
    + destruct (IH vistas Ht) as [H1 H2].
      { intros v0 x Hv0 Hx. apply Hv; [exact Hv0 | now right]. }
      split; [exact H1 |].
      eapply Forall_impl; [| exact H2]. cbv beta. intros x [Hx Hlt].
      split; [now right | exact Hlt].
    + destruct (IH (d :: vistas) Ht) as [H1 H2].
      { intros v0 x [<- | Hv0] Hx.
        - rewrite Forall_forall in Hd. exact (Hd x Hx).
        - apply Hv; [exact Hv0 | now right]. }
      assert (Hnovo : forall v0, In v0 vistas -> (v0 < d)%Z).
      { intros v0 Hv0.
        assert (Hle : (v0 <= d)%Z) by (apply (Hv v0 (d, v)); [exact Hv0 | now left]).
        assert (Hne : v0 <> d).
        { intros ->. apply membro_In in Hv0. congruence. }
        lia. }
      split.
      * cbn [map fst]. constructor; [exact H1 |].
        rewrite Forall_forall in *. intros y Hy.
        apply in_map_iff in Hy as (x & <- & Hx).
        destruct (H2 x Hx) as [_ Hlt]. apply Hlt. now left.
      * constructor; [split; [now left | exact Hnovo] |].
        eapply Forall_impl; [| exact H2]. cbv beta. intros x [Hx Hlt].
        split; [now right |]. intros v0 Hv0. apply Hlt. now right.
Qed.

Lemma datas_da_serie_bcb
      (fonte : FonteBCB) (serie : Z) (data_inicio data_fim : date) :
  StronglySorted Z.lt
    (map fst (buscar_serie_bcb fonte serie data_inicio data_fim)).
Proof.
  unfold buscar_serie_bcb, consolidar.
  destruct (laco_fatias fonte serie data_inicio data_fim []) as [| r0 t];
    [constructor |].
  apply sem_duplicadas_estrita; [apply sort_index_ordenada | intros v x []].
Qed.

(** X12: whatever the source answers, the consolidated series is well
    formed: its dates are strictly increasing (so none is repeated),
    none of its values is NaN, and every record of it was brought by one
    of the requests. *)
Theorem serie_bcb_bem_formada
        (fonte : FonteBCB) (serie : Z) (data_inicio data_fim : date) :
  StronglySorted Z.lt
    (map fst (buscar_serie_bcb fonte serie data_inicio data_fim))
  /\ (forall r, In r (buscar_serie_bcb fonte serie data_inicio data_fim) ->
        In r (colhidos fonte serie data_inicio data_fim)
        /\ is_nan (snd r) = false).
Proof.
  unfold buscar_serie_bcb.
  rewrite (@laco_fatias_plano fonte serie
             (Z.to_nat (data_fim - data_inicio)) data_inicio data_fim []) by lia.
  cbn [app]. set (todos := colhidos fonte serie data_inicio data_fim).
  unfold consolidar. destruct todos as [| r0 t] eqn:Et.
  { split; [constructor | intros r []]. }
  rewrite <- Et. clear Et r0 t.
  set (validos := filter (fun r => negb (is_nan (snd r))) todos).
  destruct (@sem_duplicadas_estrita (sort_index validos) [])
    as [Hord Hin]; [apply sort_index_ordenada | intros v x [] |].
  split; [exact Hord |].
  intros r Hr. rewrite Forall_forall in Hin.
  destruct (Hin r Hr) as [Hs _]. apply -> sort_index_In in Hs.
  unfold validos in Hs. apply filter_In in Hs as [Hs Hn].
  split; [exact Hs |]. now destruct (is_nan (snd r)).
Qed.

End ConsolidacaoSpec.

(** ** What the savings computation hands to the comparison *)
Module PoupancaSaida.
Import Py Pandas ComparacaoAtivos RendaFixaBR RendaFixaSpec ConsolidacaoSpec.
Local Open Scope float_scope.

Lemma soma_colunas_length xs ys :
  List.length xs = List.length ys ->
  List.length (soma_colunas xs ys) = List.length xs.
Proof.
  revert ys. induction xs as [| x xs IH]; intros [| y ys] H; cbn in *;
    try discriminate; [reflexivity |].
  now rewrite IH by lia.
Qed.

Lemma mascara_length xs ps :
  List.length xs = List.length ps ->
  List.length (mascara xs ps) = List.length xs.
Proof.
  revert ps. induction xs as [| x xs IH]; intros [| p ps] H; cbn in *;
    try discriminate; [reflexivity |].
  now rewrite IH by lia.
Qed.

Lemma cumprod_length xs : List.length (cumprod xs) = List.length xs.
Proof.
  rewrite cumprod_mascara. apply mascara_length. now rewrite produtos_length.
Qed.

Lemma valor_investimento_length df :
  List.length (valor_investimento df) = List.length df.
Proof.
  unfold valor_investimento.
  rewrite length_map, cumprod_length, !length_map, soma_colunas_length;
    now rewrite !length_map.
Qed.

Lemma datas_tabela_poupanca selic tr data_inicio data_fim :
  map lp_data (tabela_poupanca selic tr data_inicio data_fim)
  = filter (fun d => (data_inicio <=? d)%Z && (d <=? data_fim)%Z) (map fst selic).
Proof.
  unfold tabela_poupanca. cbv zeta.
  generalize (match tr with
              | [] => map (fun '(d, _) => (d, 0)) selic
              | _ :: _ => tr
              end).
  intros tr'.
  induction selic as [| [d s] r IH]; cbn [map filter lp_data fst]; [reflexivity |].
  destruct ((data_inicio <=? d)%Z && (d <=? data_fim)%Z); cbn [map lp_data];
    now rewrite IH.
Qed.

Lemma filtro_ordenado (p : date -> bool) l :
  StronglySorted Z.lt l -> StronglySorted Z.lt (filter p l).
Proof.
  induction 1 as [| x l Hl IH Hx]; cbn; [constructor |].
  destruct (p x); [| exact IH]. constructor; [exact IH |].
  rewrite Forall_forall in *. intros y Hy. apply Hx.
  now apply filter_In in Hy as [Hy _].
Qed.

(** The percentage variation of a frame built as the fixed-income
    functions build it: a non-empty index and a valuation column of the
    same length under ['Close']. *)
Lemma variacao_de_quadro_rf idx v vol :
  idx <> [] -> List.length v = List.length idx ->
  exists var,
    calcular_variacao_percentual
      (mkDataFrame idx
         (Planas [("Open"%string, v); ("High"%string, v); ("Low"%string, v);
                  ("Close"%string, v); ("Volume"%string, vol);
                  ("Adj Close"%string, v)]))
    = Return var
    /\ map fst var = idx.
Proof.
  intros Hne Hlen. unfold calcular_variacao_percentual, serie_close, getitem.
  cbn [df_columns df_index valores_de filter map fst snd String.eqb Ascii.eqb
       Bool.eqb primeira_coluna].
  destruct idx as [| d0 idx']; [congruence |].
  destruct v as [| c0 v']; [discriminate |].
  cbn [combine iloc Z.leb Z.compare nth_error Z.to_nat].
  eexists. split; [reflexivity |].
  cbn [map fst]. f_equal. cbn in Hlen. injection Hlen as Hlen.
  rewrite map_map. clear -Hlen. revert v' Hlen.
  induction idx' as [| d r IH]; intros [| c v'] Hlen; try discriminate;
    cbn; [reflexivity |].
  f_equal. apply IH. now injection Hlen.
Qed.

(** X13: the savings computation ends in one of three ways, whatever the
    source answers.  It returns a frame that is not empty, whose dates
    are strictly increasing and lie within the requested range, and on
    which the percentage variation returns a series over the same dates;
    or the policy-rate series came back empty and it raises the
    [ValueError] that says so; or no policy-rate record lies in the
    range and it raises the [ValueError] of the empty period.  No other
    exception leaves it. *)
Theorem poupanca_saida (fonte : FonteBCB) (data_inicio data_fim : date) :
  (exists quadro var,
     obter_poupanca fonte data_inicio data_fim = Return quadro
     /\ empty quadro = false
     /\ StronglySorted Z.lt (df_index quadro)
     /\ Forall (fun d => (data_inicio <= d <= data_fim)%Z) (df_index quadro)
     /\ calcular_variacao_percentual quadro = Return var
     /\ map fst var = df_index quadro)
  \/ (buscar_serie_bcb fonte serie_SELIC data_inicio data_fim = []
      /\ obter_poupanca fonte data_inicio data_fim
         = Raise (ValueError
             "Não foi possível calcular rendimento da poupança: Não foi possível obter dados da SELIC"))
  \/ (Forall (fun r => negb ((data_inicio <=? fst r)%Z && (fst r <=? data_fim)%Z)
                       = true)
             (buscar_serie_bcb fonte serie_SELIC data_inicio data_fim)
      /\ obter_poupanca fonte data_inicio data_fim
         = Raise (ValueError
             "Não foi possível calcular rendimento da poupança: Nenhum dado disponível para o período solicitado")).
Proof.
  unfold obter_poupanca, corpo_poupanca. cbv zeta.
  pose proof (datas_da_serie_bcb fonte serie_SELIC data_inicio data_fim)
    as Hord.
  set (selic := buscar_serie_bcb fonte serie_SELIC data_inicio data_fim) in *.
  set (tr := buscar_serie_bcb fonte serie_TR data_inicio data_fim).
  destruct selic as [| s0 selic'] eqn:Es.
  { right. left. split; reflexivity. }
  rewrite <- Es in *. clear Es s0 selic'.
  pose proof (datas_tabela_poupanca selic tr data_inicio data_fim) as Hdatas.
  destruct (tabela_poupanca selic tr data_inicio data_fim) as [| l0 df'] eqn:Et.
  { right. right. split; [| reflexivity].
    apply Forall_forall. intros r Hr.
    destruct ((data_inicio <=? fst r)%Z && (fst r <=? data_fim)%Z) eqn:E;
      [| reflexivity].
    assert (Hin : In (fst r)
                     (filter (fun d => (data_inicio <=? d)%Z && (d <=? data_fim)%Z)
                             (map fst selic))).
    { apply filter_In. split; [now apply in_map | exact E]. }
    rewrite <- Hdatas in Hin. destruct Hin. }
  left.
  assert (Hne : map lp_data (tabela_poupanca selic tr data_inicio data_fim) <> [])
    by (rewrite Et; discriminate).
  rewrite <- Et. clear Et.
  set (df := tabela_poupanca selic tr data_inicio data_fim) in *.
  destruct (@variacao_de_quadro_rf (map lp_data df) (valor_investimento df)
              (map (fun _ => 0) df)) as (var & Hvar & Hfst).
  { exact Hne. }
  { now rewrite valor_investimento_length, length_map. }
  cbn [try_except]. eexists _, var. split; [reflexivity |].
  split; [| split; [| split; [| split]]].
  - unfold empty. cbn [df_index df_columns n_colunas List.length].
    destruct (map lp_data df); [congruence | reflexivity].
  - cbn [df_index]. unfold df. rewrite datas_tabela_poupanca.
    now apply filtro_ordenado.
  - cbn [df_index]. unfold df. rewrite datas_tabela_poupanca.
    apply Forall_forall. intros d Hd.
    apply filter_In in Hd as [_ Hd]. lia.
  - exact Hvar.
  - exact Hfst.
Qed.

End PoupancaSaida.

(** ** The cache of the CDI series *)
Module CacheSpec.
Import Py Pandas ComparacaoAtivos RendaFixaBR RendaFixaSpec.
Local Open Scope float_scope.

Lemma dict_get_set_mesmo {V} (k : string) (v : V) d :
  dict_get k (dict_set k v d) = Some v.
Proof.
  induction d as [| [k' v'] r IH]; cbn.
  - now rewrite String.eqb_refl.
  - destruct (String.eqb k k') eqn:E; cbn; rewrite ?String.eqb_refl, ?E; auto.
Qed.

Lemma dict_get_set_outro {V} (k k' : string) (v : V) d :
  k' <> k -> dict_get k' (dict_set k v d) = dict_get k' d.
Proof.
  intros Hne. apply String.eqb_neq in Hne.
  induction d as [| [k0 v0] r IH]; cbn.
  - now rewrite Hne.
  - destruct (String.eqb k k0) eqn:E; cbn.
    + apply String.eqb_eq in E. subst k0. now rewrite Hne.
    + destruct (String.eqb k' k0); auto.
Qed.

Lemma idade_menor (t agora max_dias : Z) :
  (dias_de t agora <? max_dias)%Z = true
  <-> (t < agora + max_dias * microssegundos_por_dia)%Z.
Proof.
  unfold dias_de, microssegundos_por_dia. rewrite Z.ltb_lt. split; intros H.
  - destruct (Z.lt_ge_cases t (agora + max_dias * 86400000000)) as [| Hge];
      [assumption |].
    assert (max_dias <= (t - agora) / 86400000000)%Z
      by (apply Z.div_le_lower_bound; lia).
    lia.
  - apply Z.div_lt_upper_bound; lia.
Qed.

Lemma carregar_apos_salvar ler_csv agora nome df disco :
  carregar_cache ler_csv nome (salvar_cache agora nome df disco)
  = Some (ler_csv df).
Proof.
  unfold carregar_cache, salvar_cache. cbn [arquivos_csv].
  now rewrite dict_get_set_mesmo.
Qed.

Lemma valido_apos_salvar agora nome df disco t max_dias :
  cache_valido t nome max_dias (salvar_cache agora nome df disco) = true
  <-> (t < agora + max_dias * microssegundos_por_dia)%Z.
Proof.
  unfold cache_valido, salvar_cache. cbn [ultima_atualizacao_file].
  rewrite dict_get_set_mesmo. cbv zeta. apply idade_menor.
Qed.

(** X14: what is saved is what is loaded, and it stays valid for
    [max_dias] days: after [_salvar_cache(nome, df)] at the instant
    [agora], [_carregar_cache(nome)] reads the file back,
    [_cache_valido(nome, max_dias)] holds at an instant [t] exactly when
    [t] is less than [max_dias] whole days after [agora] (at every
    earlier instant too), and the files and time stamps of the other
    names are as before. *)
Theorem cache_gravado (ler_csv : Series -> Series) (agora : instante)
        (nome : string) (df : Series) (disco : Disco) :
  carregar_cache ler_csv nome (salvar_cache agora nome df disco)
  = Some (ler_csv df)
  /\ (forall t max_dias,
        cache_valido t nome max_dias (salvar_cache agora nome df disco) = true
        <-> (t < agora + max_dias * microssegundos_por_dia)%Z)
  /\ (forall outro, outro <> nome ->
        carregar_cache ler_csv outro (salvar_cache agora nome df disco)
        = carregar_cache ler_csv outro disco
        /\ forall t max_dias,
             cache_valido t outro max_dias (salvar_cache agora nome df disco)
             = cache_valido t outro max_dias disco).
Proof.
  split; [apply carregar_apos_salvar |].
  split; [intros t max_dias; apply valido_apos_salvar |].
  intros outro Hne. split.
  - unfold carregar_cache, salvar_cache. cbn [arquivos_csv].
    now rewrite dict_get_set_outro.
  - intros t max_dias. unfold cache_valido, salvar_cache.
    cbn [ultima_atualizacao_file]. rewrite dict_get_set_outro by exact Hne.
    destruct (ultima_atualizacao_file disco); reflexivity.
Qed.

Lemma obter_cdi_do_cache ler_csv potencia fonte t1 t2 di df disco cache ultimo :
  cache_valido t1 "cdi" 7 disco = true ->
  carregar_cache ler_csv "cdi" disco = Some cache ->
  iloc (map fst cache) (-1) = Some ultimo ->
  (df <= ultimo)%Z ->
  obter_cdi ler_csv potencia fonte t1 t2 di df disco
  = (quadro_cdi potencia cache di df, disco).
Proof.
  intros Hv Hc Hu Hult. unfold obter_cdi. rewrite Hv, Hc, Hu. cbv zeta.
  assert (E : (ultimo <? df)%Z = false) by (apply Z.ltb_ge; lia).
  now rewrite E.
Qed.

(** X15: a valid cache whose last date is the day of [data_fim] or a
    later one answers alone: the source is not asked, nothing is written,
    and the frame is computed from the file as read back, whatever
    [data_inicio] is; when no cached date lies in the requested range,
    the call raises [IndexError] instead of fetching the range. *)
Theorem cdi_servido_do_cache
        (ler_csv : Series -> Series) (potencia : float -> float -> float)
        (fonte : FonteBCB) (t1 t2 : instante) (data_inicio data_fim : date)
        (disco : Disco) (cache : Series) (ultimo : date) :
  cache_valido t1 "cdi" 7 disco = true ->
  carregar_cache ler_csv "cdi" disco = Some cache ->
  iloc (map fst cache) (-1) = Some ultimo ->
  (data_fim <= ultimo)%Z ->
  obter_cdi ler_csv potencia fonte t1 t2 data_inicio data_fim disco
  = (quadro_cdi potencia cache data_inicio data_fim, disco)
  /\ ((forall r, In r cache -> (fst r < data_inicio)%Z \/ (data_fim < fst r)%Z) ->
      obter_cdi ler_csv potencia fonte t1 t2 data_inicio data_fim disco
      = (Raise IndexError, disco)).
Proof.
  intros Hv Hc Hu Hult.
  rewrite (@obter_cdi_do_cache ler_csv potencia fonte t1 t2 data_inicio data_fim
             disco cache ultimo Hv Hc Hu Hult).
  split; [reflexivity |].
  intros Hfora. f_equal. unfold quadro_cdi.
  destruct cache as [| r0 c']; [discriminate |].
  cbv zeta.
  assert (Hf : filtrar_periodo (r0 :: c') data_inicio data_fim = []).
  { unfold filtrar_periodo. generalize (r0 :: c') Hfora. clear.
    induction l as [| r l IH]; intros Hfora; cbn [filter]; [reflexivity |].
    match goal with
    | |- context [if ?c then _ else _] => assert (E : c = false)
    end.
    { destruct (Hfora r (or_introl eq_refl)) as [H | H].
      - apply andb_false_iff. left. apply Z.leb_gt. exact H.
      - apply andb_false_iff. right. apply Z.leb_gt. exact H. }
    rewrite E. apply IH. intros x Hx. apply Hfora. now right. }
  now rewrite Hf.
Qed.

Definition disco_exemplo : Disco :=
  mkDisco [("cdi"%string, [(9%Z, 13.65); (10%Z, 13.65)])]
          (Some [("cdi"%string, 0%Z)]).

(** Two calls on the same cache: the days 9 to 10, which it holds, and
    the days 1 to 5, of which it holds none. *)
Lemma cdi_servido_do_cache_witness :
  obter_cdi (fun s => s) (fun x _ => x) fonte_exemplo 1000%Z 2000%Z 9%Z 10%Z
            disco_exemplo
  = (quadro_cdi (fun x _ => x) [(9%Z, 13.65); (10%Z, 13.65)] 9%Z 10%Z,
     disco_exemplo)
  /\ obter_cdi (fun s => s) (fun x _ => x) fonte_exemplo 1000%Z 2000%Z 1%Z 5%Z
               disco_exemplo
     = (Raise IndexError, disco_exemplo).
Proof.
  split.
  - destruct (@cdi_servido_do_cache (fun s => s) (fun x _ => x) fonte_exemplo
                1000%Z 2000%Z 9%Z 10%Z disco_exemplo
                [(9%Z, 13.65); (10%Z, 13.65)] 10%Z) as [H _].
    + reflexivity.
    + reflexivity.
    + reflexivity.
    + lia.
    + exact H.
  - destruct (@cdi_servido_do_cache (fun s => s) (fun x _ => x) fonte_exemplo
                1000%Z 2000%Z 1%Z 5%Z disco_exemplo
                [(9%Z, 13.65); (10%Z, 13.65)] 10%Z) as [_ H].
    + reflexivity.
    + reflexivity.
    + reflexivity.
    + lia.
    + apply H. intros r [<- | [<- | []]]; right; cbn; lia.
Defined.

(** X16: without a valid cache the whole range is fetched.  An empty
    answer raises the [ValueError] of the CDI and leaves the disk as it
    was.  A non-empty one is saved under ["cdi"] with the instant of the
    save, and from then on every call made less than seven days after
    that instant, for the same range, is answered from the file alone
    (no request, no write), provided the last date of the series read
    back is the day of [data_fim] or a later one. *)
Theorem cdi_busca_grava_e_reusa
        (ler_csv : Series -> Series) (potencia : float -> float -> float)
        (fonte : FonteBCB) (t1 t2 : instante) (data_inicio data_fim : date)
        (disco : Disco) :
  cache_valido t1 "cdi" 7 disco = false
  \/ carregar_cache ler_csv "cdi" disco = None ->
  fst (obter_cdi ler_csv potencia fonte t1 t2 data_inicio data_fim disco)
  = quadro_cdi potencia (buscar_serie_bcb fonte serie_CDI data_inicio data_fim)
               data_inicio data_fim
  /\ (buscar_serie_bcb fonte serie_CDI data_inicio data_fim = [] ->
      obter_cdi ler_csv potencia fonte t1 t2 data_inicio data_fim disco
      = (Raise (ValueError "Não foi possível obter dados do CDI"), disco))
  /\ (buscar_serie_bcb fonte serie_CDI data_inicio data_fim <> [] ->
      snd (obter_cdi ler_csv potencia fonte t1 t2 data_inicio data_fim disco)
      = salvar_cache t2 "cdi"
          (buscar_serie_bcb fonte serie_CDI data_inicio data_fim) disco
      /\ forall fonte' t1' t2' ultimo,
           (t1' < t2 + 7 * microssegundos_por_dia)%Z ->
           iloc (map fst (ler_csv (buscar_serie_bcb fonte serie_CDI
                                     data_inicio data_fim))) (-1)
           = Some ultimo ->
           (data_fim <= ultimo)%Z ->
           obter_cdi ler_csv potencia fonte' t1' t2' data_inicio data_fim
             (snd (obter_cdi ler_csv potencia fonte t1 t2 data_inicio data_fim
                     disco))
           = (quadro_cdi potencia
                (ler_csv (buscar_serie_bcb fonte serie_CDI data_inicio data_fim))
                data_inicio data_fim,
              snd (obter_cdi ler_csv potencia fonte t1 t2 data_inicio data_fim
                     disco))).
Proof.
  intros Hsem.
  set (s := buscar_serie_bcb fonte serie_CDI data_inicio data_fim).
  assert (Hcdi : obter_cdi ler_csv potencia fonte t1 t2 data_inicio data_fim disco
                 = match s with
                   | [] => (quadro_cdi potencia s data_inicio data_fim, disco)
                   | _ => (quadro_cdi potencia s data_inicio data_fim,
                           salvar_cache t2 "cdi" s disco)
                   end).
  { unfold obter_cdi. fold s.
    destruct Hsem as [Hv | Hc].
    - now rewrite Hv.
    - rewrite Hc. now destruct (cache_valido t1 "cdi" 7 disco). }
  rewrite Hcdi. split; [now destruct s |]. split.
  - intros Hs. now rewrite Hs.
  - intros Hs. destruct s as [| r0 s'] eqn:Es; [congruence |].
    rewrite <- Es in *. cbn [snd]. split; [reflexivity |].
    intros fonte' t1' t2' ultimo Ht Hu Hult.
    apply obter_cdi_do_cache with (ultimo := ultimo); auto.
    + now apply valido_apos_salvar.
    + apply carregar_apos_salvar.
Qed.

(** A first call for the days 0 to 1 on an empty directory, at the
    instants 0 and 5, and a second one six days later with a source that
    only fails: the second is answered from what the first saved. *)
Lemma cdi_busca_grava_e_reusa_witness :
  snd (obter_cdi (fun s => s) (fun x _ => x) fonte_exemplo 0%Z 5%Z 0%Z 1%Z
                 (mkDisco [] None))
  = mkDisco [("cdi"%string, [(1%Z, 1.2)])] (Some [("cdi"%string, 5%Z)])
  /\ obter_cdi (fun s => s) (fun x _ => x) (fun _ _ _ _ => HttpOutraExcecao)
               (6 * microssegundos_por_dia)%Z (6 * microssegundos_por_dia + 1)%Z
               0%Z 1%Z
               (snd (obter_cdi (fun s => s) (fun x _ => x) fonte_exemplo 0%Z 5%Z
                               0%Z 1%Z (mkDisco [] None)))
     = (quadro_cdi (fun x _ => x) (buscar_serie_bcb fonte_exemplo serie_CDI 0%Z 1%Z)
                   0%Z 1%Z,
        snd (obter_cdi (fun s => s) (fun x _ => x) fonte_exemplo 0%Z 5%Z
                       0%Z 1%Z (mkDisco [] None))).
Proof.
  destruct (@cdi_busca_grava_e_reusa (fun s => s) (fun x _ => x) fonte_exemplo
              0%Z 5%Z 0%Z 1%Z (mkDisco [] None)) as (_ & _ & H).
  - left. reflexivity.
  - destruct H as [Hd Hr].
    + vm_compute. discriminate.
    + split.
      * rewrite Hd. reflexivity.
      * apply (Hr (fun _ _ _ _ => HttpOutraExcecao)
                  (6 * microssegundos_por_dia)%Z
                  (6 * microssegundos_por_dia + 1)%Z 1%Z).
        -- unfold microssegundos_por_dia. lia.
        -- reflexivity.
        -- lia.
Defined.

End CacheSpec.

(** ** The comparison, up to the drawing *)
Module ComparacaoSpec.
Import Py Pandas ComparacaoAtivos FetcherSpec FetcherLimites.
Local Open Scope float_scope.



End ComparacaoSpec.

(** ** The CDI valuation *)
Module CdiSpec.
Import Py Pandas ComparacaoAtivos RendaFixaBR RendaFixaSpec.
Local Open Scope float_scope.

Section Regra.
Variable potencia : float -> float -> float.

(** The factor of a date: one plus the daily rate, which is the yearly
    rate compounded over 252 business days. *)
Definition fator_cdi (r : registro) : float :=
  1 + (potencia (1 + snd r / 100) (1 / 252) - 1).

Lemma fatores_cdi (df_filtrado : Series) :
  map (fun t => 1 + t)
      (map (fun x => potencia (1 + x / 100) (1 / 252) - 1) (map snd df_filtrado))
  = map fator_cdi df_filtrado.
Proof. rewrite !map_map. reflexivity. Qed.

(** X19: the CDI frame, computed from a rate series with at least one
    record in the requested range: its dates are the dates of the series
    within the range, in the order of the series, and on each of them
    the valuation (the column ['Close']) is 100000 times the running
    product of the daily factors [1 + ((1 + rate/100) ** (1/252) - 1)]
    from the first date in the range on; as pandas does, a factor that
    is NaN counts as 1 in the product and gives NaN on its own date. *)
Theorem cdi_regra (dados_cache : Series) (data_inicio data_fim : date) :
  filtrar_periodo dados_cache data_inicio data_fim <> [] ->
  exists quadro valores produto,
    quadro_cdi potencia dados_cache data_inicio data_fim = Return quadro
    /\ df_index quadro = map fst (filtrar_periodo dados_cache data_inicio data_fim)
    /\ Forall (fun d => (data_inicio <= d <= data_fim)%Z) (df_index quadro)
    /\ getitem quadro "Close" = Some (UmaSerie valores)
    /\ (forall r,
          nth_error (filtrar_periodo dados_cache data_inicio data_fim) 0 = Some r ->
          nth_error produto 0 = Some (no_produto (fator_cdi r)))
    /\ (forall j r p,
          nth_error (filtrar_periodo dados_cache data_inicio data_fim) (S j) = Some r ->
          nth_error produto j = Some p ->
          nth_error produto (S j) = Some (p * no_produto (fator_cdi r)))
    /\ (forall j r,
          nth_error (filtrar_periodo dados_cache data_inicio data_fim) j = Some r ->
          exists p,
            nth_error produto j = Some p
            /\ nth_error valores j
               = Some (100000 * (if is_nan (fator_cdi r) then nan else p))).
Proof.
  intros Hne. unfold quadro_cdi. cbv zeta.
  destruct dados_cache as [| r0 resto] eqn:Hd.
  { exfalso. apply Hne. reflexivity. }
  rewrite <- Hd in *. clear Hd r0 resto.
  destruct (filtrar_periodo dados_cache data_inicio data_fim) as [| l0 df']
    eqn:Hdf; [congruence |].
  set (df := l0 :: df') in *.
  exists (mkDataFrame (map fst df)
            (Planas
               [("Open"%string, valor_investimento_cdi potencia df);
                ("High"%string, valor_investimento_cdi potencia df);
                ("Low"%string, valor_investimento_cdi potencia df);
                ("Close"%string, valor_investimento_cdi potencia df);
                ("Volume"%string, map (fun _ => 0) df);
                ("Adj Close"%string, valor_investimento_cdi potencia df)])).
  exists (valor_investimento_cdi potencia df), (produtos (map fator_cdi df)).
  split; [reflexivity |]. split; [reflexivity |]. split.
  { cbn [df_index]. apply Forall_forall. intros d Hin.
    apply in_map_iff in Hin as (r & <- & Hr). rewrite <- Hdf in Hr.
    unfold filtrar_periodo in Hr. apply filter_In in Hr as [_ Hr].
    apply andb_true_iff in Hr as [Ha Hb].
    apply Z.leb_le in Ha, Hb. split; assumption. }
  split; [reflexivity |]. split; [| split].
  - intros r Hr. apply produtos_0. rewrite nth_error_map.
    unfold registro, date in *. now rewrite Hr.
  - intros j r p Hr Hp. apply produtos_S; [| exact Hp].
    rewrite nth_error_map. unfold registro, date in *. now rewrite Hr.
  - intros j r Hr.
    assert (Hj : (j < List.length (produtos (map fator_cdi df)))%nat).
    { rewrite produtos_length, length_map. apply nth_error_Some.
      unfold registro, date in *. rewrite Hr. discriminate. }
    destruct (nth_error (produtos (map fator_cdi df)) j) as [p |] eqn:Hp;
      [| apply nth_error_None in Hp; lia].
    exists p. split; [reflexivity |].
    unfold valor_investimento_cdi. cbv zeta.
    rewrite fatores_cdi, cumprod_mascara, nth_error_map.
    rewrite (@mascara_nth _ _ j (fator_cdi r) p); [reflexivity | | exact Hp].
    rewrite nth_error_map. unfold registro, date in *. now rewrite Hr.
Qed.

End Regra.

Lemma cdi_regra_witness :
  exists quadro valores produto,
    quadro_cdi (fun x _ => x) [(1%Z, 13.65); (2%Z, 13.75)] 1%Z 3%Z = Return quadro
    /\ df_index quadro
       = map fst (filtrar_periodo [(1%Z, 13.65); (2%Z, 13.75)] 1%Z 3%Z)
    /\ Forall (fun d => (1 <= d <= 3)%Z) (df_index quadro)
    /\ getitem quadro "Close" = Some (UmaSerie valores)
    /\ (forall r,
          nth_error (filtrar_periodo [(1%Z, 13.65); (2%Z, 13.75)] 1%Z 3%Z) 0 = Some r ->
          nth_error produto 0 = Some (no_produto (fator_cdi (fun x _ => x) r)))
    /\ (forall j r p,
          nth_error (filtrar_periodo [(1%Z, 13.65); (2%Z, 13.75)] 1%Z 3%Z) (S j)
          = Some r ->
          nth_error produto j = Some p ->
          nth_error produto (S j)
          = Some (p * no_produto (fator_cdi (fun x _ => x) r)))
    /\ (forall j r,
          nth_error (filtrar_periodo [(1%Z, 13.65); (2%Z, 13.75)] 1%Z 3%Z) j = Some r ->
          exists p,
            nth_error produto j = Some p
            /\ nth_error valores j
               = Some (100000 * (if is_nan (fator_cdi (fun x _ => x) r)
                                 then nan else p))).
Proof.
  apply (@cdi_regra (fun x _ => x) [(1%Z, 13.65); (2%Z, 13.75)] 1%Z 3%Z).
  vm_compute. discriminate.
Defined.

End CdiSpec.

(** ** What a CDI call can do to the disk, and how it can fail *)
Module CdiEfeitos.
Import Py Pandas ComparacaoAtivos RendaFixaBR RendaFixaSpec.
Local Open Scope float_scope.

Lemma quadro_cdi_saida potencia dados_cache data_inicio data_fim :
  (exists quadro,
     quadro_cdi potencia dados_cache data_inicio data_fim = Return quadro)
  \/ quadro_cdi potencia dados_cache data_inicio data_fim
     = Raise (ValueError "Não foi possível obter dados do CDI")
  \/ quadro_cdi potencia dados_cache data_inicio data_fim = Raise IndexError.
Proof.
  unfold quadro_cdi. destruct dados_cache as [| r0 resto]; [auto |].
  cbv zeta. destruct (filtrar_periodo (r0 :: resto) data_inicio data_fim);
    [auto | left; eauto].
Qed.

(** X20: on a cache directory whose files are as [_salvar_cache] leaves
    them (each [.csv] a rate series, the time stamps a dictionary of
    instants), whichever names and series are there and whatever the
    source answers, a CDI call leaves the directory as it was or saves a
    non-empty series under ["cdi"], with the instant of the save, and
    does nothing else to it; and it returns a frame or raises one of two
    exceptions: the [ValueError] of the CDI (no data) or [IndexError].
    Files written by another hand (a text that is no JSON, a time stamp
    that [fromisoformat] refuses, a [.csv] without the column [valor])
    are not values of [Disco], and the statement says nothing of them. *)
Theorem cdi_efeitos
        (ler_csv : Series -> Series) (potencia : float -> float -> float)
        (fonte : FonteBCB) (t1 t2 : instante) (data_inicio data_fim : date)
        (disco : Disco) :
  (snd (obter_cdi ler_csv potencia fonte t1 t2 data_inicio data_fim disco) = disco
   \/ exists s, s <> []
        /\ snd (obter_cdi ler_csv potencia fonte t1 t2 data_inicio data_fim disco)
           = salvar_cache t2 "cdi" s disco)
  /\ (forall e,
        fst (obter_cdi ler_csv potencia fonte t1 t2 data_inicio data_fim disco)
        = Raise e ->
        e = ValueError "Não foi possível obter dados do CDI" \/ e = IndexError).
Proof.
  assert (Hq : forall dados e,
             quadro_cdi potencia dados data_inicio data_fim = Raise e ->
             e = ValueError "Não foi possível obter dados do CDI" \/ e = IndexError).
  { intros dados e He.
    destruct (quadro_cdi_saida potencia dados data_inicio data_fim)
      as [(q & Hq) | [Hq | Hq]]; rewrite Hq in He; [discriminate | |];
      injection He as <-; auto. }
  unfold obter_cdi. cbv zeta.
  destruct (cache_valido t1 "cdi" 7 disco) eqn:Hv.
  - destruct (carregar_cache ler_csv "cdi" disco) as [cache |] eqn:Hc.
    + destruct (iloc (map fst cache) (-1)) as [ultimo |] eqn:Hu.
      * destruct (ultimo <? data_fim)%Z.
        -- destruct (buscar_serie_bcb fonte serie_CDI (ultimo + 1)%Z data_fim)
             as [| n0 novos] eqn:Hn; cbn [fst snd].
           ++ split; [now left | apply Hq].
           ++ split; [| apply Hq]. right. exists (cache ++ n0 :: novos)%list.
              split; [| reflexivity]. now destruct cache.
        -- cbn [fst snd]. split; [now left | apply Hq].
      * cbn [fst snd]. split; [now left |]. intros e [= <-]. now right.
    + destruct (buscar_serie_bcb fonte serie_CDI data_inicio data_fim)
        as [| s0 s] eqn:Hs; cbn [fst snd].
      * split; [now left | apply Hq].
      * split; [| apply Hq]. right. exists (s0 :: s). split; [discriminate | reflexivity].
  - destruct (buscar_serie_bcb fonte serie_CDI data_inicio data_fim)
      as [| s0 s] eqn:Hs; cbn [fst snd].
    + split; [now left | apply Hq].
    + split; [| apply Hq]. right. exists (s0 :: s). split; [discriminate | reflexivity].
Qed.

End CdiEfeitos.

(** ** What the windows cover *)
Module JanelasCobertura.
Import Py Pandas ComparacaoAtivos PyFacts DetectoresSpec.
Import DetectoresCobertura DetectoresAcordo.
Local Open Scope float_scope.

Lemma Forall2_da_direita {A B} (R : A -> B -> Prop) (xs : list A) (ys : list B) y :
  Forall2 R xs ys -> In y ys -> exists x, In x xs /\ R x y.
Proof.
  induction 1 as [| x y0 xs ys Hxy Hrest IH]; intros Hin; [destruct Hin |].
  destruct Hin as [<- | Hin].
  - exists x. split; [now left | exact Hxy].
  - destruct (IH Hin) as (x' & Hx' & HR). exists x'. split; [now right | exact HR].
Qed.

(** X21: for two series with strictly increasing dates, the windows of
    the windowed detector cover every aligned date where asset 2 is
    ahead (between the start and the end date of some window, bounds
    included), and every aligned date from the start of a window to
    before its end date is one where asset 2 is ahead; only the end date
    of a window may be a date where it is not. *)
Theorem janelas_cobrem (s1 s2 : Series) (janela_meses : Z) :
  StronglySorted Z.lt (map fst s1) ->
  StronglySorted Z.lt (map fst s2) ->
  exists js,
    encontrar_janelas_superacao s1 s2 janela_meses = Return js
    /\ forall l, In l (dropna (frame_de_dois s1 s2)) ->
         (sup l = true ->
            exists j, In j js /\ (j_inicio j <= l_data l <= j_fim j)%Z)
         /\ (forall j, In j js -> (j_inicio j <= l_data l < j_fim j)%Z ->
               sup l = true).
Proof.
  intros H1 H2.
  pose proof (@alinhado_crescente s1 s2 H1 H2) as Hcres.
  unfold encontrar_janelas_superacao.
  set (al := dropna (frame_de_dois s1 s2)) in *.
  destruct (janelas_do_alinhado_cadeia al janela_meses) as (js & Hjs & Hcad & _).
  destruct (periodos_do_alinhado_cadeia al) as (ps & Hps & _).
  pose proof (@alinhado_mesmas_corridas al janela_meses js ps Hjs Hps) as Hrel.
  exists js. split; [exact Hjs |].
  intros l Hin. split.
  - intros Hs.
    destruct (@periodos_do_alinhado_cobrem al ps Hcres Hps l Hin Hs)
      as (pd & Hpd & Hd).
    destruct (@Forall2_da_direita _ _ _ js ps pd Hrel Hpd) as (j & Hj & Hini & q & lq & Hq & Hfim & _ & _ & Hend).
    exists j. split; [exact Hj |]. rewrite Hini. split; [lia |].
    destruct Hend as [(l' & Hl' & Hjf & _) | (_ & Hjf)].
    + rewrite Hjf.
      assert (l_data lq < l_data l')%Z
        by (apply (Hcres q (S q) lq l'); auto).
      lia.
    + rewrite Hjf. lia.
  - intros j Hj Hd.
    apply cadeia_todos in Hcad. rewrite Forall_forall in Hcad.
    destruct (Hcad j Hj) as (p & e & q & Hp & He & _ & Hpq & Hts & Hend).
    apply In_nth_error in Hin as (i & Hi).
    assert (Hdi : data_em al i (l_data l)) by (exists l; auto).
    assert (Hpi : (p <= i)%nat).
    { destruct (le_lt_dec p i) as [| Hlt]; [assumption |].
      pose proof (datas_estritas Hcres Hlt Hdi Hp). lia. }
    assert (Hie : (i < e)%nat).
    { destruct (le_lt_dec e i) as [Hle |]; [| assumption].
      pose proof (datas_monotonas Hcres Hle He Hdi). lia. }
    apply (Hts i l); [| exact Hi].
    destruct Hend as [[-> _] | [-> _]]; lia.
Qed.

Lemma janelas_cobrem_witness :
  exists js,
    encontrar_janelas_superacao var_a var_b 6 = Return js
    /\ forall l, In l (dropna (frame_de_dois var_a var_b)) ->
         (sup l = true ->
            exists j, In j js /\ (j_inicio j <= l_data l <= j_fim j)%Z)
         /\ (forall j, In j js -> (j_inicio j <= l_data l < j_fim j)%Z ->
               sup l = true).
Proof.
  apply (@janelas_cobrem var_a var_b 6);
    cbn; repeat (constructor; try reflexivity).
Defined.

End JanelasCobertura.

(** ** Which answer of the feed the fetch returns *)
Module FetcherResposta.
Import Py Pandas ComparacaoAtivos FetcherSpec.
Local Open Scope float_scope.

(** The first answer of a list that is a frame with data, and its
    position counted from [k]. *)
Fixpoint primeira_utilizavel (k : nat) (respostas : list resposta)
  : option (nat * DataFrame) :=
  match respostas with
  | [] => None
  | RespDados dados :: resto =>
      if empty dados then primeira_utilizavel (S k) resto else Some (k, dados)
  | RespErro _ :: resto => primeira_utilizavel (S k) resto
  end.

(** X22: the market fetch returns the first answer of the feed that is
    a frame with data, among the first three, and has then made as many
    downloads as the position of that answer; when none of the three is
    one (each is empty or an exception), it raises the [ValueError] of
    the outer handler after three downloads. *)
Theorem primeira_resposta_com_dados
        (rf : option (string -> date -> date -> result DataFrame))
        (yf : nat -> resposta) (ticker : string) (di df : date) (w : Mundo) :
  startswith "RF-" ticker = false ->
  match primeira_utilizavel 0 [yf (chamadas w); yf (S (chamadas w));
                               yf (S (S (chamadas w)))] with
  | Some (k, dados) =>
      fst (obter_dados_ativo rf yf ticker di df w) = Return dados
      /\ chamadas (snd (obter_dados_ativo rf yf ticker di df w))
         = (chamadas w + S k)%nat
  | None =>
      fst (obter_dados_ativo rf yf ticker di df w)
      = Raise (ValueError (mensagem_final ticker (msg_sem_dados ticker)))
      /\ chamadas (snd (obter_dados_ativo rf yf ticker di df w))
         = (chamadas w + 3)%nat
  end.
Proof.
  intros Hrf. unfold obter_dados_ativo. rewrite Hrf. cbv zeta.
  change (range 3) with [0; 1; 2]%Z.
  cbn [laco_tentativas primeira_utilizavel].
  unfold apos_sleep, apos_download. cbn [chamadas rastro].
  change (0 <? 3 - 1)%Z with true. change (1 <? 3 - 1)%Z with true.
  change (2 <? 3 - 1)%Z with false. cbv iota.
  destruct (yf (chamadas w)) as [d0 | e0].
  - destruct (empty d0); cbn [negb]; [| split; [reflexivity | cbn; lia]].
    destruct (yf (S (chamadas w))) as [d1 | e1].
    + destruct (empty d1); cbn [negb]; [| split; [reflexivity | cbn; lia]].
      destruct (yf (S (S (chamadas w)))) as [d2 | e2].
      * destruct (empty d2); cbn [negb]; split; try reflexivity; cbn; lia.
      * split; [reflexivity | cbn; lia].
    + destruct (yf (S (S (chamadas w)))) as [d2 | e2].
      * destruct (empty d2); cbn [negb]; split; try reflexivity; cbn; lia.
      * split; [reflexivity | cbn; lia].
  - destruct (yf (S (chamadas w))) as [d1 | e1].
    + destruct (empty d1); cbn [negb]; [| split; [reflexivity | cbn; lia]].
      destruct (yf (S (S (chamadas w)))) as [d2 | e2].
      * destruct (empty d2); cbn [negb]; split; try reflexivity; cbn; lia.
      * split; [reflexivity | cbn; lia].
    + destruct (yf (S (S (chamadas w)))) as [d2 | e2].
      * destruct (empty d2); cbn [negb]; split; try reflexivity; cbn; lia.
      * split; [reflexivity | cbn; lia].
Qed.

Lemma primeira_resposta_com_dados_witness :
  match primeira_utilizavel 0
          [yf_vazio_depois_dados (chamadas mundo_inicial);
           yf_vazio_depois_dados (S (chamadas mundo_inicial));
           yf_vazio_depois_dados (S (S (chamadas mundo_inicial)))] with
  | Some (k, dados) =>
      fst (obter_dados_ativo None yf_vazio_depois_dados "AAPL" 0%Z 10%Z mundo_inicial)
      = Return dados
      /\ chamadas (snd (obter_dados_ativo None yf_vazio_depois_dados "AAPL" 0%Z 10%Z
                          mundo_inicial))
         = (chamadas mundo_inicial + S k)%nat
  | None =>
      fst (obter_dados_ativo None yf_vazio_depois_dados "AAPL" 0%Z 10%Z mundo_inicial)
      = Raise (ValueError (mensagem_final "AAPL" (msg_sem_dados "AAPL")))
      /\ chamadas (snd (obter_dados_ativo None yf_vazio_depois_dados "AAPL" 0%Z 10%Z
                          mundo_inicial))
         = (chamadas mundo_inicial + 3)%nat
  end.
Proof.
  apply (@primeira_resposta_com_dados None yf_vazio_depois_dados "AAPL" 0%Z 10%Z
           mundo_inicial).
  reflexivity.
Defined.

End FetcherResposta.
